(** * Post-generation pipeline: orchestration, guardrails and streaming

    A shallow embedding of the agents of [app/agents] and their tool
    functions, the request and response models of [app/api/models.py], the
    streaming route of [app/api/routes.py], the services of [app/services]
    and the helpers, validators and event stream of [app/utils], together with
    the properties the specification states about them and further properties
    of the code.

    - Python [int] is [Z]; [str] is [string] (one character per element);
      [List[str]] is [list string]; [Optional[T]] is [option T]; a [dict]
      with string keys is an association list in insertion order.
    - A coroutine ([async def]) is a tree of external calls ([Coro]); an
      asynchronous generator is a tree that may also yield, await a
      coroutine, or await [asyncio.gather] over a batch of coroutines ([Prog]).
    - What [.dict()] returns for a model, and what a [Dict[str, Any]] holds,
      is a tree of Python objects ([pyobj]); [json.dumps] walks through it and
      raises at the first object without a JSON form.
    - The outside world (the agent SDK, the OpenAI client, [uuid.uuid4],
      [datetime.now]) is an oracle: it answers every call, possibly by
      raising, and decides how long the call takes. *)

From Stdlib Require Import ZArith List String Ascii Bool Lia QArith PeanoNat.
From Stdlib Require Import DecimalString DecimalZ DecimalPos FunctionalExtensionality.
From Stdlib Require Import Sorted Permutation FinFun.
Import ListNotations.

Local Open Scope string_scope.
Local Open Scope list_scope.
Local Open Scope Z_scope.

(** ** Python values *)

(** [str(n)] for an [int]. *)
Definition str_int (n : Z) : string := NilZero.string_of_int (Z.to_int n).

(** [len(s)] as a Python [int]. *)
Definition len (s : string) : Z := Z.of_nat (String.length s).

(** [s[:n]] for a non-negative literal [n]. *)
Definition str_prefix (n : nat) (s : string) : string := substring 0 n s.

(** [l[:n]] for a non-negative literal [n]. *)
Definition list_prefix {A : Type} (n : nat) (l : list A) : list A := firstn n l.

(** [range(start, stop, step)] for a positive [step]. *)
Definition py_range (start stop step : Z) : list Z :=
  map (fun k => start + Z.of_nat k * step)
      (seq 0 (Z.to_nat ((stop - start + step - 1) / step))).

(** Exceptions: the class decides which [except] clause catches it, the
    message is what [str(e)] returns. Every class here derives from
    [Exception]; [JSONDecodeError] and pydantic's [ValidationError] derive from
    [ValueError], which no handler of the code asks for. *)
Inductive exn_class : Type :=
| JSONDecodeError
| AttributeError
| ValidationError
| ValueError
| TypeError
| IndexError
| RecursionError
| ServiceError.

Record exn : Type := { exn_type : exn_class; exn_str : string }.

Definition is_JSONDecodeError (e : exn) : bool :=
  match exn_type e with JSONDecodeError => true | _ => false end.

(** The outcome of a call that may raise. *)
Inductive result (A : Type) : Type :=
| Returned (a : A)
| Raised (e : exn).
Arguments Returned {A} a.
Arguments Raised {A} e.

(** What [json.loads] produces. *)
Unset Elimination Schemes.
Inductive json : Type :=
| JNull
| JBool (b : bool)
| JNumber (literal : string)
| JString (s : string)
| JArray (items : list json)
| JObject (members : list (string * json)).
Set Elimination Schemes.

(** A [dict] with string keys, in insertion order. *)
Definition dict (V : Type) : Type := list (string * V).

Fixpoint dict_get {V : Type} (d : dict V) (key : string) : option V :=
  match d with
  | [] => None
  | (k, v) :: rest => if String.eqb k key then Some v else dict_get rest key
  end.

(** [type(obj).__name__] for a value [json.loads] produced: a number without
    fraction and exponent is an [int], any other number a [float]. *)
Definition is_int_literal (literal : string) : bool :=
  forallb (fun c => Ascii.eqb c "-"
                    || ((48 <=? nat_of_ascii c)%nat && (nat_of_ascii c <=? 57)%nat))
          (list_ascii_of_string literal).

Definition py_type_name (obj : json) : string :=
  match obj with
  | JNull => "NoneType"
  | JBool _ => "bool"
  | JNumber literal => if is_int_literal literal then "int" else "float"
  | JString _ => "str"
  | JArray _ => "list"
  | JObject _ => "dict"
  end.

(** [obj.get(key, default)]: a [dict] looks the key up, anything else has no
    attribute [get]. *)
Definition py_get (obj : json) (key : string) (default : json) : result json :=
  match obj with
  | JObject members =>
      Returned (match dict_get members key with Some v => v | None => default end)
  | _ => Raised {| exn_type := AttributeError;
                   exn_str := ("'" ++ py_type_name obj
                                 ++ "' object has no attribute 'get'")%string |}
  end.

(** The objects [json.dumps] is given: what [.dict()] returns for a model,
    and the values of a [Dict[str, Any]]. [PyObject] is an object of any other
    class, for which [json] has no encoder either. *)
Unset Elimination Schemes.
Inductive pyobj : Type :=
| PyNone
| PyBool (b : bool)
| PyInt (n : Z)
| PyFloat (literal : string)
| PyStr (s : string)
| PyList (items : list pyobj)
| PyDict (members : list (string * pyobj))
| PyDatetime (t : Z)
| PyObject (type_name : string).
Set Elimination Schemes.

(** The class of the first object, in the order [json.dumps] walks through
    lists and dictionaries, that has no JSON form. *)
Fixpoint unserializable (obj : pyobj) : option string :=
  match obj with
  | PyNone | PyBool _ | PyInt _ | PyFloat _ | PyStr _ => None
  | PyList items =>
      (fix first (l : list pyobj) : option string :=
         match l with
         | [] => None
         | x :: rest =>
             match unserializable x with
             | Some type_name => Some type_name
             | None => first rest
             end
         end) items
  | PyDict members =>
      (fix first (l : list (string * pyobj)) : option string :=
         match l with
         | [] => None
         | (_, x) :: rest =>
             match unserializable x with
             | Some type_name => Some type_name
             | None => first rest
             end
         end) members
  | PyDatetime _ => Some "datetime"
  | PyObject type_name => Some type_name
  end.

(** [json.dumps(obj)], with or without [indent]: it raises [TypeError] at the
    first object without a JSON form; the text it returns otherwise is kept as
    the object it encodes. (The objects here are finite trees whose
    dictionaries have strings as keys, so the errors [json.dumps] has for
    other keys and for an object that contains itself do not arise.) *)
Definition json_dumps (obj : pyobj) : result pyobj :=
  match unserializable obj with
  | Some type_name =>
      Raised {| exn_type := TypeError;
                exn_str := ("Object of type " ++ type_name
                              ++ " is not JSON serializable")%string |}
  | None => Returned obj
  end.

Definition py_optional {A : Type} (f : A -> pyobj) (x : option A) : pyobj :=
  match x with Some a => f a | None => PyNone end.

Definition py_strings (l : list string) : pyobj := PyList (map PyStr l).

(** ** The data model ([app/api/models.py]) *)

Module CompanyContext.
Record t : Type := {
  name : string;
  description : string;
  values : list string;
  target_audience : list string;
  tone_of_voice : string;
  industry : string;
  additional_info : option (dict pyobj)
}.

(** [company_context.dict()]. *)
Definition dict (c : t) : pyobj :=
  PyDict [("name", PyStr (name c));
          ("description", PyStr (description c));
          ("values", py_strings (values c));
          ("target_audience", py_strings (target_audience c));
          ("tone_of_voice", PyStr (tone_of_voice c));
          ("industry", PyStr (industry c));
          ("additional_info", py_optional PyDict (additional_info c))].
End CompanyContext.

Module BrandHero.
Record t : Type := {
  name : string;
  appearance : string;
  personality : string;
  backstory : string;
  values : list string;
  tone_of_voice : string
}.
End BrandHero.

Module PostGenerationRequest.
Record t : Type := {
  company_context : CompanyContext.t;
  brand_hero : BrandHero.t;
  num_proposals : Z;
  include_trends : bool;
  include_competitors : bool
}.

(** [request.num_proposals = v]. *)
Definition set_num_proposals (request : t) (v : Z) : t :=
  {| company_context := company_context request;
     brand_hero := brand_hero request;
     num_proposals := v;
     include_trends := include_trends request;
     include_competitors := include_competitors request |}.

(** The [@validator('num_proposals')] of the model. *)
Definition validate_num_proposals (v : Z) : result Z :=
  if (v <? 1) || (v >? 20)
  then Raised {| exn_type := ValueError;
                 exn_str := "num_proposals must be between 1 and 20" |}
  else Returned v.

End PostGenerationRequest.

Module PostContent.
Record t : Type := {
  text : string;
  hashtags : list string;
  call_to_action : option string
}.

Definition set_text (c : t) (s : string) : t :=
  {| text := s; hashtags := hashtags c; call_to_action := call_to_action c |}.

Definition set_hashtags (c : t) (h : list string) : t :=
  {| text := text c; hashtags := h; call_to_action := call_to_action c |}.

Definition dict (c : t) : pyobj :=
  PyDict [("text", PyStr (text c));
          ("hashtags", py_strings (hashtags c));
          ("call_to_action", py_optional PyStr (call_to_action c))].
End PostContent.

Module PostImage.
Record t : Type := {
  image_url : string;
  description : string;
  prompt_used : option string
}.

Definition dict (i : t) : pyobj :=
  PyDict [("image_url", PyStr (image_url i));
          ("description", PyStr (description i));
          ("prompt_used", py_optional PyStr (prompt_used i))].
End PostImage.

Module PostResponse.
Record t : Type := {
  id : string;
  content : PostContent.t;
  image : option PostImage.t;
  inspiration : option (dict string);
  created_at : Z
}.

Definition set_content (p : t) (c : PostContent.t) : t :=
  {| id := id p; content := c; image := image p;
     inspiration := inspiration p; created_at := created_at p |}.

Definition set_image (p : t) (i : option PostImage.t) : t :=
  {| id := id p; content := content p; image := i;
     inspiration := inspiration p; created_at := created_at p |}.

(** [post.dict()]: the models inside become dictionaries, [created_at] stays
    the [datetime] it is. *)
Definition dict (p : t) : pyobj :=
  PyDict [("id", PyStr (id p));
          ("content", PostContent.dict (content p));
          ("image", py_optional PostImage.dict (image p));
          ("inspiration",
           py_optional (fun d => PyDict (map (fun kv => (fst kv, PyStr (snd kv))) d))
                       (inspiration p));
          ("created_at", PyDatetime (created_at p))].
End PostResponse.

Module StreamResponse.
Record t : Type := {
  status : string;
  message : option string;
  post : option PostResponse.t;
  error : option string
}.

Definition dict (r : t) : pyobj :=
  PyDict [("status", PyStr (status r));
          ("message", py_optional PyStr (message r));
          ("post", py_optional PostResponse.dict (post r));
          ("error", py_optional PyStr (error r))].
End StreamResponse.

(** ** Settings ([app/config.py]) *)

Module Settings.
Record t : Type := {
  min_proposals : Z;
  max_proposals : Z
}.
End Settings.

(** The defaults of [Settings]: [MIN_PROPOSALS = 10], [MAX_PROPOSALS = 20]. *)
Definition default_settings : Settings.t :=
  {| Settings.min_proposals := 10; Settings.max_proposals := 20 |}.

(** ** Guardrails ([app/agents/orchestrator.py]) *)

(** [OrchestratorAgent._apply_request_guardrails]: two consecutive [if]s, each
    assigning to [request.num_proposals]. *)
Definition _apply_request_guardrails (settings : Settings.t)
    (request : PostGenerationRequest.t) : PostGenerationRequest.t :=
  let request :=
    if PostGenerationRequest.num_proposals request <? Settings.min_proposals settings
    then PostGenerationRequest.set_num_proposals request (Settings.min_proposals settings)
    else request in
  let request :=
    if PostGenerationRequest.num_proposals request >? Settings.max_proposals settings
    then PostGenerationRequest.set_num_proposals request (Settings.max_proposals settings)
    else request in
  request.

(** The three rules of [OrchestratorAgent._apply_post_guardrails], one
    definition per [if] of the source. *)
Definition truncate_text (post : PostResponse.t) : PostResponse.t :=
  if len (PostContent.text (PostResponse.content post)) >? 280
  then PostResponse.set_content post
         (PostContent.set_text (PostResponse.content post)
            (str_prefix 277 (PostContent.text (PostResponse.content post)) ++ "...")%string)
  else post.

Definition default_hashtag (post : PostResponse.t) : PostResponse.t :=
  match PostContent.hashtags (PostResponse.content post) with
  | [] => PostResponse.set_content post
            (PostContent.set_hashtags (PostResponse.content post) ["#post"])
  | _ :: _ => post
  end.

Definition limit_hashtags (post : PostResponse.t) : PostResponse.t :=
  if Z.of_nat (List.length (PostContent.hashtags (PostResponse.content post))) >? 5
  then PostResponse.set_content post
         (PostContent.set_hashtags (PostResponse.content post)
            (list_prefix 5 (PostContent.hashtags (PostResponse.content post))))
  else post.

Definition _apply_post_guardrails (post : PostResponse.t) : PostResponse.t :=
  limit_hashtags (default_hashtag (truncate_text post)).

(** ** The outside world *)

(** What a generation call is asked. The prompt texts of the agents are long
    f-strings over these arguments; a prompt is kept as the template it
    instantiates together with the values interpolated into it. *)
Inductive prompt : Type :=
| ResearchPrompt (company_context : CompanyContext.t)
    (include_trends include_competitors : bool)
| BriefPrompt (context_report : json) (brand_hero : BrandHero.t)
| PostPrompt (content_brief : string) (brand_hero : BrandHero.t) (proposal_num : Z)
| ImagePrompt (brand_hero : BrandHero.t) (post_content : PostContent.t)
| ScenePrompt (brand_hero : BrandHero.t) (post_content : PostContent.t).

(** The calls that leave the repository's code:
    [BaseAgent.generate_response] (the agent SDK),
    [OpenAIService.generate_text] and [OpenAIService.generate_image] (the
    OpenAI client), [uuid.uuid4] and [datetime.now], and what the constructors
    of the agents and of their services do when [OrchestratorAgent()] is
    evaluated: they build the clients and the agents of the SDK, which may
    refuse (the client raises when it finds no API key). *)
Inductive call : Type :=
| generate_response (agent_name : string) (p : prompt) (temperature : Q)
| generate_text (p : prompt) (temperature : Q) (max_tokens : Z)
| openai_generate_image (prompt_text : string) (size : string)
| uuid4
| datetime_now
| OrchestratorAgent_init.

(** What each call answers. A chat completion is the list of the [content]
    fields of its [choices]; the image call answers the [url] entry of the
    dictionary it returns, which the client may leave [None]. *)
Definition ans (c : call) : Type :=
  match c with
  | generate_response _ _ _ => result string
  | generate_text _ _ _ => result (list (option string))
  | openai_generate_image _ _ => result (option string)
  | uuid4 => string
  | datetime_now => Z
  | OrchestratorAgent_init => result unit
  end.

Definition is_raised {A : Type} (r : result A) : bool :=
  match r with Raised _ => true | Returned _ => false end.

Definition failed (c : call) : ans c -> bool :=
  match c with
  | generate_response _ _ _ => is_raised
  | generate_text _ _ _ => is_raised
  | openai_generate_image _ _ => is_raised
  | uuid4 => fun _ => false
  | datetime_now => fun _ => false
  | OrchestratorAgent_init => is_raised
  end.

(** Logical time, in ticks. *)
Definition time : Type := nat.

(** What an execution leaves in the log: a call with the instants at which it
    was issued and at which it answered, and whether it raised; a task of a
    gathered batch being dispatched; and that task settling. *)
Inductive event : Type :=
| EvCall (c : call) (t_start t_end : time) (raised : bool)
| EvSpawn (task : Z) (t : time)
| EvSettle (task : Z) (t : time).

Definition log : Type := list event.

(** The world answers a call knowing everything that happened before it, so
    two calls never have to get the same answer; it also decides how many
    ticks the caller stays suspended. *)
Record World : Type := {
  answer : forall c : call, log -> ans c;
  latency : call -> log -> time
}.

(** ** Coroutines *)

(** An [async def] that is not a generator: it returns, raises, or awaits an
    external call and goes on with its answer. *)
Inductive Coro (R : Type) : Type :=
| Ret (r : R)
| Raise (e : exn)
| Call (c : call) (k : ans c -> Coro R).
Arguments Ret {R} r.
Arguments Raise {R} e.
Arguments Call {R} c k.

Fixpoint cbind {A B : Type} (p : Coro A) (f : A -> Coro B) : Coro B :=
  match p with
  | Ret a => f a
  | Raise e => Raise e
  | Call c k => Call c (fun x => cbind (k x) f)
  end.

(** [try: p  except Exception as e: handler e]. *)
Fixpoint ctry {A : Type} (p : Coro A) (handler : exn -> Coro A) : Coro A :=
  match p with
  | Ret a => Ret a
  | Raise e => handler e
  | Call c k => Call c (fun x => ctry (k x) handler)
  end.

(** [try: p  except json.JSONDecodeError: handler]. *)
Definition ctry_JSONDecodeError {A : Type} (p : Coro A) (handler : Coro A) : Coro A :=
  ctry p (fun e => if is_JSONDecodeError e then handler else Raise e).

Definition of_result {A : Type} (r : result A) : Coro A :=
  match r with Returned a => Ret a | Raised e => Raise e end.

Declare Scope coro_scope.
Delimit Scope coro_scope with coro.
Bind Scope coro_scope with Coro.
Notation "x <- p ;; q" := (cbind p (fun x => q))
  (at level 61, p at next level, right associativity) : coro_scope.

(** Running a coroutine from the log [h] at the instant [t]: the log it
    leaves, the instant at which it settles, and its outcome. *)
Fixpoint run_coro {R : Type} (w : World) (h : log) (t : time) (p : Coro R)
  : log * time * result R :=
  match p with
  | Ret r => (h, t, Returned r)
  | Raise e => (h, t, Raised e)
  | Call c k =>
      let a := answer w c h in
      let t' := (t + latency w c h)%nat in
      run_coro w (h ++ [EvCall c t t' (failed c a)]) t' (k a)
  end.

(** ** Asynchronous generators *)

(** An [async def] with [yield]: besides returning and raising it yields an
    item to its consumer, awaits a coroutine, or awaits [asyncio.gather] over
    a batch of coroutines, each labelled with the number of its task. *)
Inductive Prog (Y R : Type) : Type :=
| PRet (r : R)
| PRaise (e : exn)
| PYield (y : Y) (k : Prog Y R)
| PAwait (T : Type) (c : Coro T) (k : result T -> Prog Y R)
| PGather (T : Type) (tasks : list (Z * Coro T)) (k : result (list T) -> Prog Y R).
Arguments PRet {Y R} r.
Arguments PRaise {Y R} e.
Arguments PYield {Y R} y k.
Arguments PAwait {Y R T} c k.
Arguments PGather {Y R T} tasks k.

Fixpoint pbind {Y A B : Type} (p : Prog Y A) (f : A -> Prog Y B) : Prog Y B :=
  match p with
  | PRet a => f a
  | PRaise e => PRaise e
  | PYield y k => PYield y (pbind k f)
  | PAwait c k => PAwait c (fun r => pbind (k r) f)
  | PGather tasks k => PGather tasks (fun r => pbind (k r) f)
  end.

(** [try: p  except Exception as e: handler e]. *)
Fixpoint ptry {Y A : Type} (p : Prog Y A) (handler : exn -> Prog Y A) : Prog Y A :=
  match p with
  | PRet a => PRet a
  | PRaise e => handler e
  | PYield y k => PYield y (ptry k handler)
  | PAwait c k => PAwait c (fun r => ptry (k r) handler)
  | PGather tasks k => PGather tasks (fun r => ptry (k r) handler)
  end.

Definition p_of_result {Y A : Type} (r : result A) : Prog Y A :=
  match r with Returned a => PRet a | Raised e => PRaise e end.

(** [await c], [await asyncio.gather] over the tasks and [yield y]. *)
Definition await {Y T : Type} (c : Coro T) : Prog Y T := PAwait c p_of_result.
Definition gather {Y T : Type} (tasks : list (Z * Coro T)) : Prog Y (list T) :=
  PGather tasks p_of_result.
Definition yield {Y : Type} (y : Y) : Prog Y unit := PYield y (PRet tt).

(** [async for y in g: body y]: the body runs at every [yield] of [g], and
    [g] resumes when the body is done; an exception of the body leaves the
    loop without passing through the handlers of [g]. The value is what [g]
    returns. *)
Fixpoint for_each {Y Y' R : Type} (g : Prog Y R) (body : Y -> Prog Y' unit)
  : Prog Y' R :=
  match g with
  | PRet r => PRet r
  | PRaise e => PRaise e
  | PYield y k => pbind (body y) (fun _ => for_each k body)
  | PAwait c k => PAwait c (fun r => for_each (k r) body)
  | PGather tasks k => PGather tasks (fun r => for_each (k r) body)
  end.

Declare Scope prog_scope.
Delimit Scope prog_scope with prog.
Bind Scope prog_scope with Prog.
Notation "x <- p ;; q" := (pbind p (fun x => q))
  (at level 61, p at next level, right associativity) : prog_scope.
Notation "p ;; q" := (pbind p (fun _ => q))
  (at level 61, right associativity) : prog_scope.

(** [for x in l: body x]. *)
Fixpoint for_in {Y A : Type} (l : list A) (body : A -> Prog Y unit) : Prog Y unit :=
  match l with
  | [] => PRet tt
  | x :: rest => (body x ;; for_in rest body)%prog
  end.

(** What a consumer has seen: the log, the clock, and the items yielded so
    far with the instants at which they were yielded. *)
Record state (Y : Type) : Type := {
  hist : log;
  now : time;
  out : list (time * Y)
}.
Arguments hist {Y} s.
Arguments now {Y} s.
Arguments out {Y} s.

(** The tasks of a gathered batch are all dispatched at the instant [t0] and
    run concurrently: each one starts at [t0] whatever the others do, and
    settles at an instant of its own. *)
Fixpoint run_tasks {T : Type} (w : World) (t0 : time) (h : log)
    (tasks : list (Z * Coro T)) : log * list (time * result T) :=
  match tasks with
  | [] => (h, [])
  | (task, c) :: rest =>
      let '(h1, t1, r1) := run_coro w (h ++ [EvSpawn task t0]) t0 c in
      let '(h2, rs) := run_tasks w t0 (h1 ++ [EvSettle task t1]) rest in
      (h2, (t1, r1) :: rs)
  end.

(** [asyncio.gather] without [return_exceptions]: the first exception raised
    (in time; the earlier task among simultaneous ones) is propagated at once;
    otherwise the results come in the order of the tasks, when the last one
    has settled. *)
Fixpoint first_failure {T : Type} (rs : list (time * result T)) : option (time * exn) :=
  match rs with
  | [] => None
  | (t, Raised e) :: rest =>
      match first_failure rest with
      | Some (t', e') => if (t' <? t)%nat then Some (t', e') else Some (t, e)
      | None => Some (t, e)
      end
  | (_, Returned _) :: rest => first_failure rest
  end.

Fixpoint returned_values {T : Type} (rs : list (time * result T)) : list T :=
  match rs with
  | [] => []
  | (_, Returned a) :: rest => a :: returned_values rest
  | (_, Raised _) :: rest => returned_values rest
  end.

Definition latest {T : Type} (t0 : time) (rs : list (time * result T)) : time :=
  fold_right (fun r m => Nat.max (fst r) m) t0 rs.

Definition gather_outcome {T : Type} (t0 : time) (rs : list (time * result T))
  : time * result (list T) :=
  match first_failure rs with
  | Some (t, e) => (t, Raised e)
  | None => (latest t0 rs, Returned (returned_values rs))
  end.

Fixpoint run {Y R : Type} (w : World) (s : state Y) (p : Prog Y R)
  : state Y * result R :=
  match p with
  | PRet r => (s, Returned r)
  | PRaise e => (s, Raised e)
  | PYield y k =>
      run w {| hist := hist s; now := now s; out := out s ++ [(now s, y)] |} k
  | PAwait c k =>
      let '(h, t, r) := run_coro w (hist s) (now s) c in
      run w {| hist := h; now := t; out := out s |} (k r)
  | PGather tasks k =>
      let '(h, rs) := run_tasks w (now s) (hist s) tasks in
      let '(t, r) := gather_outcome (now s) rs in
      run w {| hist := h; now := t; out := out s |} (k r)
  end.

(** The state a request starts from. *)
Definition start {Y : Type} : state Y := {| hist := []; now := 0%nat; out := [] |}.

(** ** Library functions the agents rely on *)

(** [json.loads]: the value parsed, or the exception raised, which is
    [json.JSONDecodeError] for a text that is not a JSON document and another
    one where the interpreter sets a limit ([RecursionError] for a document
    nested too deep, [ValueError] for an integer of more than 4300 digits).
    The pydantic constructor [PostContent(text=..., hashtags=...,
    call_to_action=...)] on values taken out of parsed JSON (the message of
    its [ValidationError] when it rejects them). The text of the
    [ValidationError] pydantic raises when a validator of a model raised
    [ValueError]: it is laid out by pydantic from the name of the model, the
    name of the field, the message of the [ValueError] and the value given,
    and names the version of pydantic. *)
Record Library : Type := {
  json_loads : string -> result json;
  PostContent_validate : json -> json -> json -> string + PostContent.t;
  ValidationError_str : string -> string -> string -> string -> string
}.

(** [PostImage(image_url=..., description=..., prompt_used=...)]: [image_url]
    is a required [str], so [None] is rejected. *)
Definition PostImage_new (image_url : option string) (description : string)
    (prompt_used : string) : result PostImage.t :=
  match image_url with
  | Some url => Returned {| PostImage.image_url := url;
                            PostImage.description := description;
                            PostImage.prompt_used := Some prompt_used |}
  | None => Raised {| exn_type := ValidationError;
                      exn_str := "image_url: Input should be a valid string" |}
  end.

(** The external calls as coroutines. *)
Definition BaseAgent_generate_response (agent_name : string) (p : prompt)
    (temperature : Q) : Coro string :=
  Call (generate_response agent_name p temperature) of_result.

Definition OpenAIService_generate_text (p : prompt) (temperature : Q)
    (max_tokens : Z) : Coro (list (option string)) :=
  Call (generate_text p temperature max_tokens) of_result.

Definition OpenAIService_generate_image (prompt_text size : string)
  : Coro (option string) :=
  Call (openai_generate_image prompt_text size) of_result.

Definition new_uuid : Coro string := Call uuid4 (fun x => Ret x).
Definition new_timestamp : Coro Z := Call datetime_now (fun x => Ret x).

Definition nl : string := String (ascii_of_nat 10) EmptyString.
Definition indent : string := "            ".

Section Agents.

Variable lib : Library.
Variable settings : Settings.t.

Definition loads (s : string) : Coro json := of_result (json_loads lib s).

(** [PostGenerationRequest(company_context=..., brand_hero=...,
    num_proposals=..., ...)]: the constructor runs the validator, and a
    [ValueError] of the validator comes out as a [ValidationError]. *)
Definition PostGenerationRequest_new (cc : CompanyContext.t) (bh : BrandHero.t)
    (n : Z) (trends competitors : bool) : result PostGenerationRequest.t :=
  match PostGenerationRequest.validate_num_proposals n with
  | Returned v =>
      Returned {| PostGenerationRequest.company_context := cc;
                  PostGenerationRequest.brand_hero := bh;
                  PostGenerationRequest.num_proposals := v;
                  PostGenerationRequest.include_trends := trends;
                  PostGenerationRequest.include_competitors := competitors |}
  | Raised e =>
      Raised {| exn_type := ValidationError;
                exn_str := ValidationError_str lib "PostGenerationRequest"
                             "num_proposals" (exn_str e) (str_int n) |}
  end.

Definition PostContent_new (text hashtags call_to_action : json) : Coro PostContent.t :=
  match PostContent_validate lib text hashtags call_to_action with
  | inr c => Ret c
  | inl msg => Raise {| exn_type := ValidationError; exn_str := msg |}
  end.

(** *** [app/agents/research.py] *)

(** [ResearchAgent.generate_context_report]. *)
Definition generate_context_report (company_context : CompanyContext.t)
    (include_trends include_competitors : bool) : Coro json :=
  ctry
    (let context_dict := CompanyContext.dict company_context in
     context_json <- of_result (json_dumps context_dict) ;;
     response <- BaseAgent_generate_response "ResearchAgent"
                   (ResearchPrompt company_context include_trends include_competitors)
                   (5 # 10) ;;
     report <- ctry_JSONDecodeError
                 (loads response)
                 (Ret (JObject [("raw_response", JString response);
                                ("error", JString "Failed to parse JSON response")])) ;;
     Ret report)%coro
    (fun e => Raise e).

(** *** [app/agents/content.py] *)

(** [ContentAgent._create_content_brief]. Its two [json.dumps] have nothing
    to raise on: the [dict()] of a brand hero is made of strings, and the
    context report is dumped with [default=str]. *)
Definition _create_content_brief (context_report : json) (brand_hero : BrandHero.t)
  : Coro string :=
  ctry
    (content_brief <- BaseAgent_generate_response "ContentAgent"
                        (BriefPrompt context_report brand_hero) (7 # 10) ;;
     Ret content_brief)%coro
    (fun e => Raise e).

(** [ContentAgent._generate_post_proposal]. *)
Definition _generate_post_proposal (content_brief : string) (brand_hero : BrandHero.t)
    (proposal_num : Z) : Coro PostResponse.t :=
  ctry
    (response <- BaseAgent_generate_response "ContentAgent"
                   (PostPrompt content_brief brand_hero proposal_num) (8 # 10) ;;
     post_content <- ctry_JSONDecodeError
       (content_json <- loads response ;;
        text <- of_result (py_get content_json "text" (JString "")) ;;
        hashtags <- of_result (py_get content_json "hashtags" (JArray [])) ;;
        call_to_action <- of_result (py_get content_json "call_to_action" JNull) ;;
        PostContent_new text hashtags call_to_action)
       (Ret {| PostContent.text := ("Post proposal #" ++ str_int proposal_num)%string;
               PostContent.hashtags := ["#fallback"];
               PostContent.call_to_action := None |}) ;;
     id <- new_uuid ;;
     created_at <- new_timestamp ;;
     Ret {| PostResponse.id := id;
            PostResponse.content := post_content;
            PostResponse.image := None;
            PostResponse.inspiration := Some
              [("source", ("Proposal " ++ str_int proposal_num)%string);
               ("brief_excerpt",
                if len content_brief >? 100
                then (str_prefix 100 content_brief ++ "...")%string
                else content_brief)];
            PostResponse.created_at := created_at |})%coro
    (fun e =>
       (id <- new_uuid ;;
        created_at <- new_timestamp ;;
        Ret {| PostResponse.id := id;
               PostResponse.content :=
                 {| PostContent.text :=
                      ("Error generating post content for proposal #"
                         ++ str_int proposal_num)%string;
                    PostContent.hashtags := ["#error"];
                    PostContent.call_to_action := None |};
               PostResponse.image := None;
               PostResponse.inspiration := Some
                 [("source", ("Error in proposal " ++ str_int proposal_num)%string);
                  ("error", exn_str e)];
               PostResponse.created_at := created_at |})%coro).

(** The tasks of the batch that starts at [batch_start]: the inner [for] of
    [generate_post_proposals]. *)
Definition batch_tasks (content_brief : string) (brand_hero : BrandHero.t)
    (num_proposals batch_size batch_start : Z) : list (Z * Coro PostResponse.t) :=
  let batch_end := Z.min (batch_start + batch_size) num_proposals in
  map (fun i => let proposal_num := i + 1 in
                (proposal_num,
                 _generate_post_proposal content_brief brand_hero proposal_num))
      (py_range batch_start batch_end 1).

(** [ContentAgent.generate_post_proposals]. *)
Definition generate_post_proposals (context_report : json) (brand_hero : BrandHero.t)
    (num_proposals : Z) : Prog PostResponse.t unit :=
  ptry
    (content_brief <- await (_create_content_brief context_report brand_hero) ;;
     let batch_size := 3 in
     for_in (py_range 0 num_proposals batch_size) (fun batch_start =>
       batch_results <- gather (batch_tasks content_brief brand_hero
                                  num_proposals batch_size batch_start) ;;
       for_in batch_results (fun post_response => yield post_response)))%prog
    (fun e => PRaise e).

(** *** [app/services/dalle_service.py] *)

(** [DALLEService.generate_scene_description]: the content of the first
    choice, which the client may leave [None]; whatever goes wrong, a fixed
    description is returned instead. *)
Definition generate_scene_description (brand_hero : BrandHero.t)
    (post_content : PostContent.t) : Coro (option string) :=
  ctry
    (response <- OpenAIService_generate_text
                   (ScenePrompt brand_hero post_content) (7 # 10) 300 ;;
     match response with
     | scene_description :: _ => Ret scene_description
     | [] => Raise {| exn_type := IndexError; exn_str := "list index out of range" |}
     end)%coro
    (fun e =>
       Ret (Some ("A professional image of " ++ BrandHero.name brand_hero
                    ++ " related to " ++ PostContent.text post_content)%string)).

(** The dictionary [generate_brand_hero_image] returns. *)
Record image_result : Type := {
  ir_image_url : option string;
  ir_description : string;
  ir_prompt_used : string
}.

(** The prompt texts of [generate_brand_hero_image]. *)
Definition join_hashtags (post_content : PostContent.t) : string :=
  match PostContent.hashtags post_content with
  | [] => ""
  | _ :: _ => String.concat " " (PostContent.hashtags post_content)
  end.

Definition base_prompt (brand_hero : BrandHero.t) : string :=
  (nl ++ indent ++ "Create a photorealistic image of " ++ BrandHero.name brand_hero
      ++ ", who is " ++ BrandHero.appearance brand_hero ++ "." ++ nl
      ++ indent ++ nl
      ++ indent ++ "Character personality: " ++ BrandHero.personality brand_hero ++ nl
      ++ indent ++ nl
      ++ indent ++ "Scene context: " ++ nl
      ++ indent)%string.

(** [if scene_description:] holds for a non-empty string only. *)
Definition scene_prompt (post_content : PostContent.t)
    (scene_description : option string) : string :=
  match scene_description with
  | Some (String a rest) => String a rest
  | Some EmptyString | None =>
      ("The character is in a scene related to: " ++ PostContent.text post_content
         ++ " " ++ join_hashtags post_content)%string
  end.

Definition image_guardrails : string :=
  (nl ++ indent ++ "The image should be:" ++ nl
      ++ indent ++ "- Professional and appropriate for business social media" ++ nl
      ++ indent ++ "- Visually appealing with good composition" ++ nl
      ++ indent ++ "- Well-lit with clear visibility of the character" ++ nl
      ++ indent ++ "- Consistent with the brand hero's description" ++ nl
      ++ indent ++ "- Relevant to the post content" ++ nl
      ++ indent)%string.

Definition final_prompt (brand_hero : BrandHero.t) (post_content : PostContent.t)
    (scene_description : option string) : string :=
  let full_prompt :=
    (base_prompt brand_hero ++ " " ++ scene_prompt post_content scene_description)%string in
  (full_prompt ++ nl ++ nl ++ image_guardrails)%string.

(** [DALLEService.generate_brand_hero_image]. *)
Definition generate_brand_hero_image (brand_hero : BrandHero.t)
    (post_content : PostContent.t) (scene_description : option string)
  : Coro image_result :=
  ctry
    (url <- OpenAIService_generate_image
              (final_prompt brand_hero post_content scene_description) "1024x1024" ;;
     Ret {| ir_image_url := url;
            ir_description := scene_prompt post_content scene_description;
            ir_prompt_used := final_prompt brand_hero post_content scene_description |})%coro
    (fun e => Raise e).

(** *** [app/agents/image.py] *)

(** The fallback image of [ImageAgent.generate_image]. *)
Definition placeholder_image : PostImage.t :=
  {| PostImage.image_url :=
       "https://via.placeholder.com/1024x1024?text=Image+Generation+Error";
     PostImage.description := "Error generating image";
     PostImage.prompt_used := None |}.

(** [ImageAgent.generate_image]. *)
Definition generate_image (brand_hero : BrandHero.t) (post_content : PostContent.t)
  : Coro PostImage.t :=
  ctry
    (response <- BaseAgent_generate_response "ImageAgent"
                   (ImagePrompt brand_hero post_content) (7 # 10) ;;
     scene_description <- generate_scene_description brand_hero post_content ;;
     image_result <- generate_brand_hero_image brand_hero post_content
                       scene_description ;;
     post_image <- of_result (PostImage_new (ir_image_url image_result)
                                (ir_description image_result)
                                (ir_prompt_used image_result)) ;;
     Ret post_image)%coro
    (fun e => Ret placeholder_image).

(** *** [app/agents/orchestrator.py] *)

(** The body of the [async for] of [process_request]. *)
Definition process_proposal (brand_hero : BrandHero.t) (post_proposal : PostResponse.t)
  : Prog PostResponse.t unit :=
  (post_image <- await (generate_image brand_hero (PostResponse.content post_proposal)) ;;
   let post_proposal := PostResponse.set_image post_proposal (Some post_image) in
   let validated_post := _apply_post_guardrails post_proposal in
   yield validated_post)%prog.

(** [OrchestratorAgent.process_request]. The request guardrail assigns to the
    caller's request object; the state that object is left in is what the
    generator returns here. *)
Definition process_request (request : PostGenerationRequest.t)
  : Prog PostResponse.t PostGenerationRequest.t :=
  ptry
    (let validated_request := _apply_request_guardrails settings request in
     context_report <- await (generate_context_report
                                (PostGenerationRequest.company_context validated_request)
                                (PostGenerationRequest.include_trends validated_request)
                                (PostGenerationRequest.include_competitors validated_request)) ;;
     for_each (generate_post_proposals context_report
                 (PostGenerationRequest.brand_hero validated_request)
                 (PostGenerationRequest.num_proposals validated_request))
              (process_proposal (PostGenerationRequest.brand_hero validated_request)) ;;
     PRet validated_request)%prog
    (fun e => PRaise e).

(** *** [app/api/routes.py] *)

(** A line of the response body, [json.dumps(r.dict())] followed by a
    newline, kept as the [StreamResponse] it encodes. *)
Record json_line : Type := { decoded : StreamResponse.t }.

Definition dumps (r : StreamResponse.t) : Prog json_line json_line :=
  match json_dumps (StreamResponse.dict r) with
  | Returned _ => PRet {| decoded := r |}
  | Raised e => PRaise e
  end.

Definition started_response : StreamResponse.t :=
  {| StreamResponse.status := "started";
     StreamResponse.message := Some "Starting post generation process";
     StreamResponse.post := None;
     StreamResponse.error := None |}.

Definition in_progress_response (post : PostResponse.t) : StreamResponse.t :=
  {| StreamResponse.status := "in_progress";
     StreamResponse.message := None;
     StreamResponse.post := Some post;
     StreamResponse.error := None |}.

Definition completed_response (n : Z) : StreamResponse.t :=
  {| StreamResponse.status := "completed";
     StreamResponse.message :=
       Some ("Generated " ++ str_int n ++ " post proposals")%string;
     StreamResponse.post := None;
     StreamResponse.error := None |}.

Definition error_response (e : exn) : StreamResponse.t :=
  {| StreamResponse.status := "error";
     StreamResponse.message := None;
     StreamResponse.post := None;
     StreamResponse.error := Some (exn_str e) |}.

(** [OrchestratorAgent()]: the constructors of the agents and of the
    services wire SDK objects together; they make no call to the generation
    services, and return or raise as the SDK decides. *)
Definition OrchestratorAgent_new : Coro unit := Call OrchestratorAgent_init of_result.

(** [generate_posts_stream]. *)
Definition generate_posts_stream (request : PostGenerationRequest.t)
  : Prog json_line unit :=
  ptry
    (orchestrator <- await OrchestratorAgent_new ;;
     line <- dumps started_response ;;
     yield line ;;
     request <- for_each (process_request request) (fun post =>
                  line <- dumps (in_progress_response post) ;;
                  yield line) ;;
     line <- dumps (completed_response (PostGenerationRequest.num_proposals request)) ;;
     yield line)%prog
    (fun e =>
       (line <- dumps (error_response e) ;;
        yield line)%prog).

End Agents.

(** ** Strings and patterns ([str] methods and [re]) *)

(** The characters of the model are the 256 code points of Latin-1; [ord c]
    is the code point. *)
Definition ord (c : ascii) : nat := nat_of_ascii c.

Definition between (lo hi : nat) (c : ascii) : bool :=
  (lo <=? ord c)%nat && (ord c <=? hi)%nat.

(** [s.startswith(prefix)]. *)
Definition startswith (s pre : string) : bool := String.prefix pre s.

(** [s[n:]] for a non-negative literal [n]. *)
Fixpoint str_drop (n : nat) (s : string) : string :=
  match n, s with
  | O, _ => s
  | S _, EmptyString => EmptyString
  | S k, String _ rest => str_drop k rest
  end.

(** [s[:stop]] and [l[:stop]] for any [int]: a negative [stop] counts from
    the end. *)
Definition str_slice_to (s : string) (stop : Z) : string :=
  if stop <? 0 then str_prefix (Z.to_nat (len s + stop)) s
  else str_prefix (Z.to_nat stop) s.

Definition list_slice_to {A : Type} (l : list A) (stop : Z) : list A :=
  if stop <? 0 then list_prefix (Z.to_nat (Z.of_nat (List.length l) + stop)) l
  else list_prefix (Z.to_nat stop) l.

(** [c in s] for a character, and the index of its first occurrence. *)
Fixpoint str_mem (c : ascii) (s : string) : bool :=
  match s with
  | EmptyString => false
  | String a rest => Ascii.eqb a c || str_mem c rest
  end.

Fixpoint find_char (c : ascii) (s : string) : option nat :=
  match s with
  | EmptyString => None
  | String a rest =>
      if Ascii.eqb a c then Some O else option_map S (find_char c rest)
  end.

(** The length of the longest prefix made of characters of a class. *)
Fixpoint span (class : ascii -> bool) (s : string) : nat :=
  match s with
  | EmptyString => O
  | String a rest => if class a then S (span class rest) else O
  end.

(** [s.lower()]: the letters A-Z, and the capital letters of Latin-1 (all of
    192-222 except the multiplication sign 215), are 32 below their small
    forms. *)
Definition chr_lower (c : ascii) : ascii :=
  if between 65 90 c || between 192 214 c || between 216 222 c
  then ascii_of_nat (ord c + 32)
  else c.

Fixpoint str_map (f : ascii -> ascii) (s : string) : string :=
  match s with
  | EmptyString => EmptyString
  | String a rest => String (f a) (str_map f rest)
  end.

Definition str_lower (s : string) : string := str_map chr_lower s.

(** The classes [\w] and [\s] of [re] on [str] patterns, and of
    [str.split()]: what [str.isalnum] accepts, with the underscore, and what
    [str.isspace] accepts. *)
Definition is_word (c : ascii) : bool :=
  between 48 57 c || between 65 90 c || between 95 95 c || between 97 122 c
  || between 170 170 c || between 178 179 c || between 181 181 c
  || between 185 186 c || between 188 190 c || between 192 214 c
  || between 216 246 c || between 248 255 c.

Definition is_space (c : ascii) : bool :=
  between 9 13 c || between 28 32 c || between 133 133 c || between 160 160 c.

(** [re.search(pattern, s)] and [re.sub(pattern, '', s)]. A pattern is given
    by what it matches at the beginning of a string: the length of the match
    the engine settles on there, if there is one. [re.sub] scans from the
    left; where the pattern matches, the match is dropped and the scan goes on
    behind it; where it does not, the character is kept. [skip] is the number
    of characters of the current match still to drop. No pattern below
    matches the empty string. *)
Definition regex : Type := string -> option nat.

Fixpoint re_search (p : regex) (s : string) : bool :=
  match p s with
  | Some _ => true
  | None =>
      match s with
      | EmptyString => false
      | String _ rest => re_search p rest
      end
  end.

Fixpoint re_delete (p : regex) (skip : nat) (s : string) : string :=
  match s with
  | EmptyString => EmptyString
  | String a rest =>
      match skip with
      | S k => re_delete p k rest
      | O =>
          match p s with
          | Some (S k) => re_delete p k rest
          | Some O | None => String a (re_delete p O rest)
          end
      end
  end.

Definition re_sub_empty (p : regex) (s : string) : string := re_delete p O s.

(** [[^...]]: one character outside the class. *)
Definition re_not_in (class : ascii -> bool) : regex :=
  fun s =>
    match s with
    | String a _ => if class a then None else Some 1%nat
    | EmptyString => None
    end.

(** [s.split()]: the maximal runs of characters that are not whitespace.
    [word] is the run being read. *)
Fixpoint str_split_from (word : string) (s : string) : list string :=
  match s with
  | EmptyString =>
      match word with EmptyString => [] | String _ _ => [word] end
  | String a rest =>
      if is_space a
      then match word with
           | EmptyString => str_split_from EmptyString rest
           | String _ _ => word :: str_split_from EmptyString rest
           end
      else str_split_from (word ++ String a EmptyString)%string rest
  end.

Definition str_split (s : string) : list string := str_split_from EmptyString s.

(** ** Helpers ([app/utils/helpers.py]) *)

Module helpers.

(** The characters a hashtag may have: [[a-zA-Z0-9#_]]. *)
Definition hashtag_char (c : ascii) : bool :=
  between 97 122 c || between 65 90 c || between 48 57 c
  || Ascii.eqb c "#" || Ascii.eqb c "_".

(** [format_hashtags]. *)
Definition format_hashtag (hashtag : string) : string :=
  let hashtag := if negb (startswith hashtag "#")
                 then ("#" ++ hashtag)%string else hashtag in
  re_sub_empty (re_not_in hashtag_char) hashtag.

Definition format_hashtags (hashtags : list string) : list string :=
  map format_hashtag hashtags.

(** [truncate_text]. *)
Definition truncate_text (text : string) (max_length : Z) : string :=
  if len text <=? max_length then text
  else (str_slice_to text (max_length - 3) ++ "...")%string.

(** The patterns of [sanitize_input]. [<[^>]*>] matches from a [<] to the
    first [>] behind it. *)
Definition re_tag : regex :=
  fun s =>
    match s with
    | String a rest =>
        if Ascii.eqb a "<"
        then option_map (fun i => S (S i)) (find_char ">" rest)
        else None
    | EmptyString => None
    end.

(** [<script.*?>.*?</script>] with [re.DOTALL]: [<script], anything up to the
    first [>], anything up to the first [</script>] behind it. *)
Definition re_script : regex :=
  fun s =>
    if startswith s "<script"
    then
      let opened := str_drop 7 s in
      match find_char ">" opened with
      | Some i =>
          match index 0 "</script>" (str_drop (S i) opened) with
          | Some j => Some (7 + S i + j + 9)%nat
          | None => None
          end
      | None => None
      end
    else None.

Definition re_javascript : regex :=
  fun s => if startswith s "javascript:" then Some 11%nat else None.

(** [on\w+\s*=]: the three classes are disjoint, so the longest run of word
    characters and the longest run of whitespace are the only split that can
    match. *)
Definition re_handler : regex :=
  fun s =>
    if startswith s "on"
    then
      let name := str_drop 2 s in
      match span is_word name with
      | O => None
      | S w =>
          let blank := str_drop (S w) name in
          match str_drop (span is_space blank) blank with
          | String a _ =>
              if Ascii.eqb a "="
              then Some (2 + S w + span is_space blank + 1)%nat
              else None
          | EmptyString => None
          end
      end
    else None.

(** [sanitize_input]. *)
Definition sanitize_input (text : string) : string :=
  let text := re_sub_empty re_tag text in
  let text := re_sub_empty re_script text in
  let text := re_sub_empty re_javascript text in
  let text := re_sub_empty re_handler text in
  text.

(** [extract_keywords]. *)
Definition stop_words : list string :=
  ["a"; "an"; "the"; "and"; "or"; "but"; "if"; "because"; "as"; "what";
   "when"; "where"; "how"; "who"; "which"; "this"; "that"; "these"; "those";
   "is"; "are"; "was"; "were"; "be"; "been"; "being"; "have"; "has"; "had";
   "do"; "does"; "did"; "to"; "at"; "in"; "on"; "for"; "with"; "by"; "about";
   "of"; "from"; "up"; "down"; "into"; "over"; "under"; "again"; "further";
   "then"; "once"; "here"; "there"; "all"; "any"; "both"; "each"; "few";
   "more"; "most"; "other"; "some"; "such"; "no"; "nor"; "not"; "only";
   "own"; "same"; "so"; "than"; "too"; "very"; "can"; "will"; "just"; "should";
   "now"].

Definition str_in (word : string) (words : list string) : bool :=
  existsb (String.eqb word) words.

(** [word_counts[word] += 1] or [word_counts[word] = 1]: a [dict] keeps the
    order in which its keys were first inserted. *)
Fixpoint count_word (word_counts : dict Z) (word : string) : dict Z :=
  match word_counts with
  | [] => [(word, 1)]
  | (k, n) :: rest =>
      if String.eqb k word then (k, n + 1) :: rest
      else (k, n) :: count_word rest word
  end.

(** [sorted(items, key=lambda x: x[1], reverse=True)]: the sort is stable,
    also with [reverse]: items with the same count keep their order. *)
Fixpoint insert_by_count (item : string * Z) (sorted : list (string * Z))
  : list (string * Z) :=
  match sorted with
  | [] => [item]
  | other :: rest =>
      if snd other >? snd item then other :: insert_by_count item rest
      else item :: other :: rest
  end.

Definition sorted_by_count (items : list (string * Z)) : list (string * Z) :=
  fold_right insert_by_count [] items.

Definition filtered_words (text : string) : list string :=
  let text := re_sub_empty (re_not_in (fun c => is_word c || is_space c)) (str_lower text) in
  let words := str_split text in
  filter (fun word => negb (str_in word stop_words) && (len word >? 3)) words.

Definition extract_keywords (text : string) (max_keywords : Z) : list string :=
  let word_counts := fold_left count_word (filtered_words text) [] in
  let sorted_words := sorted_by_count word_counts in
  map fst (list_slice_to sorted_words max_keywords).

End helpers.

(** ** Validators ([app/utils/validators.py]) *)

Module validators.

(** The dictionary every validator returns. *)
Record t : Type := {
  is_valid : bool;
  errors : list string;
  warnings : list string
}.

Definition result_of (errors warnings : list string) : t :=
  {| is_valid := (Z.of_nat (List.length errors) =? 0);
     errors := errors;
     warnings := warnings |}.

(** [errors.append(msg)] under [if cond:]. *)
Definition append_if (cond : bool) (msg : string) (l : list string) : list string :=
  if cond then l ++ [msg] else l.

Definition empty_str (s : string) : bool := String.eqb s "".

Definition empty_list {A : Type} (l : list A) : bool :=
  match l with [] => true | _ :: _ => false end.

(** [validate_post_generation_request]. *)
Definition validate_post_generation_request (settings : Settings.t)
    (request : PostGenerationRequest.t) : t :=
  let cc := PostGenerationRequest.company_context request in
  let bh := PostGenerationRequest.brand_hero request in
  let n := PostGenerationRequest.num_proposals request in
  let errors := [] in
  let warnings := [] in
  let errors := append_if (empty_str (CompanyContext.name cc))
                  "Company name is required" errors in
  let errors := append_if (empty_str (CompanyContext.description cc))
                  "Company description is required" errors in
  let errors := append_if (empty_list (CompanyContext.values cc))
                  "Company values are required" errors in
  let errors := append_if (empty_list (CompanyContext.target_audience cc))
                  "Target audience is required" errors in
  let errors := append_if (empty_str (CompanyContext.industry cc))
                  "Industry is required" errors in
  let errors := append_if (empty_str (BrandHero.name bh))
                  "Brand hero name is required" errors in
  let errors := append_if (empty_str (BrandHero.appearance bh))
                  "Brand hero appearance is required" errors in
  let errors := append_if (empty_str (BrandHero.personality bh))
                  "Brand hero personality is required" errors in
  let errors := append_if (empty_str (BrandHero.backstory bh))
                  "Brand hero backstory is required" errors in
  let errors := append_if (empty_list (BrandHero.values bh))
                  "Brand hero values are required" errors in
  let warnings :=
    append_if (n <? Settings.min_proposals settings)
      ("Requested " ++ str_int n ++ " proposals, which is below the minimum of "
         ++ str_int (Settings.min_proposals settings) ++ ". "
         ++ "Will use minimum value.")%string warnings in
  let warnings :=
    append_if (n >? Settings.max_proposals settings)
      ("Requested " ++ str_int n ++ " proposals, which is above the maximum of "
         ++ str_int (Settings.max_proposals settings) ++ ". "
         ++ "Will use maximum value.")%string warnings in
  result_of errors warnings.

(** The warnings of the loop over the hashtags of [validate_post_content]. *)
Definition hashtag_warnings (hashtag : string) : list string :=
  let warnings := [] in
  let warnings :=
    append_if (negb (startswith hashtag "#"))
      ("Hashtag '" ++ hashtag ++ "' does not start with #. "
         ++ "Will add # prefix.")%string warnings in
  let warnings :=
    append_if (re_search (re_not_in helpers.hashtag_char) hashtag)
      ("Hashtag '" ++ hashtag ++ "' contains invalid characters. "
         ++ "Will remove invalid characters.")%string warnings in
  warnings.

(** [validate_post_content]. *)
Definition validate_post_content (content : PostContent.t) : t :=
  let text := PostContent.text content in
  let hashtags := PostContent.hashtags content in
  let errors := [] in
  let warnings := [] in
  let errors := append_if (empty_str text) "Post text is required" errors in
  let warnings :=
    append_if (len text >? 280)
      ("Post text is too long (" ++ str_int (len text) ++ " characters). "
         ++ "Will be truncated to 280 characters.")%string warnings in
  let warnings :=
    append_if (empty_list hashtags)
      "Post has no hashtags. Will add default hashtag." warnings in
  let warnings :=
    append_if (negb (empty_list hashtags) && (Z.of_nat (List.length hashtags) >? 5))
      ("Post has too many hashtags (" ++ str_int (Z.of_nat (List.length hashtags))
         ++ "). " ++ "Will limit to 5.")%string warnings in
  let warnings := warnings ++ flat_map hashtag_warnings hashtags in
  result_of errors warnings.

(** [validate_post_image]. *)
Definition validate_post_image (image : PostImage.t) : t :=
  let errors := [] in
  let warnings := [] in
  let errors := append_if (empty_str (PostImage.image_url image))
                  "Image URL is required" errors in
  let warnings := append_if (empty_str (PostImage.description image))
                    "Image has no description" warnings in
  result_of errors warnings.

End validators.

(** ** Search ([app/services/openai_service.py], [app/services/search_service.py]) *)

(** The [i]-th simulated result of [OpenAIService.search]. *)
Definition search_result (query : string) (i : Z) : dict string :=
  [("title", ("Search result for " ++ query ++ " - " ++ str_int i)%string);
   ("url", ("https://example.com/result-" ++ str_int i)%string);
   ("snippet", ("This is a simulated search result for " ++ query ++ ".")%string)].

(** [OpenAIService.search]: the results are made up on the spot, the client
    is not called. *)
Definition OpenAIService_search (query : string) (max_results : Z)
  : Coro (list (dict string)) :=
  ctry
    (let results := map (search_result query) (py_range 1 (max_results + 1) 1) in
     Ret results)
    (fun e => Raise e).

Module SearchService.

(** The attribute [max_results] the constructor reads from
    [settings.max_search_results] (5 unless configured). *)
Record t : Type := { max_results : Z }.

(** [SearchService.search_trends]. *)
Definition search_trends (self : t) (industry : string) (keywords : list string)
  : Coro (list (dict string)) :=
  ctry
    (let query := (("current trends in " ++ industry ++ " ")
                     ++ String.concat " " keywords)%string in
     results <- OpenAIService_search query (max_results self) ;;
     Ret results)%coro
    (fun e => Raise e).

(** [SearchService.search_competitors]: [if competitors and
    len(competitors) > 0] holds for a non-empty list only. *)
Definition search_competitors (self : t) (company_name industry : string)
    (competitors : option (list string)) : Coro (list (dict string)) :=
  ctry
    (let query :=
       match competitors with
       | Some ((_ :: _) as names) =>
           let competitor_names := String.concat " " names in
           ("latest social media posts from " ++ competitor_names
              ++ " in " ++ industry)%string
       | Some [] | None =>
           ("competitors of " ++ company_name ++ " in " ++ industry
              ++ " social media posts")%string
       end in
     results <- OpenAIService_search query (max_results self) ;;
     Ret results)%coro
    (fun e => Raise e).

End SearchService.

(** A [Dict[str, Any]] a tool function returns is kept as the [json] value of
    the same shape. *)
Definition json_of_dict (d : dict string) : json :=
  JObject (map (fun entry => (fst entry, JString (snd entry))) d).

Definition json_of_optional (s : option string) : json :=
  match s with Some s => JString s | None => JNull end.

(** ** The tool functions of the agents *)

Module ResearchAgent.

(** [ResearchAgent._search_trends_tool]. *)
Definition _search_trends_tool (search_service : SearchService.t)
    (industry : string) (keywords : list string) : Coro json :=
  ctry
    (trend_results <- SearchService.search_trends search_service industry keywords ;;
     Ret (JObject [("results", JArray (map json_of_dict trend_results));
                   ("source", JString "trend_research")]))%coro
    (fun e => Ret (JObject [("error", JString (exn_str e));
                            ("source", JString "trend_research")])).

(** [ResearchAgent._search_competitors_tool]. *)
Definition _search_competitors_tool (search_service : SearchService.t)
    (company_name industry : string) (competitors : option (list string))
  : Coro json :=
  ctry
    (competitor_results <- SearchService.search_competitors search_service
                             company_name industry competitors ;;
     Ret (JObject [("results", JArray (map json_of_dict competitor_results));
                   ("source", JString "competitor_research")]))%coro
    (fun e => Ret (JObject [("error", JString (exn_str e));
                            ("source", JString "competitor_research")])).

End ResearchAgent.

Module ImageAgent.

(** [ImageAgent._generate_scene_description_tool]; [post_hashtags or []]. *)
Definition _generate_scene_description_tool
    (brand_hero_name brand_hero_appearance brand_hero_personality post_text : string)
    (post_hashtags : option (list string)) : Coro json :=
  ctry
    (let brand_hero :=
       {| BrandHero.name := brand_hero_name;
          BrandHero.appearance := brand_hero_appearance;
          BrandHero.personality := brand_hero_personality;
          BrandHero.backstory := "";
          BrandHero.values := [];
          BrandHero.tone_of_voice := "" |} in
     let post_content :=
       {| PostContent.text := post_text;
          PostContent.hashtags :=
            match post_hashtags with
            | Some ((_ :: _) as hashtags) => hashtags
            | Some [] | None => []
            end;
          PostContent.call_to_action := None |} in
     scene_description <- generate_scene_description brand_hero post_content ;;
     Ret (JObject [("scene_description", json_of_optional scene_description)]))%coro
    (fun e =>
       Ret (JObject [("error", JString (exn_str e));
                     ("scene_description",
                      JString ("A professional image of " ++ brand_hero_name
                                 ++ " related to " ++ post_text)%string)])).

(** [ImageAgent._generate_image_tool]. *)
Definition _generate_image_tool
    (scene_description brand_hero_name brand_hero_appearance : string) : Coro json :=
  ctry
    (let brand_hero :=
       {| BrandHero.name := brand_hero_name;
          BrandHero.appearance := brand_hero_appearance;
          BrandHero.personality := "";
          BrandHero.backstory := "";
          BrandHero.values := [];
          BrandHero.tone_of_voice := "" |} in
     let post_content :=
       {| PostContent.text := scene_description;
          PostContent.hashtags := [];
          PostContent.call_to_action := None |} in
     image_result <- generate_brand_hero_image brand_hero post_content
                       (Some scene_description) ;;
     Ret (JObject [("image_url", json_of_optional (ir_image_url image_result));
                   ("description", JString (ir_description image_result));
                   ("prompt_used", JString (ir_prompt_used image_result))]))%coro
    (fun e =>
       Ret (JObject [("error", JString (exn_str e));
                     ("image_url",
                      JString "https://via.placeholder.com/1024x1024?text=Image+Generation+Error");
                     ("description", JString "Error generating image")])).

End ImageAgent.

Module OrchestratorAgent.

(** [OrchestratorAgent._research_context_tool]. *)
Definition _research_context_tool (lib : Library)
    (company_name company_description industry : string)
    (include_trends include_competitors : bool) : Coro json :=
  ctry
    (let company_context :=
       {| CompanyContext.name := company_name;
          CompanyContext.description := company_description;
          CompanyContext.values := ["value1"; "value2"];
          CompanyContext.target_audience := ["audience1"; "audience2"];
          CompanyContext.tone_of_voice := "professional";
          CompanyContext.industry := industry;
          CompanyContext.additional_info := None |} in
     context_report <- generate_context_report lib company_context
                         include_trends include_competitors ;;
     Ret context_report)%coro
    (fun e =>
       Ret (JObject
              [("error", JString (exn_str e));
               ("company_analysis",
                JObject [("analysis", JString "Error analyzing company context");
                         ("source", JString "company_context")]);
               ("trends", JNull);
               ("competitors", JNull);
               ("insights",
                JObject [("insights", JString "Error generating insights");
                         ("source", JString "research_synthesis")])])).

End OrchestratorAgent.

(** ** Server-sent events ([app/utils/streaming.py]) *)

(** An event line, [data: <json>] followed by an empty line, kept as what it
    encodes: the dictionary it was made from, or the error message that
    replaces a dictionary on which [json.dumps] raised. *)
Inductive sse_event : Type :=
| SseData (data : pyobj)
| SseError (error : string).

(** [format_sse_event]. *)
Definition format_sse_event (data : pyobj) : Coro sse_event :=
  ctry
    (json_data <- of_result (json_dumps data) ;;
     Ret (SseData json_data))%coro
    (fun e => Ret (SseError (exn_str e))).

(** [asyncio.sleep(delay)] suspends the caller and returns [None]; it makes
    no external call, and the clock of the model counts the ticks of external
    calls only. *)
Definition asyncio_sleep (delay : Q) : Coro unit := Ret tt.

(** [async for y in g: body], when the body updates a local variable of the
    consumer. *)
Fixpoint for_each_with {Y Y' R S : Type} (g : Prog Y R) (local : S)
    (body : S -> Y -> Prog Y' S) : Prog Y' (S * R) :=
  match g with
  | PRet r => PRet (local, r)
  | PRaise e => PRaise e
  | PYield y k => pbind (body local y) (fun local => for_each_with k local body)
  | PAwait c k => PAwait c (fun r => for_each_with (k r) local body)
  | PGather tasks k => PGather tasks (fun r => for_each_with (k r) local body)
  end.

(** [stream_generator]. *)
Definition stream_generator (generator : Prog PostResponse.t unit)
    (delay : Q) : Prog sse_event unit :=
  ptry
    (event <- await (format_sse_event (StreamResponse.dict started_response)) ;;
     yield event ;;
     let count := 0 in
     looped <- for_each_with generator count (fun count post =>
                 let count := count + 1 in
                 await (asyncio_sleep delay) ;;
                 event <- await (format_sse_event
                                   (StreamResponse.dict (in_progress_response post))) ;;
                 yield event ;;
                 PRet count) ;;
     let count := fst looped in
     event <- await (format_sse_event
                       (StreamResponse.dict (completed_response count))) ;;
     yield event)%prog
    (fun e =>
       (event <- await (format_sse_event (StreamResponse.dict (error_response e))) ;;
        yield event)%prog).

(** ** Concrete inputs, libraries and worlds *)

Module Sample.

Definition hero : BrandHero.t :=
  {| BrandHero.name := "Eko";
     BrandHero.appearance := "a green owl";
     BrandHero.personality := "curious";
     BrandHero.backstory := "Born in a forest.";
     BrandHero.values := ["nature"];
     BrandHero.tone_of_voice := "warm" |}.

Definition company : CompanyContext.t :=
  {| CompanyContext.name := "EcoTech";
     CompanyContext.description := "Green technology";
     CompanyContext.values := ["sustainability"];
     CompanyContext.target_audience := ["families"];
     CompanyContext.tone_of_voice := "friendly";
     CompanyContext.industry := "energy";
     CompanyContext.additional_info := None |}.

Definition request (n : Z) : PostGenerationRequest.t :=
  {| PostGenerationRequest.company_context := company;
     PostGenerationRequest.brand_hero := hero;
     PostGenerationRequest.num_proposals := n;
     PostGenerationRequest.include_trends := true;
     PostGenerationRequest.include_competitors := true |}.

Definition content (text : string) (hashtags : list string) : PostContent.t :=
  {| PostContent.text := text;
     PostContent.hashtags := hashtags;
     PostContent.call_to_action := None |}.

Definition post (text : string) (hashtags : list string) : PostResponse.t :=
  {| PostResponse.id := "post-1";
     PostResponse.content := content text hashtags;
     PostResponse.image := None;
     PostResponse.inspiration := None;
     PostResponse.created_at := 0 |}.

Fixpoint strings_of (items : list json) : option (list string) :=
  match items with
  | [] => Some []
  | JString s :: rest =>
      match strings_of rest with Some l => Some (s :: l) | None => None end
  | _ :: _ => None
  end.

Definition not_json : exn :=
  {| exn_type := JSONDecodeError;
     exn_str := "Expecting value: line 1 column 1 (char 0)" |}.

Definition too_many_digits : exn :=
  {| exn_type := ValueError;
     exn_str := "Exceeds the limit (4300 digits) for integer string conversion" |}.

(** A library that parses the two shortest JSON documents, gives up on
    ["huge"] as [json.loads] does on an integer of 5000 digits, and validates
    strictly. *)
Definition lib : Library :=
  {| json_loads := fun s =>
       if String.eqb s "{}" then Returned (JObject [])
       else if String.eqb s "[]" then Returned (JArray [])
       else if String.eqb s "huge" then Raised too_many_digits
       else Raised not_json;
     PostContent_validate := fun text hashtags call_to_action =>
       match text, hashtags, call_to_action with
       | JString t, JArray items, JNull =>
           match strings_of items with
           | Some h => inr (content t h)
           | None => inl "hashtags: Input should be a valid string"
           end
       | _, _, _ => inl "Input should be a valid string"
       end;
     ValidationError_str := fun model field msg input =>
       ("1 validation error for " ++ model ++ nl ++ field ++ nl
          ++ "  Value error, " ++ msg ++ " [type=value_error, input_value="
          ++ input ++ ", input_type=int]")%string |}.

(** A company whose additional information holds a date. *)
Definition company_with_date : CompanyContext.t :=
  {| CompanyContext.name := "EcoTech";
     CompanyContext.description := "Green technology";
     CompanyContext.values := ["sustainability"];
     CompanyContext.target_audience := ["families"];
     CompanyContext.tone_of_voice := "friendly";
     CompanyContext.industry := "energy";
     CompanyContext.additional_info := Some [("founded", PyDatetime 0)] |}.

Definition service_down : exn :=
  {| exn_type := ServiceError; exn_str := "service unavailable" |}.

(** A world in which every generation call answers [reply], the text call
    answers one choice, the image call a locator, and every call takes
    [ticks c] ticks. *)
Definition world (reply : string) (ticks : call -> time) : World :=
  {| answer := fun c _ =>
       match c return ans c with
       | generate_response _ _ _ => Returned reply
       | generate_text _ _ _ => Returned [Some "An owl on a solar panel"]
       | openai_generate_image _ _ => Returned (Some "https://images.example/1.png")
       | uuid4 => "00000000-0000-4000-8000-000000000000"
       | datetime_now => 0
       | OrchestratorAgent_init => Returned tt
       end;
     latency := fun c _ => ticks c |}.

(** A world in which every call to an external service raises. *)
Definition world_down : World :=
  {| answer := fun c _ =>
       match c return ans c with
       | generate_response _ _ _ => Raised service_down
       | generate_text _ _ _ => Raised service_down
       | openai_generate_image _ _ => Raised service_down
       | uuid4 => "00000000-0000-4000-8000-000000000000"
       | datetime_now => 0
       | OrchestratorAgent_init => Returned tt
       end;
     latency := fun _ _ => 1%nat |}.

(** A world in which only the text call of the scene description raises. *)
Definition world_scene_down : World :=
  {| answer := fun c _ =>
       match c return ans c with
       | generate_response _ _ _ => Returned "{}"
       | generate_text _ _ _ => Raised service_down
       | openai_generate_image _ _ => Returned (Some "https://images.example/1.png")
       | uuid4 => "00000000-0000-4000-8000-000000000000"
       | datetime_now => 0
       | OrchestratorAgent_init => Returned tt
       end;
     latency := fun _ _ => 1%nat |}.

(** A world in which the image call answers no locator. *)
Definition world_no_locator : World :=
  {| answer := fun c _ =>
       match c return ans c with
       | generate_response _ _ _ => Returned "{}"
       | generate_text _ _ _ => Returned [Some "An owl on a solar panel"]
       | openai_generate_image _ _ => Returned None
       | uuid4 => "00000000-0000-4000-8000-000000000000"
       | datetime_now => 0
       | OrchestratorAgent_init => Returned tt
       end;
     latency := fun _ _ => 1%nat |}.

(** A world in which the agents cannot be constructed. *)
Definition world_without_agents : World :=
  {| answer := fun c _ =>
       match c return ans c with
       | generate_response _ _ _ => Returned "{}"
       | generate_text _ _ _ => Returned [Some "An owl on a solar panel"]
       | openai_generate_image _ _ => Returned (Some "https://images.example/1.png")
       | uuid4 => "00000000-0000-4000-8000-000000000000"
       | datetime_now => 0
       | OrchestratorAgent_init => Raised service_down
       end;
     latency := fun _ _ => 1%nat |}.

End Sample.

(** ** Notions the properties are stated with *)

(** The proposals the guardrail has nothing to do on. *)
Definition compliant (post : PostResponse.t) : Prop :=
  len (PostContent.text (PostResponse.content post)) <= 280 /\
  1 <= Z.of_nat (List.length (PostContent.hashtags (PostResponse.content post))) <= 5.

(** The report an unparseable response is wrapped into, as the
    specification names its members. *)
Definition wraps_with_parse_error : Prop :=
  forall (lib : Library) (w : World) (h : log) (t : time) (cc : CompanyContext.t)
         (trends competitors : bool) (response : string),
    answer w (generate_response "ResearchAgent"
                (ResearchPrompt cc trends competitors) (5 # 10)) h = Returned response ->
    (exists e, json_loads lib response = Raised e /\ is_JSONDecodeError e = true) ->
    exists members marker,
      snd (run_coro w h t (generate_context_report lib cc trends competitors)) =
        Returned (JObject members) /\
      dict_get members "raw_response" = Some (JString response) /\
      dict_get members "parse_error" = Some marker.

(** The specification's reading of when the report is fatal: it raises only
    when its generation call raised. *)
Definition raises_only_when_the_call_fails : Prop :=
  forall (lib : Library) (w : World) (h : log) (t : time) (cc : CompanyContext.t)
         (trends competitors : bool) (e : exn),
    snd (run_coro w h t (generate_context_report lib cc trends competitors)) = Raised e ->
    answer w (generate_response "ResearchAgent"
                (ResearchPrompt cc trends competitors) (5 # 10)) h = Raised e.

(** The generation call of the context report. *)
Definition research_call (cc : CompanyContext.t) (trends competitors : bool) : call :=
  generate_response "ResearchAgent" (ResearchPrompt cc trends competitors) (5 # 10).

(** What the report is for an answer of the generation call: the call's
    exception; the parsed response; the wrapped response when [json.loads]
    raised [JSONDecodeError]; any other exception of [json.loads]. *)
Definition report_of (lib : Library) (a : result string) : result json :=
  match a with
  | Raised e => Raised e
  | Returned response =>
      match json_loads lib response with
      | Returned report => Returned report
      | Raised e =>
          if is_JSONDecodeError e
          then Returned (JObject [("raw_response", JString response);
                                  ("error", JString "Failed to parse JSON response")])
          else Raised e
      end
  end.

(** What [generate_scene_description] returns for an answer of the text
    call: the content of the first choice, and the fixed description when the
    call raised or answered no choice. *)
Definition scene_description_of (brand_hero : BrandHero.t)
    (post_content : PostContent.t) (a : result (list (option string)))
  : option string :=
  match a with
  | Returned (scene_description :: _) => scene_description
  | Returned [] | Raised _ =>
      Some ("A professional image of " ++ BrandHero.name brand_hero
              ++ " related to " ++ PostContent.text post_content)%string
  end.

(** What [generate_image] returns for a scene description and an answer of
    the image call. *)
Definition post_image_of (brand_hero : BrandHero.t) (post_content : PostContent.t)
    (scene_description : option string) (a : result (option string)) : PostImage.t :=
  match a with
  | Returned (Some url) =>
      {| PostImage.image_url := url;
         PostImage.description := scene_prompt post_content scene_description;
         PostImage.prompt_used :=
           Some (final_prompt brand_hero post_content scene_description) |}
  | Returned None | Raised _ => placeholder_image
  end.

(** The calls of a log that raised. *)
Definition failed_calls (d : log) : list call :=
  flat_map (fun ev => match ev with
                      | EvCall c _ _ true => [c]
                      | _ => []
                      end) d.

(** The specification's reading of [generate_image]: it returns, and what
    it returns is the placeholder as soon as one of the calls it made
    raised. *)
Definition any_failed_call_gives_placeholder : Prop :=
  forall (w : World) (h : log) (t : time) (brand_hero : BrandHero.t)
         (post_content : PostContent.t),
    exists d t' image,
      run_coro w h t (generate_image brand_hero post_content) =
        (h ++ d, t', Returned image) /\
      (failed_calls d <> [] -> image = placeholder_image).

(** The content a parsed response gives: the three [get]s and the pydantic
    constructor, with the exception they raise when the response is not an
    object or has values of the wrong types. *)
Definition content_of_json (lib : Library) (content_json : json) : result PostContent.t :=
  match py_get content_json "text" (JString "") with
  | Raised e => Raised e
  | Returned text =>
      match py_get content_json "hashtags" (JArray []) with
      | Raised e => Raised e
      | Returned hashtags =>
          match py_get content_json "call_to_action" JNull with
          | Raised e => Raised e
          | Returned call_to_action =>
              match PostContent_validate lib text hashtags call_to_action with
              | inr c => Returned c
              | inl msg => Raised {| exn_type := ValidationError; exn_str := msg |}
              end
          end
      end
  end.

Definition fallback_content (proposal_num : Z) : PostContent.t :=
  {| PostContent.text := ("Post proposal #" ++ str_int proposal_num)%string;
     PostContent.hashtags := ["#fallback"];
     PostContent.call_to_action := None |}.

Definition error_content (proposal_num : Z) : PostContent.t :=
  {| PostContent.text :=
       ("Error generating post content for proposal #" ++ str_int proposal_num)%string;
     PostContent.hashtags := ["#error"];
     PostContent.call_to_action := None |}.

(** The content of proposal [proposal_num] for an answer of its generation
    call, or the exception that reaches the outer handler of the task. *)
Definition proposal_content (lib : Library) (proposal_num : Z) (a : result string)
  : result PostContent.t :=
  match a with
  | Raised e => Raised e
  | Returned response =>
      match json_loads lib response with
      | Raised e =>
          if is_JSONDecodeError e then Returned (fallback_content proposal_num)
          else Raised e
      | Returned content_json => content_of_json lib content_json
      end
  end.

(** The proposal the task returns for that answer, a fresh identifier and a
    creation time. *)
Definition proposal_of (lib : Library) (content_brief : string) (proposal_num : Z)
    (a : result string) (id : string) (created_at : Z) : PostResponse.t :=
  match proposal_content lib proposal_num a with
  | Returned post_content =>
      {| PostResponse.id := id;
         PostResponse.content := post_content;
         PostResponse.image := None;
         PostResponse.inspiration := Some
           [("source", ("Proposal " ++ str_int proposal_num)%string);
            ("brief_excerpt",
             if len content_brief >? 100
             then (str_prefix 100 content_brief ++ "...")%string
             else content_brief)];
         PostResponse.created_at := created_at |}
  | Raised e =>
      {| PostResponse.id := id;
         PostResponse.content := error_content proposal_num;
         PostResponse.image := None;
         PostResponse.inspiration := Some
           [("source", ("Error in proposal " ++ str_int proposal_num)%string);
            ("error", exn_str e)];
         PostResponse.created_at := created_at |}
  end.

(** The calls to the generation services. *)
Definition is_generation (c : call) : bool :=
  match c with
  | generate_response _ _ _ | generate_text _ _ _ | openai_generate_image _ _ => true
  | uuid4 | datetime_now | OrchestratorAgent_init => false
  end.

(** The generation calls of the log that are outstanding at the instant
    [tau]: issued, and not answered yet. *)
Definition in_flight (tau : time) (ev : event) : bool :=
  match ev with
  | EvCall c t_start t_end _ =>
      is_generation c && (t_start <=? tau)%nat && (tau <? t_end)%nat
  | _ => false
  end.

Definition outstanding (d : log) (tau : time) : nat :=
  List.length (filter (in_flight tau) d).

(** Every instant of the event lies between [lo] and [hi]. *)
Definition event_within (lo hi : time) (ev : event) : Prop :=
  match ev with
  | EvCall _ t_start t_end _ => (lo <= t_start /\ t_start <= t_end /\ t_end <= hi)%nat
  | EvSpawn _ t => (lo <= t /\ t <= hi)%nat
  | EvSettle _ t => (lo <= t /\ t <= hi)%nat
  end.

(** The tasks dispatched and the tasks settled, in the order of the log,
    with their instants. *)
Definition spawns (d : log) : list (Z * time) :=
  flat_map (fun ev => match ev with EvSpawn task t => [(task, t)] | _ => [] end) d.

Definition settles (d : log) : list (Z * time) :=
  flat_map (fun ev => match ev with EvSettle task t => [(task, t)] | _ => [] end) d.

(** The number of batches: [len(range(0, n, 3))]. *)
Definition batch_count (n : Z) : nat := Z.to_nat ((n + 3 - 1) / 3).

(** The proposal numbers of the batch that starts at [batch_start]. *)
Definition batch_numbers (n batch_start : Z) : list Z :=
  map (fun i => i + 1) (py_range batch_start (Z.min (batch_start + 3) n) 1).

(** The batches of a request for [n] proposals, in the order they run. *)
Definition batches (n : Z) : list (list Z) :=
  map (batch_numbers n) (py_range 0 n 3).

(** A postcondition for a run: [Q] when it returns, [Qe] when it raises. *)
Definition post_run {Y R : Type} (x : state Y * result R)
    (Q : state Y -> R -> Prop) (Qe : state Y -> exn -> Prop) : Prop :=
  match x with
  | (s, Returned a) => Q s a
  | (s, Raised e) => Qe s e
  end.

(** The loop of [generate_post_proposals] with the consumer's body in the
    place of the [yield]. *)
Definition proposals_loop {Y : Type} (lib : Library) (content_brief : string)
    (brand_hero : BrandHero.t) (num_proposals : Z)
    (body : PostResponse.t -> Prog Y unit) : Prog Y unit :=
  for_in (py_range 0 num_proposals 3) (fun batch_start =>
    batch_results <- gather (batch_tasks lib content_brief brand_hero
                               num_proposals 3 batch_start) ;;
    for_in batch_results body)%prog.

(** The generation call of proposal [proposal_num]. *)
Definition post_call (content_brief : string) (brand_hero : BrandHero.t)
    (proposal_num : Z) : call :=
  generate_response "ContentAgent"
    (PostPrompt content_brief brand_hero proposal_num) (8 # 10).

(** [post] is what the task of proposal [proposal_num] returned: the log [h]
    has the dispatch of that task, followed at once by its generation call,
    and [post] is [proposal_of] the answer the world gave to that call. *)
Definition produced (w : World) (lib : Library) (content_brief : string)
    (brand_hero : BrandHero.t) (h : log) (proposal_num : Z) (post : PostResponse.t)
  : Prop :=
  exists before after t0 t1 id created_at,
    let c := post_call content_brief brand_hero proposal_num in
    let a := answer w c (before ++ [EvSpawn proposal_num t0]) in
    h = before ++ EvSpawn proposal_num t0 :: EvCall c t0 t1 (is_raised a) :: after /\
    post = proposal_of lib content_brief proposal_num a id created_at.

(** The state a batch leaves: the log of its tasks, at the instant the last
    of them settled. *)
Definition after_batch {Y : Type} (w : World) (lib : Library) (content_brief : string)
    (brand_hero : BrandHero.t) (num_proposals batch_start : Z) (s : state Y)
  : state Y :=
  let '(h, rs) := run_tasks w (now s) (hist s)
                    (batch_tasks lib content_brief brand_hero num_proposals 3
                       batch_start) in
  {| hist := h; now := latest (now s) rs; out := out s |}.

(** The generation call of the content brief. *)
Definition brief_call (context_report : json) (brand_hero : BrandHero.t) : call :=
  generate_response "ContentAgent" (BriefPrompt context_report brand_hero) (7 # 10).

(** The batch a proposal belongs to, counting from 0. *)
Definition batch_of (proposal_num : Z) : Z := (proposal_num - 1) / 3.

(** The tasks of one batch are dispatched at the same instant. *)
Definition dispatched_together (d : log) : Prop :=
  forall num tau num' tau',
    In (num, tau) (spawns d) -> In (num', tau') (spawns d) ->
    batch_of num = batch_of num' -> tau = tau'.

(** No task of a batch settles before every task of the batch is
    dispatched. *)
Definition dispatched_before_awaited (d : log) : Prop :=
  forall num tau num' tau',
    In (num, tau) (spawns d) -> In (num', tau') (settles d) ->
    batch_of num = batch_of num' -> (tau <= tau')%nat.

(** No task of a later batch is dispatched before every task of an earlier
    batch has settled. *)
Definition batches_sequential (d : log) : Prop :=
  forall num tau num' tau',
    In (num, tau) (settles d) -> In (num', tau') (spawns d) ->
    batch_of num < batch_of num' -> (tau <= tau')%nat.

(** What the log of the first [j] batches of [n] proposals looks like, when
    they started at [t_lo] and the clock is at [t_hi]. *)
Definition batch_facts (n : Z) (j : nat) (t_lo t_hi : time) (d : log) : Prop :=
  (t_lo <= t_hi)%nat /\
  Forall (event_within t_lo t_hi) d /\
  (forall tau, outstanding d tau <= 3)%nat /\
  map fst (spawns d) =
    List.concat (map (fun k => batch_numbers n (Z.of_nat k * 3)) (seq 0 j)) /\
  map fst (settles d) = map fst (spawns d) /\
  (forall num tau, In (num, tau) (spawns d) \/ In (num, tau) (settles d) ->
                   batch_of num < Z.of_nat j) /\
  dispatched_together d /\ dispatched_before_awaited d /\ batches_sequential d.

(** [process_request] with the consumer's body in the place of its
    [yield]: the request guardrail, the context report, the content brief,
    then the loop over the batches. *)
Definition pipeline {Y : Type} (lib : Library) (settings : Settings.t)
    (request : PostGenerationRequest.t) (body : PostResponse.t -> Prog Y unit)
  : Prog Y PostGenerationRequest.t :=
  let validated_request := _apply_request_guardrails settings request in
  (context_report <- await (generate_context_report lib
                              (PostGenerationRequest.company_context validated_request)
                              (PostGenerationRequest.include_trends validated_request)
                              (PostGenerationRequest.include_competitors validated_request)) ;;
   content_brief <- await (_create_content_brief context_report
                             (PostGenerationRequest.brand_hero validated_request)) ;;
   proposals_loop lib content_brief
     (PostGenerationRequest.brand_hero validated_request)
     (PostGenerationRequest.num_proposals validated_request) body ;;
   PRet validated_request)%prog.

(** The calls of image synthesis: the generation call of the image agent,
    the text call of the scene description and the image call. *)
Definition is_image_stage (c : call) : bool :=
  match c with
  | generate_response _ (ImagePrompt _ _) _ => true
  | generate_text _ _ _ => true
  | openai_generate_image _ _ => true
  | _ => false
  end.

(** The image synthesis calls of a log, each with the instant it was issued
    and the instant it answered, in the order of the log. *)
Definition image_calls (d : log) : list (time * time) :=
  flat_map (fun ev => match ev with
                      | EvCall c t_start t_end _ =>
                          if is_image_stage c then [(t_start, t_end)] else []
                      | _ => []
                      end) d.

(** The calls follow one another between [lo] and [hi]: none is issued
    before [lo] or before the previous one answered, and the last one has
    answered at [hi]. *)
Fixpoint in_order (lo : time) (calls : list (time * time)) (hi : time) : Prop :=
  match calls with
  | [] => (lo <= hi)%nat
  | (t_start, t_end) :: rest =>
      (lo <= t_start)%nat /\ (t_start <= t_end)%nat /\ in_order t_end rest hi
  end.

(** Proposals are processed one at a time from the instant [t0]: the image
    synthesis calls split into one non-empty run per emission, and the run of
    a proposal lies between the emission of the previous proposal and its own
    emission. The last index is the instant of the last emission. *)
Inductive processed (t0 : time) : list (time * time) -> list time -> time -> Prop :=
| processed_none : processed t0 [] [] t0
| processed_next (calls : list (time * time)) (emissions : list time) (last : time)
    (synthesis : list (time * time)) (emission : time) :
    processed t0 calls emissions last ->
    synthesis <> [] ->
    in_order last synthesis emission ->
    processed t0 (calls ++ synthesis) (emissions ++ [emission]) emission.

(** The generation calls of the image agent for the proposals whose text is
    [text]. *)
Definition image_agent_call_for (text : string) (c : call) : bool :=
  match c with
  | generate_response _ (ImagePrompt _ post_content) _ =>
      String.eqb (PostContent.text post_content) text
  | _ => false
  end.

(** The text the post guardrail leaves of [text]. *)
Definition truncated (text : string) : string :=
  if len text >? 280 then (str_prefix 277 text ++ "...")%string else text.

(** The proposals a request emits, with the instants of emission. *)
Definition emissions (lib : Library) (settings : Settings.t) (w : World)
    (request : PostGenerationRequest.t) : list (time * PostResponse.t) :=
  out (fst (run w start (process_request lib settings request))).

(** The specification's reading of the streaming phase: how long the image
    agent takes for the proposals with one text has no effect on the instant
    at which a proposal with another text is emitted. *)
Definition image_synthesis_delays_no_other_proposal : Prop :=
  forall (lib : Library) (settings : Settings.t) (request : PostGenerationRequest.t)
         (w w' : World) (text : string) (j : nat)
         (tau tau' : time) (post post' : PostResponse.t),
    (forall c h, answer w' c h = answer w c h) ->
    (forall c h, image_agent_call_for text c = false -> latency w' c h = latency w c h) ->
    nth_error (emissions lib settings w request) j = Some (tau, post) ->
    nth_error (emissions lib settings w' request) j = Some (tau', post') ->
    PostContent.text (PostResponse.content post) <> truncated text ->
    tau' = tau.

(** A world in which nothing takes time, and the same world when the image
    agent takes 100 ticks for the first proposal. *)
Definition world_instant : World := Sample.world "not json" (fun _ => 0%nat).

Definition world_slow_first_image : World :=
  Sample.world "not json"
    (fun c => if image_agent_call_for "Post proposal #1" c then 100%nat else 0%nat).

(** The exception of [json.dumps] on a [datetime]. *)
Definition datetime_error : exn :=
  {| exn_type := TypeError;
     exn_str := "Object of type datetime is not JSON serializable" |}.

(** What the route does with a proposal of the orchestrator, once the
    image is there: the body of its [async for]. *)
Definition stream_proposal (brand_hero : BrandHero.t)
    (post_proposal : PostResponse.t) : Prog json_line unit :=
  (post_image <- await (generate_image brand_hero (PostResponse.content post_proposal)) ;;
   line <- dumps (in_progress_response
                    (_apply_post_guardrails
                       (PostResponse.set_image post_proposal (Some post_image)))) ;;
   yield line)%prog.

(** The events of a stream, in the order they were sent. *)
Definition events (sent : list (time * json_line)) : list StreamResponse.t :=
  map (fun x => decoded (snd x)) sent.

(** [image] is what the image service synthesised for [post_content]: the
    log has an image call, asked with the final prompt of some scene
    description, that answered a locator; the image has that locator, the
    scene as its description and the prompt that was used. *)
Definition synthesised (w : World) (h : log) (brand_hero : BrandHero.t)
    (post_content : PostContent.t) (image : PostImage.t) : Prop :=
  exists before after t0 t1 scene_description url,
    let c := openai_generate_image
               (final_prompt brand_hero post_content scene_description) "1024x1024" in
    h = before ++ EvCall c t0 t1 false :: after /\
    answer w c before = Returned (Some url) /\
    image = {| PostImage.image_url := url;
               PostImage.description := scene_prompt post_content scene_description;
               PostImage.prompt_used :=
                 Some (final_prompt brand_hero post_content scene_description) |}.

(** *** For the helpers *)

(** No [<] of the string has a [>] behind it. *)
Fixpoint no_tag (s : string) : bool :=
  match s with
  | EmptyString => true
  | String a rest =>
      (negb (Ascii.eqb a "<") || negb (str_mem ">" rest)) && no_tag rest
  end.

(** How often a word occurs in a list of words. *)
Definition occurrences (words : list string) (word : string) : Z :=
  Z.of_nat (count_occ string_dec words word).

Definition at_least_as_frequent (words : list string) (w1 w2 : string) : Prop :=
  occurrences words w2 <= occurrences words w1.

(** *** For the tools and the event stream *)

(** The characters of a string that belong to a class, in their order. *)
Fixpoint str_filter (keep : ascii -> bool) (s : string) : string :=
  match s with
  | EmptyString => EmptyString
  | String a rest =>
      if keep a then String a (str_filter keep rest) else str_filter keep rest
  end.

(** What a generator yields when it is run on its own from the log [h] at
    the instant [t], and how it ends. *)
Definition alone {Y R : Type} (w : World) (h : log) (t : time) (generator : Prog Y R)
  : state Y * result R :=
  run w {| hist := h; now := t; out := [] |} generator.

(** The simplified brand hero and post content of the image tools. *)
Definition tool_brand_hero (name appearance personality : string) : BrandHero.t :=
  {| BrandHero.name := name;
     BrandHero.appearance := appearance;
     BrandHero.personality := personality;
     BrandHero.backstory := "";
     BrandHero.values := [];
     BrandHero.tone_of_voice := "" |}.

Definition tool_post_content (text : string) (hashtags : list string) : PostContent.t :=
  {| PostContent.text := text;
     PostContent.hashtags := hashtags;
     PostContent.call_to_action := None |}.

(** Whether a dictionary has an entry. *)
Definition has_key (value : json) (key : string) : bool :=
  match value with
  | JObject members =>
      match dict_get members key with Some _ => true | None => false end
  | _ => false
  end.

Definition entry (value : json) (key : string) : option json :=
  match value with
  | JObject members => dict_get members key
  | _ => None
  end.

(** * Properties *)

(** ** How running composes *)

Lemma run_coro_cbind {A B : Type} (w : World) (p : Coro A) (f : A -> Coro B) :
  forall h t,
    run_coro w h t (cbind p f) =
    match run_coro w h t p with
    | (h1, t1, Returned a) => run_coro w h1 t1 (f a)
    | (h1, t1, Raised e) => (h1, t1, Raised e)
    end.
Proof.
  induction p as [a | e | c k IH]; intros h t; simpl; try reflexivity.
  apply IH.
Qed.

Lemma run_coro_ctry {A : Type} (w : World) (p : Coro A) (handler : exn -> Coro A) :
  forall h t,
    run_coro w h t (ctry p handler) =
    match run_coro w h t p with
    | (h1, t1, Returned a) => (h1, t1, Returned a)
    | (h1, t1, Raised e) => run_coro w h1 t1 (handler e)
    end.
Proof.
  induction p as [a | e | c k IH]; intros h t; simpl; try reflexivity.
  apply IH.
Qed.

Lemma run_pbind {Y A B : Type} (w : World) (p : Prog Y A) (f : A -> Prog Y B) :
  forall s,
    run w s (pbind p f) =
    match run w s p with
    | (s1, Returned a) => run w s1 (f a)
    | (s1, Raised e) => (s1, Raised e)
    end.
Proof.
  induction p as [a | e | y k IH | T c k IH | T tasks k IH]; intros s; simpl;
    try reflexivity.
  - apply IH.
  - destruct (run_coro w (hist s) (now s) c) as [[h t] r]. apply IH.
  - destruct (run_tasks w (now s) (hist s) tasks) as [h rs].
    destruct (gather_outcome (now s) rs) as [t r]. apply IH.
Qed.

Lemma run_ptry {Y A : Type} (w : World) (p : Prog Y A) (handler : exn -> Prog Y A) :
  forall s,
    run w s (ptry p handler) =
    match run w s p with
    | (s1, Returned a) => (s1, Returned a)
    | (s1, Raised e) => run w s1 (handler e)
    end.
Proof.
  induction p as [a | e | y k IH | T c k IH | T tasks k IH]; intros s; simpl;
    try reflexivity.
  - apply IH.
  - destruct (run_coro w (hist s) (now s) c) as [[h t] r]. apply IH.
  - destruct (run_tasks w (now s) (hist s) tasks) as [h rs].
    destruct (gather_outcome (now s) rs) as [t r]. apply IH.
Qed.

Lemma run_await {Y T : Type} (w : World) (c : Coro T) (s : state Y) :
  run w s (await c) =
  match run_coro w (hist s) (now s) c with
  | (h, t, r) => ({| hist := h; now := t; out := out s |}, r)
  end.
Proof.
  unfold await. simpl. destruct (run_coro w (hist s) (now s) c) as [[h t] r].
  destruct r; reflexivity.
Qed.

Lemma run_yield {Y : Type} (w : World) (y : Y) (s : state Y) :
  run w s (yield y) =
  ({| hist := hist s; now := now s; out := out s ++ [(now s, y)] |}, Returned tt).
Proof. reflexivity. Qed.

Lemma run_for_in_cons {Y A : Type} (w : World) (x : A) (l : list A)
    (body : A -> Prog Y unit) (s : state Y) :
  run w s (for_in (x :: l) body) =
  match run w s (body x) with
  | (s1, Returned _) => run w s1 (for_in l body)
  | (s1, Raised e) => (s1, Raised e)
  end.
Proof. simpl. apply run_pbind. Qed.

(** ** Laws of the combinators *)

Lemma pbind_ret_unit {Y : Type} (p : Prog Y unit) :
  pbind p (fun _ => PRet tt) = p.
Proof.
  induction p as [a | e | y k IH | T c k IH | T tasks k IH]; simpl.
  - destruct a. reflexivity.
  - reflexivity.
  - rewrite IH. reflexivity.
  - f_equal. apply functional_extensionality. exact IH.
  - f_equal. apply functional_extensionality. exact IH.
Qed.

Lemma pbind_assoc {Y A B C : Type} (p : Prog Y A) (f : A -> Prog Y B)
    (g : B -> Prog Y C) :
  pbind (pbind p f) g = pbind p (fun a => pbind (f a) g).
Proof.
  induction p as [a | e | y k IH | T c k IH | T tasks k IH]; simpl;
    try reflexivity.
  - rewrite IH. reflexivity.
  - f_equal. apply functional_extensionality. exact IH.
  - f_equal. apply functional_extensionality. exact IH.
Qed.

(** A handler that re-raises changes nothing. *)
Lemma ptry_reraise {Y A : Type} (p : Prog Y A) :
  ptry p (fun e => PRaise e) = p.
Proof.
  induction p as [a | e | y k IH | T c k IH | T tasks k IH]; simpl;
    try reflexivity.
  - rewrite IH. reflexivity.
  - f_equal. apply functional_extensionality. exact IH.
  - f_equal. apply functional_extensionality. exact IH.
Qed.

Lemma for_each_pbind {Y Y' A B : Type} (p : Prog Y A) (f : A -> Prog Y B)
    (body : Y -> Prog Y' unit) :
  for_each (pbind p f) body =
  pbind (for_each p body) (fun a => for_each (f a) body).
Proof.
  induction p as [a | e | y k IH | T c k IH | T tasks k IH]; simpl;
    try reflexivity.
  - rewrite IH. rewrite pbind_assoc. reflexivity.
  - f_equal. apply functional_extensionality. exact IH.
  - f_equal. apply functional_extensionality. exact IH.
Qed.

Lemma for_each_await {Y Y' T : Type} (c : Coro T) (body : Y -> Prog Y' unit) :
  for_each (await c) body = await c.
Proof.
  unfold await. simpl. f_equal. apply functional_extensionality.
  intros [a | e]; reflexivity.
Qed.

Lemma for_each_gather {Y Y' T : Type} (tasks : list (Z * Coro T))
    (body : Y -> Prog Y' unit) :
  for_each (gather tasks) body = gather tasks.
Proof.
  unfold gather. simpl. f_equal. apply functional_extensionality.
  intros [a | e]; reflexivity.
Qed.

Lemma for_each_yield {Y Y' : Type} (y : Y) (body : Y -> Prog Y' unit) :
  for_each (yield y) body = body y.
Proof. unfold yield. simpl. apply pbind_ret_unit. Qed.

Lemma for_each_for_in {Y Y' A : Type} (l : list A) (f : A -> Prog Y unit)
    (body : Y -> Prog Y' unit) :
  for_each (for_in l f) body = for_in l (fun x => for_each (f x) body).
Proof.
  induction l as [| x l IH]; simpl; try reflexivity.
  rewrite for_each_pbind. rewrite IH. reflexivity.
Qed.

Lemma for_in_ext {Y A : Type} (l : list A) (f g : A -> Prog Y unit) :
  (forall x, f x = g x) -> for_in l f = for_in l g.
Proof.
  intros H. induction l as [| x l IH]; simpl; try reflexivity.
  rewrite H, IH. reflexivity.
Qed.

(** ** The post guardrail *)

Lemma length_str_prefix (n : nat) (s : string) :
  String.length (str_prefix n s) = Nat.min n (String.length s).
Proof.
  unfold str_prefix. revert s.
  induction n as [| n IH]; intros [| a s]; simpl; try reflexivity.
  rewrite IH. reflexivity.
Qed.

Lemma length_string_app (s1 s2 : string) :
  String.length (s1 ++ s2)%string = (String.length s1 + String.length s2)%nat.
Proof.
  induction s1 as [| a s1 IH]; simpl; try reflexivity.
  rewrite IH. reflexivity.
Qed.

Lemma truncate_text_hashtags (post : PostResponse.t) :
  PostContent.hashtags (PostResponse.content (truncate_text post)) =
  PostContent.hashtags (PostResponse.content post).
Proof.
  unfold truncate_text.
  destruct (len (PostContent.text (PostResponse.content post)) >? 280); reflexivity.
Qed.

Lemma default_hashtag_text (post : PostResponse.t) :
  PostContent.text (PostResponse.content (default_hashtag post)) =
  PostContent.text (PostResponse.content post).
Proof.
  unfold default_hashtag.
  destruct (PostContent.hashtags (PostResponse.content post)); reflexivity.
Qed.

Lemma limit_hashtags_text (post : PostResponse.t) :
  PostContent.text (PostResponse.content (limit_hashtags post)) =
  PostContent.text (PostResponse.content post).
Proof.
  unfold limit_hashtags.
  destruct (Z.of_nat (List.length (PostContent.hashtags (PostResponse.content post))) >? 5);
    reflexivity.
Qed.

Lemma truncate_text_len (post : PostResponse.t) :
  len (PostContent.text (PostResponse.content (truncate_text post))) <= 280.
Proof.
  unfold truncate_text.
  destruct (len (PostContent.text (PostResponse.content post)) >? 280) eqn:E.
  - cbn [PostResponse.content PostResponse.set_content PostContent.text
           PostContent.set_text].
    unfold len in *. rewrite length_string_app, length_str_prefix.
    change (String.length "...") with 3%nat.
    apply Z.gtb_lt in E. lia.
  - rewrite Z.gtb_ltb in E. apply Z.ltb_ge in E. exact E.
Qed.

Lemma default_hashtag_nonempty (post : PostResponse.t) :
  PostContent.hashtags (PostResponse.content (default_hashtag post)) <> [].
Proof.
  unfold default_hashtag.
  destruct (PostContent.hashtags (PostResponse.content post)) eqn:E; simpl.
  - discriminate.
  - rewrite E. discriminate.
Qed.

Lemma limit_hashtags_length (post : PostResponse.t) :
  PostContent.hashtags (PostResponse.content post) <> [] ->
  1 <= Z.of_nat (List.length
                   (PostContent.hashtags (PostResponse.content (limit_hashtags post)))) <= 5.
Proof.
  intros Hne. unfold limit_hashtags.
  destruct (Z.of_nat (List.length (PostContent.hashtags (PostResponse.content post))) >? 5)
    eqn:E.
  - cbn [PostResponse.content PostResponse.set_content PostContent.hashtags
           PostContent.set_hashtags].
    unfold list_prefix. rewrite length_firstn. apply Z.gtb_lt in E. lia.
  - rewrite Z.gtb_ltb in E. apply Z.ltb_ge in E.
    destruct (PostContent.hashtags (PostResponse.content post)); [congruence |].
    simpl List.length in *. lia.
Qed.

Lemma apply_post_guardrails_compliant (post : PostResponse.t) :
  compliant (_apply_post_guardrails post).
Proof.
  unfold compliant, _apply_post_guardrails. split.
  - rewrite limit_hashtags_text, default_hashtag_text. apply truncate_text_len.
  - apply limit_hashtags_length. apply default_hashtag_nonempty.
Qed.

Lemma apply_post_guardrails_image (post : PostResponse.t) :
  PostResponse.image (_apply_post_guardrails post) = PostResponse.image post.
Proof.
  unfold _apply_post_guardrails, limit_hashtags, default_hashtag, truncate_text.
  destruct post as [id [text hashtags cta] image inspiration created]. simpl.
  destruct (len text >? 280); simpl;
    destruct hashtags as [| tag tags]; simpl;
    repeat match goal with
           | |- context [if ?b then _ else _] => destruct b; simpl
           end;
    reflexivity.
Qed.

(** C2. Whatever the proposal, after [_apply_post_guardrails] the text has at
    most 280 characters and there are between 1 and 5 hashtags; the text is
    the first 277 characters followed by three dots when it was longer than
    280 and is untouched otherwise; the hashtags are [#post] when there were
    none, the first five in their order when there were more than five, and
    untouched otherwise; nothing else in the proposal changes. *)
Theorem apply_post_guardrails_bounds (post : PostResponse.t) :
  let text := PostContent.text (PostResponse.content post) in
  let hashtags := PostContent.hashtags (PostResponse.content post) in
  let post' := _apply_post_guardrails post in
  len (PostContent.text (PostResponse.content post')) <= 280 /\
  1 <= Z.of_nat (List.length (PostContent.hashtags (PostResponse.content post'))) <= 5 /\
  PostContent.text (PostResponse.content post') =
    (if len text >? 280 then (str_prefix 277 text ++ "...")%string else text) /\
  PostContent.hashtags (PostResponse.content post') =
    (let hashtags1 := match hashtags with [] => ["#post"] | _ :: _ => hashtags end in
     if Z.of_nat (List.length hashtags1) >? 5 then list_prefix 5 hashtags1 else hashtags1) /\
  PostContent.call_to_action (PostResponse.content post') =
    PostContent.call_to_action (PostResponse.content post) /\
  PostResponse.id post' = PostResponse.id post /\
  PostResponse.image post' = PostResponse.image post /\
  PostResponse.inspiration post' = PostResponse.inspiration post /\
  PostResponse.created_at post' = PostResponse.created_at post.
Proof.
  intros text hashtags post'. subst post'. unfold _apply_post_guardrails.
  split; [| split].
  - rewrite limit_hashtags_text, default_hashtag_text. apply truncate_text_len.
  - apply limit_hashtags_length. apply default_hashtag_nonempty.
  - subst text hashtags.
    unfold limit_hashtags, default_hashtag, truncate_text.
    destruct post as [id [text hashtags cta] image inspiration created]. simpl.
    destruct (len text >? 280); simpl;
      destruct hashtags as [| tag tags]; simpl;
      repeat match goal with
             | |- context [if ?b then _ else _] => destruct b; simpl
             end;
      repeat split; reflexivity.
Qed.

Lemma compliant_fixed_point (post : PostResponse.t) :
  compliant post -> _apply_post_guardrails post = post.
Proof.
  intros [Htext [Hlow Hhigh]].
  unfold _apply_post_guardrails.
  assert (E1 : truncate_text post = post).
  { unfold truncate_text.
    destruct (len (PostContent.text (PostResponse.content post)) >? 280) eqn:E;
      [apply Z.gtb_lt in E; lia | reflexivity]. }
  rewrite E1.
  assert (E2 : default_hashtag post = post).
  { unfold default_hashtag.
    destruct (PostContent.hashtags (PostResponse.content post));
      [simpl in Hlow; lia | reflexivity]. }
  rewrite E2.
  unfold limit_hashtags.
  destruct (Z.of_nat (List.length (PostContent.hashtags (PostResponse.content post))) >? 5)
    eqn:E; [apply Z.gtb_lt in E; lia | reflexivity].
Qed.

(** C8. A proposal whose text has at most 280 characters and that has
    between 1 and 5 hashtags is returned unchanged by
    [_apply_post_guardrails], and applying the guardrail twice to any proposal
    gives what applying it once gives. *)
Theorem apply_post_guardrails_idempotent (post : PostResponse.t) :
  (compliant post -> _apply_post_guardrails post = post) /\
  _apply_post_guardrails (_apply_post_guardrails post) = _apply_post_guardrails post.
Proof.
  split.
  - apply compliant_fixed_point.
  - apply compliant_fixed_point. apply apply_post_guardrails_compliant.
Qed.

Lemma apply_post_guardrails_idempotent_witness :
  compliant (Sample.post "Hello" ["#a"; "#b"]) /\
  _apply_post_guardrails (Sample.post "Hello" ["#a"; "#b"]) =
  Sample.post "Hello" ["#a"; "#b"].
Proof.
  assert (H : compliant (Sample.post "Hello" ["#a"; "#b"])).
  { unfold compliant. simpl. unfold len. simpl. lia. }
  split.
  - exact H.
  - exact (proj1 (apply_post_guardrails_idempotent (Sample.post "Hello" ["#a"; "#b"])) H).
Defined.

(** ** The request guardrail and the request validator *)

Lemma apply_request_guardrails_clamps (settings : Settings.t)
    (request : PostGenerationRequest.t) :
  Settings.min_proposals settings <= Settings.max_proposals settings ->
  Settings.min_proposals settings
    <= PostGenerationRequest.num_proposals (_apply_request_guardrails settings request)
    <= Settings.max_proposals settings.
Proof.
  intros Hle. unfold _apply_request_guardrails.
  destruct (PostGenerationRequest.num_proposals request <? Settings.min_proposals settings)
    eqn:E1; simpl.
  - destruct (Settings.min_proposals settings >? Settings.max_proposals settings) eqn:E2;
      simpl; [apply Z.gtb_lt in E2 |]; lia.
  - apply Z.ltb_ge in E1.
    destruct (PostGenerationRequest.num_proposals request >? Settings.max_proposals settings)
      eqn:E2; simpl.
    + lia.
    + rewrite Z.gtb_ltb in E2. apply Z.ltb_ge in E2. lia.
Qed.

Lemma apply_request_guardrails_in_range (settings : Settings.t)
    (request : PostGenerationRequest.t) :
  Settings.min_proposals settings <= PostGenerationRequest.num_proposals request
    <= Settings.max_proposals settings ->
  _apply_request_guardrails settings request = request.
Proof.
  intros [H1 H2]. unfold _apply_request_guardrails.
  destruct (PostGenerationRequest.num_proposals request <? Settings.min_proposals settings)
    eqn:E1; [apply Z.ltb_lt in E1; lia |].
  destruct (PostGenerationRequest.num_proposals request >? Settings.max_proposals settings)
    eqn:E2; [apply Z.gtb_lt in E2; lia | reflexivity].
Qed.

Lemma validate_num_proposals_accepts (v : Z) :
  PostGenerationRequest.validate_num_proposals v = Returned v <-> 1 <= v <= 20.
Proof.
  unfold PostGenerationRequest.validate_num_proposals.
  destruct (v <? 1) eqn:E1; destruct (v >? 20) eqn:E2; simpl;
    try apply Z.ltb_lt in E1; try apply Z.ltb_ge in E1;
    try apply Z.gtb_lt in E2;
    try (rewrite Z.gtb_ltb in E2; apply Z.ltb_ge in E2);
    split; intros H; try discriminate; try lia; reflexivity.
Qed.

(** C3. A request for 100 proposals never reaches the request guardrail: the
    constructor of [PostGenerationRequest] runs [validate_num_proposals], which
    raises [ValueError] for every count below 1 or above 20, and the
    constructor raises the [ValidationError] pydantic makes of it. *)
Theorem request_for_100_proposals_is_rejected (lib : Library) (cc : CompanyContext.t)
    (bh : BrandHero.t) (trends competitors : bool) :
  PostGenerationRequest.validate_num_proposals 100 =
    Raised {| exn_type := ValueError;
              exn_str := "num_proposals must be between 1 and 20" |} /\
  PostGenerationRequest_new lib cc bh 100 trends competitors =
    Raised {| exn_type := ValidationError;
              exn_str := ValidationError_str lib "PostGenerationRequest" "num_proposals"
                           "num_proposals must be between 1 and 20" "100" |}.
Proof. split; reflexivity. Qed.

(** ** The context report *)

(** Strings have a JSON form, and so have lists of strings and dictionaries
    of strings. *)
Lemma unserializable_strings (l : list string) :
  unserializable (py_strings l) = None.
Proof.
  unfold py_strings. cbn [unserializable].
  induction l as [| x l IH]; [reflexivity | exact IH].
Qed.

Lemma unserializable_string_dict (d : dict string) :
  unserializable (PyDict (map (fun kv => (fst kv, PyStr (snd kv))) d)) = None.
Proof.
  cbn [unserializable].
  induction d as [| [k v] d IH]; [reflexivity | exact IH].
Qed.

Lemma unserializable_dict_cons (key : string) (value : pyobj)
    (members : list (string * pyobj)) :
  unserializable (PyDict ((key, value) :: members)) =
  match unserializable value with
  | Some type_name => Some type_name
  | None => unserializable (PyDict members)
  end.
Proof. reflexivity. Qed.

(** A company context has a JSON form exactly when its additional
    information has one. *)
Lemma unserializable_company_context (cc : CompanyContext.t) :
  unserializable (CompanyContext.dict cc) =
  match CompanyContext.additional_info cc with
  | Some info => unserializable (PyDict info)
  | None => None
  end.
Proof.
  unfold CompanyContext.dict.
  rewrite !unserializable_dict_cons, !unserializable_strings.
  destruct (CompanyContext.additional_info cc) as [info |]; cbn [py_optional].
  - destruct (unserializable (PyDict info)); reflexivity.
  - reflexivity.
Qed.

(** A post has no JSON form: its [created_at] is a [datetime], and nothing
    before it in the dictionary stops [json.dumps] earlier. *)
Lemma unserializable_post (post : PostResponse.t) :
  unserializable (PostResponse.dict post) = Some "datetime".
Proof.
  unfold PostResponse.dict.
  rewrite !unserializable_dict_cons.
  assert (Hcontent : unserializable (PostContent.dict (PostResponse.content post)) = None).
  { unfold PostContent.dict. rewrite !unserializable_dict_cons, unserializable_strings.
    cbn [unserializable]. destruct (PostContent.call_to_action _); reflexivity. }
  assert (Himage : unserializable
                     (py_optional PostImage.dict (PostResponse.image post)) = None).
  { destruct (PostResponse.image post) as [image |]; [| reflexivity].
    cbn [py_optional]. unfold PostImage.dict. rewrite !unserializable_dict_cons.
    cbn [unserializable]. destruct (PostImage.prompt_used image); reflexivity. }
  assert (Hinspiration :
            unserializable
              (py_optional
                 (fun d => PyDict (map (fun kv => (fst kv, PyStr (snd kv))) d))
                 (PostResponse.inspiration post)) = None).
  { destruct (PostResponse.inspiration post) as [d |]; [| reflexivity].
    cbn [py_optional]. apply unserializable_string_dict. }
  rewrite Hcontent, Himage, Hinspiration. reflexivity.
Qed.

Lemma json_dumps_in_progress (post : PostResponse.t) :
  json_dumps (StreamResponse.dict (in_progress_response post)) = Raised datetime_error.
Proof.
  unfold json_dumps, StreamResponse.dict, in_progress_response.
  cbn [StreamResponse.status StreamResponse.message StreamResponse.post
         StreamResponse.error py_optional].
  rewrite !unserializable_dict_cons. cbn [unserializable].
  rewrite unserializable_post. reflexivity.
Qed.

Lemma json_dumps_without_post (r : StreamResponse.t) :
  StreamResponse.post r = None ->
  json_dumps (StreamResponse.dict r) = Returned (StreamResponse.dict r).
Proof.
  intros Hpost. unfold json_dumps, StreamResponse.dict. rewrite Hpost.
  rewrite !unserializable_dict_cons. cbn [unserializable py_optional].
  destruct (StreamResponse.message r), (StreamResponse.error r); reflexivity.
Qed.


(** [generate_context_report] serialises the company context, makes its
    generation call when that went well, and parses the response. *)
Lemma run_generate_context_report (lib : Library) (w : World) (h : log) (t : time)
    (cc : CompanyContext.t) (trends competitors : bool) :
  let c := research_call cc trends competitors in
  let a := answer w c h in
  let t1 := (t + latency w c h)%nat in
  run_coro w h t (generate_context_report lib cc trends competitors) =
  match json_dumps (CompanyContext.dict cc) with
  | Raised e => (h, t, Raised e)
  | Returned _ => (h ++ [EvCall c t t1 (is_raised a)], t1, report_of lib a)
  end.
Proof.
  cbv zeta. unfold generate_context_report. cbv zeta.
  rewrite run_coro_ctry, run_coro_cbind.
  destruct (json_dumps (CompanyContext.dict cc)) as [context_json | e];
    cbn [of_result run_coro]; [| reflexivity].
  unfold BaseAgent_generate_response, ctry_JSONDecodeError, loads, research_call,
    report_of.
  cbn [cbind run_coro].
  set (c := generate_response "ResearchAgent" (ResearchPrompt cc trends competitors) (5 # 10)).
  change (failed c (answer w c h)) with (is_raised (answer w c h)).
  destruct (answer w c h) as [response | e]; cbn [of_result cbind run_coro];
    [| reflexivity].
  destruct (json_loads lib response) as [report | e]; cbn [of_result ctry cbind run_coro];
    [reflexivity |].
  destruct (is_JSONDecodeError e); reflexivity.
Qed.

Lemma json_dumps_outcome (obj : pyobj) :
  (unserializable obj = None /\ json_dumps obj = Returned obj) \/
  (exists e, unserializable obj <> None /\ json_dumps obj = Raised e).
Proof.
  unfold json_dumps. destruct (unserializable obj) as [type_name |].
  - right. eexists. split; [discriminate | reflexivity].
  - left. split; reflexivity.
Qed.

(** C7, as amended. [generate_context_report] raises in three cases and in
    no other: [json.dumps] raises on the company context, before any call is
    made; the generation call raises; or [json.loads] raises something else
    than [JSONDecodeError] on the response. It raises the exception it met.
    When the call answers a response on which [json.loads] raises
    [JSONDecodeError], the report is returned and is the object with the two
    members [raw_response], the response itself, and [error], the text "Failed
    to parse JSON response"; a response that parses is returned parsed. *)
Theorem generate_context_report_raises_iff (lib : Library) (w : World)
    (h : log) (t : time) (cc : CompanyContext.t) (trends competitors : bool) :
  let a := answer w (generate_response "ResearchAgent"
                       (ResearchPrompt cc trends competitors) (5 # 10)) h in
  let outcome := run_coro w h t (generate_context_report lib cc trends competitors) in
  let r := snd outcome in
  (forall e,
      r = Raised e <->
      json_dumps (CompanyContext.dict cc) = Raised e \/
      (unserializable (CompanyContext.dict cc) = None /\
       (a = Raised e \/
        exists response,
          a = Returned response /\ json_loads lib response = Raised e /\
          is_JSONDecodeError e = false))) /\
  (unserializable (CompanyContext.dict cc) <> None -> fst (fst outcome) = h) /\
  (forall response e,
      unserializable (CompanyContext.dict cc) = None ->
      a = Returned response -> json_loads lib response = Raised e ->
      is_JSONDecodeError e = true ->
      r = Returned (JObject [("raw_response", JString response);
                             ("error", JString "Failed to parse JSON response")])) /\
  (forall response report,
      unserializable (CompanyContext.dict cc) = None ->
      a = Returned response -> json_loads lib response = Returned report ->
      r = Returned report).
Proof.
  intros a outcome r. subst r outcome. rewrite run_generate_context_report.
  cbv zeta. unfold research_call. fold a.
  destruct (json_dumps_outcome (CompanyContext.dict cc)) as [[Hnone Hdumps] | (e0 & Hsome & Hdumps)];
    rewrite Hdumps; cbn [fst snd].
  - split; [| split; [| split]].
    + intros e. unfold report_of. split.
      * intros H. right. split; [exact Hnone |].
        destruct a as [response | e']; [| left; injection H as <-; reflexivity].
        right. exists response. split; [reflexivity |].
        destruct (json_loads lib response) as [report | e']; [discriminate |].
        destruct (is_JSONDecodeError e') eqn:E; [discriminate |].
        injection H as <-. split; [reflexivity | exact E].
      * intros [H | [_ [H | (response & Ha & Hloads & Hclass)]]].
        -- discriminate.
        -- rewrite H. reflexivity.
        -- rewrite Ha, Hloads, Hclass. reflexivity.
    + intros H. contradiction.
    + intros response e _ Ha Hloads Hclass. unfold report_of.
      rewrite Ha, Hloads, Hclass. reflexivity.
    + intros response report _ Ha Hloads. unfold report_of.
      rewrite Ha, Hloads. reflexivity.
  - split; [| split; [| split]].
    + intros e. split.
      * intros H. left. injection H as <-. reflexivity.
      * intros [H | [H _]]; [injection H as <-; reflexivity | contradiction].
    + intros _. reflexivity.
    + intros response e H. contradiction.
    + intros response report H. contradiction.
Qed.

Lemma generate_context_report_raises_iff_witness :
  snd (run_coro (Sample.world "not json" (fun _ => 1%nat)) [] 0%nat
         (generate_context_report Sample.lib Sample.company true true)) =
  Returned (JObject [("raw_response", JString "not json");
                     ("error", JString "Failed to parse JSON response")]).
Proof.
  exact (proj1 (proj2 (proj2 (generate_context_report_raises_iff
                                Sample.lib (Sample.world "not json" (fun _ => 1%nat))
                                [] 0%nat Sample.company true true)))
               "not json" Sample.not_json eq_refl eq_refl eq_refl eq_refl).
Defined.

(** C7, as the specification states it, fails: the wrapped report has no
    member called [parse_error]. *)
Lemma context_report_has_no_parse_error_member : ~ wraps_with_parse_error.
Proof.
  intros H.
  destruct (H Sample.lib (Sample.world "not json" (fun _ => 1%nat)) [] 0%nat
              Sample.company true true "not json" eq_refl
              (ex_intro _ Sample.not_json (conj eq_refl eq_refl)))
    as (members & marker & Hrun & _ & Hmarker).
  vm_compute in Hrun. injection Hrun as <-. discriminate Hmarker.
Qed.

(** It fails in a second way: the report is fatal although the generation
    call did not fail. With a date in the additional information of the
    company, [json.dumps] raises and the call is never made; and when the call
    answers what [json.loads] gives up on, that exception is raised. *)
Lemma context_report_raises_without_a_failed_call : ~ raises_only_when_the_call_fails.
Proof.
  intros H.
  specialize (H Sample.lib (Sample.world "{}" (fun _ => 1%nat)) [] 0%nat
                Sample.company_with_date true true datetime_error eq_refl).
  discriminate H.
Qed.

Lemma context_report_raises_what_json_loads_raises :
  run_coro (Sample.world "huge" (fun _ => 1%nat)) [] 0%nat
    (generate_context_report Sample.lib Sample.company true true) =
  ([EvCall (research_call Sample.company true true) 0%nat 1%nat false], 1%nat,
   Raised Sample.too_many_digits).
Proof. reflexivity. Qed.

(** ** Image synthesis *)

Lemma run_generate_scene_description (w : World) (h : log) (t : time)
    (brand_hero : BrandHero.t) (post_content : PostContent.t) :
  let c := generate_text (ScenePrompt brand_hero post_content) (7 # 10) 300 in
  let a := answer w c h in
  let t1 := (t + latency w c h)%nat in
  run_coro w h t (generate_scene_description brand_hero post_content) =
  (h ++ [EvCall c t t1 (is_raised a)], t1,
   Returned (scene_description_of brand_hero post_content a)).
Proof.
  intros c a t1. unfold generate_scene_description, OpenAIService_generate_text.
  simpl. fold c. fold a. fold t1.
  destruct a as [[| choice choices] | e]; reflexivity.
Qed.

Lemma run_generate_brand_hero_image (w : World) (h : log) (t : time)
    (brand_hero : BrandHero.t) (post_content : PostContent.t)
    (scene_description : option string) :
  let c := openai_generate_image
             (final_prompt brand_hero post_content scene_description) "1024x1024" in
  let a := answer w c h in
  let t1 := (t + latency w c h)%nat in
  run_coro w h t (generate_brand_hero_image brand_hero post_content scene_description) =
  (h ++ [EvCall c t t1 (is_raised a)], t1,
   match a with
   | Returned url =>
       Returned {| ir_image_url := url;
                   ir_description := scene_prompt post_content scene_description;
                   ir_prompt_used :=
                     final_prompt brand_hero post_content scene_description |}
   | Raised e => Raised e
   end).
Proof.
  intros c a t1. unfold generate_brand_hero_image, OpenAIService_generate_image.
  simpl. fold c. fold a. fold t1.
  destruct a as [url | e]; reflexivity.
Qed.

(** The whole of [generate_image] in terms of the three answers it may ask
    for. *)
Lemma run_generate_image (w : World) (h : log) (t : time)
    (brand_hero : BrandHero.t) (post_content : PostContent.t) :
  let c1 := generate_response "ImageAgent"
              (ImagePrompt brand_hero post_content) (7 # 10) in
  let a1 := answer w c1 h in
  let t1 := (t + latency w c1 h)%nat in
  let h1 := h ++ [EvCall c1 t t1 (is_raised a1)] in
  let c2 := generate_text (ScenePrompt brand_hero post_content) (7 # 10) 300 in
  let a2 := answer w c2 h1 in
  let t2 := (t1 + latency w c2 h1)%nat in
  let h2 := h1 ++ [EvCall c2 t1 t2 (is_raised a2)] in
  let scene := scene_description_of brand_hero post_content a2 in
  let c3 := openai_generate_image
              (final_prompt brand_hero post_content scene) "1024x1024" in
  let a3 := answer w c3 h2 in
  let t3 := (t2 + latency w c3 h2)%nat in
  let h3 := h2 ++ [EvCall c3 t2 t3 (is_raised a3)] in
  run_coro w h t (generate_image brand_hero post_content) =
  match a1 with
  | Raised _ => (h1, t1, Returned placeholder_image)
  | Returned _ =>
      (h3, t3, Returned (post_image_of brand_hero post_content scene a3))
  end.
Proof.
  intros c1 a1 t1 h1 c2 a2 t2 h2 scene c3 a3 t3 h3.
  unfold generate_image. rewrite run_coro_ctry, run_coro_cbind.
  unfold BaseAgent_generate_response at 1. simpl run_coro at 1.
  fold c1. fold a1. fold t1. change (failed c1 a1) with (is_raised a1). fold h1.
  destruct a1 as [response | e]; simpl of_result; simpl run_coro at 1;
    [| reflexivity].
  cbv beta iota.
  rewrite run_coro_cbind, run_generate_scene_description.
  fold c2. fold a2. fold t2. fold h2. fold scene. cbv beta iota.
  rewrite run_coro_cbind, run_generate_brand_hero_image.
  fold c3. fold a3. fold t3. fold h3.
  destruct a3 as [[url |] | e]; reflexivity.
Qed.

Lemma generate_image_returns (w : World) (h : log) (t : time)
    (brand_hero : BrandHero.t) (post_content : PostContent.t) :
  exists h' t' image,
    run_coro w h t (generate_image brand_hero post_content) = (h', t', Returned image).
Proof.
  rewrite run_generate_image. cbv zeta.
  destruct (answer w _ h); eexists _, _, _; reflexivity.
Qed.

(** C5, as amended. [generate_image] never raises. It returns the
    placeholder (locator
    https://via.placeholder.com/1024x1024?text=Image+Generation+Error,
    description "Error generating image") when the agent's generation call
    raises, when the image call raises, and when the image call answers no
    locator. A text call that raises while the scene is described is absorbed
    before [generate_image] sees it: the scene becomes "A professional image
    of <name> related to <text>", the image call is still made, and the
    locator it answers is returned with that description. *)
Theorem generate_image_never_raises (w : World) (h : log) (t : time)
    (brand_hero : BrandHero.t) (post_content : PostContent.t) :
  let c1 := generate_response "ImageAgent"
              (ImagePrompt brand_hero post_content) (7 # 10) in
  let a1 := answer w c1 h in
  let t1 := (t + latency w c1 h)%nat in
  let h1 := h ++ [EvCall c1 t t1 (is_raised a1)] in
  let c2 := generate_text (ScenePrompt brand_hero post_content) (7 # 10) 300 in
  let a2 := answer w c2 h1 in
  let t2 := (t1 + latency w c2 h1)%nat in
  let h2 := h1 ++ [EvCall c2 t1 t2 (is_raised a2)] in
  let scene := scene_description_of brand_hero post_content a2 in
  let c3 := openai_generate_image
              (final_prompt brand_hero post_content scene) "1024x1024" in
  let a3 := answer w c3 h2 in
  exists h' t' image,
    run_coro w h t (generate_image brand_hero post_content) = (h', t', Returned image) /\
    (is_raised a1 = true -> image = placeholder_image) /\
    (is_raised a1 = false -> is_raised a3 = true -> image = placeholder_image) /\
    (is_raised a1 = false -> a3 = Returned None -> image = placeholder_image) /\
    (is_raised a2 = true ->
       scene = Some ("A professional image of " ++ BrandHero.name brand_hero
                       ++ " related to " ++ PostContent.text post_content)%string) /\
    (forall url,
        is_raised a1 = false -> a3 = Returned (Some url) ->
        image = {| PostImage.image_url := url;
                   PostImage.description := scene_prompt post_content scene;
                   PostImage.prompt_used :=
                     Some (final_prompt brand_hero post_content scene) |}).
Proof.
  cbv zeta. rewrite run_generate_image. cbv zeta.
  set (c1 := generate_response "ImageAgent" (ImagePrompt brand_hero post_content) (7 # 10)).
  destruct (answer w c1 h) as [response | e1].
  - set (c2 := generate_text (ScenePrompt brand_hero post_content) (7 # 10) 300).
    set (h1 := h ++ [EvCall c1 t (t + latency w c1 h)%nat (is_raised (Returned response))]).
    set (a2 := answer w c2 h1).
    set (scene := scene_description_of brand_hero post_content a2).
    set (a3 := answer w (openai_generate_image _ _) _).
    eexists _, _, _. split; [reflexivity |].
    split; [discriminate |]. split; [| split; [| split]].
    + intros _ Ha3. destruct a3; [discriminate | reflexivity].
    + intros _ Ha3. rewrite Ha3. reflexivity.
    + intros Ha2. subst scene. destruct a2; [discriminate | reflexivity].
    + intros url _ Ha3. rewrite Ha3. reflexivity.
  - eexists _, _, _. split; [reflexivity |].
    split; [reflexivity |]. split; [discriminate |]. split; [discriminate |]. split.
    + set (a2 := answer w _ _). intros Ha2. destruct a2; [discriminate | reflexivity].
    + intros url Hfalse. discriminate Hfalse.
Qed.

Lemma generate_image_never_raises_witness :
  snd (run_coro Sample.world_down [] 0%nat
         (generate_image Sample.hero (Sample.content "Hello" ["#a"]))) =
  Returned placeholder_image.
Proof.
  destruct (generate_image_never_raises Sample.world_down [] 0%nat Sample.hero
              (Sample.content "Hello" ["#a"]))
    as (h' & t' & image & Hrun & Hagent & _).
  rewrite Hrun. simpl. f_equal. apply Hagent. reflexivity.
Defined.

Lemma generate_image_without_locator_example :
  snd (run_coro Sample.world_no_locator [] 0%nat
         (generate_image Sample.hero (Sample.content "Hello" ["#a"]))) =
  Returned placeholder_image.
Proof. reflexivity. Qed.

(** C5, as the specification states it, fails: when only the text call of
    the scene description raises, a call has failed and yet the image returned
    is not the placeholder. *)
Lemma scene_failure_gives_no_placeholder : ~ any_failed_call_gives_placeholder.
Proof.
  intros H.
  destruct (H Sample.world_scene_down [] 0%nat Sample.hero (Sample.content "Hello" ["#a"]))
    as (d & t' & image & Hrun & Hplaceholder).
  vm_compute in Hrun. injection Hrun as Hd Ht Himage.
  subst d. specialize (Hplaceholder ltac:(discriminate)).
  rewrite Hplaceholder in Himage. discriminate Himage.
Qed.

(** ** One proposal task *)

(** The task never raises: it makes its generation call, then asks for an
    identifier and a creation time, and returns [proposal_of] the answers. *)
Lemma run_generate_post_proposal (lib : Library) (w : World) (h : log) (t : time)
    (content_brief : string) (brand_hero : BrandHero.t) (proposal_num : Z) :
  let c := generate_response "ContentAgent"
             (PostPrompt content_brief brand_hero proposal_num) (8 # 10) in
  let a := answer w c h in
  let t1 := (t + latency w c h)%nat in
  let h1 := h ++ [EvCall c t t1 (is_raised a)] in
  let t2 := (t1 + latency w uuid4 h1)%nat in
  let h2 := h1 ++ [EvCall uuid4 t1 t2 false] in
  let t3 := (t2 + latency w datetime_now h2)%nat in
  let h3 := h2 ++ [EvCall datetime_now t2 t3 false] in
  run_coro w h t (_generate_post_proposal lib content_brief brand_hero proposal_num) =
  (h3, t3,
   Returned (proposal_of lib content_brief proposal_num a
               (answer w uuid4 h1) (answer w datetime_now h2))).
Proof.
  cbv zeta. unfold _generate_post_proposal, proposal_of, proposal_content,
    content_of_json, ctry_JSONDecodeError, loads, PostContent_new,
    BaseAgent_generate_response, new_uuid, new_timestamp.
  simpl run_coro.
  set (c := generate_response "ContentAgent"
              (PostPrompt content_brief brand_hero proposal_num) (8 # 10)).
  change (failed c (answer w c h)) with (is_raised (answer w c h)).
  destruct (answer w c h) as [response | e]; simpl; [| reflexivity].
  destruct (json_loads lib response) as [content_json | e]; simpl.
  - destruct content_json; simpl; try reflexivity.
    destruct (PostContent_validate lib _ _ _); reflexivity.
  - destruct (is_JSONDecodeError e); reflexivity.
Qed.

(** ** What an execution leaves in the log *)

Lemma event_within_weaken (lo hi lo' hi' : time) (ev : event) :
  (lo' <= lo)%nat -> (hi <= hi')%nat ->
  event_within lo hi ev -> event_within lo' hi' ev.
Proof. destruct ev; simpl; lia. Qed.

Lemma Forall_event_within_weaken (lo hi lo' hi' : time) (d : log) :
  (lo' <= lo)%nat -> (hi <= hi')%nat ->
  Forall (event_within lo hi) d -> Forall (event_within lo' hi') d.
Proof.
  intros Hlo Hhi H. eapply Forall_impl; [| exact H].
  intros ev. apply event_within_weaken; assumption.
Qed.

Lemma outstanding_app (d1 d2 : log) (tau : time) :
  outstanding (d1 ++ d2) tau = (outstanding d1 tau + outstanding d2 tau)%nat.
Proof. unfold outstanding. rewrite filter_app, length_app. reflexivity. Qed.

Lemma outstanding_outside (lo hi : time) (d : log) (tau : time) :
  Forall (event_within lo hi) d -> (tau < lo \/ hi <= tau)%nat ->
  outstanding d tau = 0%nat.
Proof.
  intros Hd Htau. unfold outstanding.
  induction Hd as [| ev d Hev Hd IH]; simpl; [reflexivity |].
  replace (in_flight tau ev) with false; [exact IH |].
  destruct ev as [c s e f | task t | task t]; simpl in *; try reflexivity.
  symmetry. destruct (is_generation c); simpl; [| reflexivity].
  destruct (Nat.leb_spec s tau); simpl; [| reflexivity].
  destruct (Nat.ltb_spec tau e); [lia | reflexivity].
Qed.

Lemma spawns_app (d1 d2 : log) : spawns (d1 ++ d2) = spawns d1 ++ spawns d2.
Proof. unfold spawns. apply flat_map_app. Qed.

Lemma settles_app (d1 d2 : log) : settles (d1 ++ d2) = settles d1 ++ settles d2.
Proof. unfold settles. apply flat_map_app. Qed.

(** A coroutine is sequential: it only extends the log, time does not go
    back, and it never has more than one call outstanding. *)
Lemma run_coro_log {R : Type} (w : World) (p : Coro R) :
  forall h t, exists d,
    fst (fst (run_coro w h t p)) = h ++ d /\
    (t <= snd (fst (run_coro w h t p)))%nat /\
    Forall (event_within t (snd (fst (run_coro w h t p)))) d /\
    (forall tau, outstanding d tau <= 1)%nat /\
    spawns d = [] /\ settles d = [].
Proof.
  induction p as [a | e | c k IH]; intros h t; simpl.
  - exists []. rewrite app_nil_r. repeat split; auto.
  - exists []. rewrite app_nil_r. repeat split; auto.
  - set (a := answer w c h). set (t1 := (t + latency w c h)%nat).
    destruct (IH a (h ++ [EvCall c t t1 (failed c a)]) t1)
      as (d & Hh & Ht & Hd & Hout & Hsp & Hse).
    exists (EvCall c t t1 (failed c a) :: d).
    split; [rewrite Hh, <- app_assoc; reflexivity |].
    split; [subst t1; lia |].
    split; [| split; [| split]].
    + constructor.
      * simpl. subst t1. lia.
      * eapply Forall_event_within_weaken; [| | exact Hd]; subst t1; lia.
    + intros tau.
      change (EvCall c t t1 (failed c a) :: d)
        with ([EvCall c t t1 (failed c a)] ++ d).
      rewrite outstanding_app.
      destruct (Nat.ltb_spec tau t1) as [Hlt | Hge].
      * rewrite (outstanding_outside t1 _ d tau Hd) by lia.
        unfold outstanding. simpl.
        match goal with |- context [if ?b then _ else _] => destruct b end;
          simpl; lia.
      * replace (outstanding [EvCall c t t1 (failed c a)] tau) with 0%nat;
          [apply Hout |].
        unfold outstanding. simpl.
        destruct (is_generation c); simpl; [| reflexivity].
        destruct (Nat.leb_spec t tau); simpl; [| reflexivity].
        destruct (Nat.ltb_spec tau t1); [lia | reflexivity].
    + simpl. exact Hsp.
    + simpl. exact Hse.
Qed.

Lemma latest_ge_start {T : Type} (t0 : time) (rs : list (time * result T)) :
  (t0 <= latest t0 rs)%nat.
Proof. induction rs as [| r rs IH]; simpl; lia. Qed.

Lemma latest_ge_each {T : Type} (t0 : time) (rs : list (time * result T)) :
  Forall (fun r => (fst r <= latest t0 rs)%nat) rs.
Proof.
  induction rs as [| r rs IH]; simpl; constructor.
  - lia.
  - eapply Forall_impl; [| exact IH]. simpl. intros r'. lia.
Qed.

(** A gathered batch: every task is dispatched at [t0]; the log, the
    dispatches and the settlings follow the order of the tasks; no instant of
    the batch is outside [t0] and the instant the last task settles; and there
    are never more calls outstanding than tasks. *)
Lemma run_tasks_log {T : Type} (w : World) (t0 : time) (tasks : list (Z * Coro T)) :
  forall h, exists d,
    fst (run_tasks w t0 h tasks) = h ++ d /\
    List.length (snd (run_tasks w t0 h tasks)) = List.length tasks /\
    Forall (event_within t0 (latest t0 (snd (run_tasks w t0 h tasks)))) d /\
    (forall tau, outstanding d tau <= List.length tasks)%nat /\
    spawns d = map (fun task => (fst task, t0)) tasks /\
    settles d = combine (map fst tasks) (map fst (snd (run_tasks w t0 h tasks))).
Proof.
  induction tasks as [| [task c] tasks IH]; intros h; simpl.
  - exists []. rewrite app_nil_r. repeat split; auto.
  - destruct (run_coro_log w c (h ++ [EvSpawn task t0]) t0)
      as (d1 & Hh1 & Ht1 & Hd1 & Hout1 & Hsp1 & Hse1).
    destruct (run_coro w (h ++ [EvSpawn task t0]) t0 c) as [[h1 t1] r1].
    simpl in Hh1, Ht1, Hd1.
    destruct (IH (h1 ++ [EvSettle task t1]))
      as (d2 & Hh2 & Hlen & Hd2 & Hout2 & Hsp2 & Hse2).
    destruct (run_tasks w t0 (h1 ++ [EvSettle task t1]) tasks) as [h2 rs].
    simpl in Hh2, Hlen, Hd2, Hsp2, Hse2. simpl.
    pose proof (latest_ge_start t0 rs) as Hlatest.
    exists ((EvSpawn task t0 :: d1 ++ [EvSettle task t1]) ++ d2).
    split; [| split; [| split; [| split; [| split]]]].
    + rewrite Hh2, Hh1. rewrite <- !app_assoc. simpl. rewrite <- app_assoc. reflexivity.
    + rewrite Hlen. reflexivity.
    + apply Forall_app. split.
      * constructor; [simpl; lia |].
        apply Forall_app. split.
        -- eapply Forall_event_within_weaken; [| | exact Hd1]; lia.
        -- constructor; [simpl; lia | constructor].
      * eapply Forall_event_within_weaken; [| | exact Hd2]; lia.
    + intros tau. rewrite outstanding_app.
      change (EvSpawn task t0 :: d1 ++ [EvSettle task t1])
        with ([EvSpawn task t0] ++ d1 ++ [EvSettle task t1]).
      rewrite !outstanding_app.
      change (outstanding [EvSpawn task t0] tau) with 0%nat.
      change (outstanding [EvSettle task t1] tau) with 0%nat.
      specialize (Hout1 tau). specialize (Hout2 tau). lia.
    + rewrite spawns_app. simpl. rewrite spawns_app, Hsp1, Hsp2. reflexivity.
    + rewrite settles_app. simpl. rewrite settles_app, Hse1, Hse2. reflexivity.
Qed.

(** When no task raised, [asyncio.gather] returns one value per task, at the
    instant the last of them settled. *)
Lemma gather_outcome_returned {T : Type} (t0 : time) (rs : list (time * result T)) :
  Forall (fun r => is_raised (snd r) = false) rs ->
  gather_outcome t0 rs = (latest t0 rs, Returned (returned_values rs)) /\
  List.length (returned_values rs) = List.length rs.
Proof.
  intros H. unfold gather_outcome.
  assert (Hff : first_failure rs = None /\
                List.length (returned_values rs) = List.length rs).
  { induction H as [| [t [a | e]] rs Hr Hrs [IH1 IH2]]; simpl in *.
    - split; reflexivity.
    - split; [exact IH1 | rewrite IH2; reflexivity].
    - discriminate. }
  destruct Hff as [Hff Hlen]. rewrite Hff. split; [reflexivity | exact Hlen].
Qed.

(** Whatever the tasks, a value of [asyncio.gather] has one item per task. *)
Lemma gather_outcome_length {T : Type} (t0 : time) (rs : list (time * result T))
    (l : list T) :
  snd (gather_outcome t0 rs) = Returned l -> List.length l = List.length rs.
Proof.
  unfold gather_outcome. destruct (first_failure rs) as [[t e] |] eqn:Hff; simpl.
  - discriminate.
  - intros H. injection H as <-.
    revert Hff. induction rs as [| [t [a | e]] rs IH]; simpl; intros Hff.
    + reflexivity.
    + rewrite IH by exact Hff. reflexivity.
    + destruct (first_failure rs) as [[t' e'] |]; [| discriminate].
      destruct (t' <? t)%nat; discriminate.
Qed.

(** ** Ranges and batches *)

Lemma py_range_step_1 (a b : Z) :
  py_range a b 1 = map (fun k => a + Z.of_nat k) (seq 0 (Z.to_nat (b - a))).
Proof.
  unfold py_range. rewrite Z.div_1_r.
  replace (b - a + 1 - 1) with (b - a) by lia.
  apply map_ext. intros k. lia.
Qed.

Lemma length_py_range_1 (a b : Z) :
  List.length (py_range a b 1) = Z.to_nat (b - a).
Proof. rewrite py_range_step_1, length_map, length_seq. reflexivity. Qed.

Lemma seq_offset (m k : nat) :
  seq m k = map (fun x => (m + x)%nat) (seq 0 k).
Proof.
  revert m. induction k as [| k IH]; intros m; simpl; [reflexivity |].
  rewrite Nat.add_0_r. f_equal.
  rewrite (IH (S m)), (IH 1%nat), map_map. apply map_ext. intros x. lia.
Qed.

Lemma py_range_app (a b c : Z) :
  a <= b <= c -> py_range a b 1 ++ py_range b c 1 = py_range a c 1.
Proof.
  intros H. rewrite !py_range_step_1.
  replace (Z.to_nat (c - a)) with (Z.to_nat (b - a) + Z.to_nat (c - b))%nat by lia.
  rewrite seq_app, map_app. f_equal. simpl.
  rewrite (seq_offset (Z.to_nat (b - a))), map_map.
  apply map_ext. intros k. lia.
Qed.

Lemma py_range_step_3 (n : Z) :
  py_range 0 n 3 = map (fun k => Z.of_nat k * 3) (seq 0 (batch_count n)).
Proof.
  unfold py_range, batch_count. replace (n - 0 + 3 - 1) with (n + 3 - 1) by lia.
  apply map_ext. intros k. lia.
Qed.

Lemma py_range_empty (n : Z) : n <= 0 -> py_range 0 n 3 = [].
Proof.
  intros Hn. unfold py_range.
  replace (Z.to_nat ((n - 0 + 3 - 1) / 3)) with 0%nat; [reflexivity |].
  assert ((n - 0 + 3 - 1) / 3 < 1) by (apply Z.div_lt_upper_bound; lia). lia.
Qed.

Lemma batch_count_bounds (n : Z) (j : nat) :
  (j < batch_count n)%nat -> Z.of_nat j * 3 < n.
Proof.
  unfold batch_count. intros H.
  pose proof (Z.div_mod (n + 3 - 1) 3 ltac:(lia)) as Hdm.
  pose proof (Z.mod_pos_bound (n + 3 - 1) 3 ltac:(lia)) as Hmod.
  lia.
Qed.

Lemma batch_count_covers (n : Z) :
  0 <= n -> n <= Z.of_nat (batch_count n) * 3.
Proof.
  unfold batch_count. intros H.
  pose proof (Z.div_mod (n + 3 - 1) 3 ltac:(lia)) as Hdm.
  pose proof (Z.mod_pos_bound (n + 3 - 1) 3 ltac:(lia)) as Hmod.
  lia.
Qed.

Lemma batch_tasks_numbers (lib : Library) (content_brief : string)
    (brand_hero : BrandHero.t) (n batch_start : Z) :
  batch_tasks lib content_brief brand_hero n 3 batch_start =
  map (fun num => (num, _generate_post_proposal lib content_brief brand_hero num))
      (batch_numbers n batch_start).
Proof. unfold batch_tasks, batch_numbers. rewrite map_map. reflexivity. Qed.

Lemma length_batch_numbers (n : Z) (j : nat) :
  (j < batch_count n)%nat ->
  List.length (batch_numbers n (Z.of_nat j * 3)) =
  Z.to_nat (Z.min (Z.of_nat j * 3 + 3) n - Z.of_nat j * 3).
Proof.
  intros _. unfold batch_numbers. rewrite length_map, length_py_range_1. reflexivity.
Qed.

Lemma batch_numbers_nth (n : Z) (j i : nat) (num : Z) :
  nth_error (batch_numbers n (Z.of_nat j * 3)) i = Some num ->
  num = Z.of_nat j * 3 + Z.of_nat i + 1.
Proof.
  unfold batch_numbers.
  rewrite py_range_step_1, map_map, nth_error_map, nth_error_seq.
  destruct (i <? _)%nat; simpl; [| discriminate].
  intros H. injection H as <-. lia.
Qed.

(** The first [j] batches hold the proposals 1 to [3 j], or to [n] when
    that is less. *)
Lemma concat_first_batches (n : Z) (j : nat) :
  (j <= batch_count n)%nat ->
  List.concat (map (fun k => batch_numbers n (Z.of_nat k * 3)) (seq 0 j)) =
  map (fun i => i + 1) (py_range 0 (Z.min (Z.of_nat j * 3) n) 1).
Proof.
  induction j as [| j IH]; intros Hj.
  - simpl. rewrite py_range_step_1.
    replace (Z.to_nat (Z.min 0 n - 0)) with 0%nat by lia. reflexivity.
  - rewrite seq_S, map_app, concat_app, IH by lia.
    cbn [map List.concat Nat.add].
    rewrite app_nil_r. unfold batch_numbers. rewrite <- map_app.
    pose proof (batch_count_bounds n j ltac:(lia)) as Hlt.
    replace (Z.min (Z.of_nat (S j) * 3) n) with (Z.min (Z.of_nat j * 3 + 3) n) by lia.
    replace (Z.min (Z.of_nat j * 3) n) with (Z.of_nat j * 3) by lia.
    rewrite py_range_app by lia.
    reflexivity.
Qed.

(** ** Loops *)

(** A [for] loop keeps an invariant indexed by the number of iterations
    done, as long as each iteration does; when an iteration raises, the loop
    raises where that iteration stopped. *)
Lemma for_in_invariant {Y A : Type} (w : World) (body : A -> Prog Y unit)
    (Qe : state Y -> exn -> Prop) (l : list A) :
  forall (Inv : nat -> state Y -> Prop),
    (forall k x s, nth_error l k = Some x -> Inv k s ->
                   post_run (run w s (body x)) (fun s' _ => Inv (S k) s') Qe) ->
    forall s, Inv 0%nat s ->
              post_run (run w s (for_in l body))
                       (fun s' _ => Inv (List.length l) s') Qe.
Proof.
  induction l as [| x l IH]; intros Inv Hbody s Hs.
  - simpl. exact Hs.
  - rewrite run_for_in_cons.
    pose proof (Hbody 0%nat x s eq_refl Hs) as Hx.
    destruct (run w s (body x)) as [s1 [u | e]]; simpl in Hx; [| exact Hx].
    apply (IH (fun k => Inv (S k))); [| exact Hx].
    intros k y s' Hk. apply (Hbody (S k)). exact Hk.
Qed.

Lemma generate_post_proposals_unfold (lib : Library) (context_report : json)
    (brand_hero : BrandHero.t) (num_proposals : Z) :
  generate_post_proposals lib context_report brand_hero num_proposals =
  (content_brief <- await (_create_content_brief context_report brand_hero) ;;
   proposals_loop lib content_brief brand_hero num_proposals yield)%prog.
Proof. unfold generate_post_proposals. rewrite ptry_reraise. reflexivity. Qed.

(** Consuming the generator runs the consumer's body where the generator
    yields. *)
Lemma for_each_generate_post_proposals {Y : Type} (lib : Library)
    (context_report : json) (brand_hero : BrandHero.t) (num_proposals : Z)
    (body : PostResponse.t -> Prog Y unit) :
  for_each (generate_post_proposals lib context_report brand_hero num_proposals) body =
  (content_brief <- await (_create_content_brief context_report brand_hero) ;;
   proposals_loop lib content_brief brand_hero num_proposals body)%prog.
Proof.
  rewrite generate_post_proposals_unfold, for_each_pbind, for_each_await.
  f_equal. apply functional_extensionality. intros content_brief.
  unfold proposals_loop. rewrite for_each_for_in. apply for_in_ext.
  intros batch_start. rewrite for_each_pbind, for_each_gather.
  f_equal. apply functional_extensionality. intros batch_results.
  rewrite for_each_for_in. apply for_in_ext. intros post_response.
  apply for_each_yield.
Qed.

Lemma produced_extends (w : World) (lib : Library) (content_brief : string)
    (brand_hero : BrandHero.t) (h d : log) (proposal_num : Z) (post : PostResponse.t) :
  produced w lib content_brief brand_hero h proposal_num post ->
  produced w lib content_brief brand_hero (h ++ d) proposal_num post.
Proof.
  intros (before & after & t0 & t1 & id & created_at & Hh & Hpost).
  exists before, (after ++ d), t0, t1, id, created_at. cbv zeta in *.
  split; [| exact Hpost]. rewrite Hh, <- app_assoc. reflexivity.
Qed.

(** The tasks of a batch all return, each what [proposal_of] says. *)
Lemma run_batch_results (w : World) (lib : Library) (content_brief : string)
    (brand_hero : BrandHero.t) (t0 : time) (nums : list Z) :
  forall h,
    let tasks := map (fun num => (num, _generate_post_proposal lib content_brief
                                         brand_hero num)) nums in
    let rs := snd (run_tasks w t0 h tasks) in
    Forall (fun r => is_raised (snd r) = false) rs /\
    Forall2 (produced w lib content_brief brand_hero (fst (run_tasks w t0 h tasks)))
            nums (returned_values rs).
Proof.
  induction nums as [| num nums IH]; intros h; cbv zeta; cbn [map run_tasks].
  - split; constructor.
  - rewrite run_generate_post_proposal. cbv zeta.
    match goal with
    | |- context [run_tasks w t0 ?h' ?l] =>
        specialize (IH h'); cbv zeta in IH;
        destruct (run_tasks_log w t0 l h') as (d & Hd & _);
        destruct (run_tasks w t0 h' l) as [h2 rs]
    end.
    simpl in *. destruct IH as [IH1 IH2]. split.
    + constructor; [reflexivity | exact IH1].
    + constructor; [| exact IH2].
      eexists h, _, _, _, _, _. cbv zeta. split; [| reflexivity].
      rewrite Hd. rewrite <- !app_assoc. reflexivity.
Qed.

Lemma run_gather_batch {Y : Type} (w : World) (lib : Library) (content_brief : string)
    (brand_hero : BrandHero.t) (n batch_start : Z) (s : state Y) :
  exists values,
    run w s (gather (batch_tasks lib content_brief brand_hero n 3 batch_start)) =
      (after_batch w lib content_brief brand_hero n batch_start s, Returned values) /\
    Forall2 (produced w lib content_brief brand_hero
               (hist (after_batch w lib content_brief brand_hero n batch_start s)))
            (batch_numbers n batch_start) values.
Proof.
  unfold gather, after_batch. simpl.
  pose proof (run_batch_results w lib content_brief brand_hero (now s)
                (batch_numbers n batch_start) (hist s)) as H.
  rewrite <- batch_tasks_numbers in H. cbv zeta in H.
  destruct (run_tasks w (now s) (hist s)
              (batch_tasks lib content_brief brand_hero n 3 batch_start)) as [h rs].
  simpl in H. destruct H as [Hret Hprod].
  destruct (gather_outcome_returned (now s) rs Hret) as [Hg _].
  rewrite Hg. simpl. exists (returned_values rs). split; [reflexivity | exact Hprod].
Qed.

(** A run only extends the log. *)
Lemma run_extends {Y R : Type} (w : World) (p : Prog Y R) :
  forall s, exists d, hist (fst (run w s p)) = hist s ++ d.
Proof.
  induction p as [a | e | y k IH | T c k IH | T tasks k IH]; intros s; simpl.
  - exists []. rewrite app_nil_r. reflexivity.
  - exists []. rewrite app_nil_r. reflexivity.
  - apply (IH {| hist := hist s; now := now s; out := out s ++ [(now s, y)] |}).
  - destruct (run_coro_log w c (hist s) (now s)) as (d1 & Hd1 & _).
    destruct (run_coro w (hist s) (now s) c) as [[h t] r]. simpl in Hd1.
    destruct (IH r {| hist := h; now := t; out := out s |}) as (d2 & Hd2).
    exists (d1 ++ d2). rewrite Hd2. simpl. rewrite Hd1, app_assoc. reflexivity.
  - destruct (run_tasks_log w (now s) tasks (hist s)) as (d1 & Hd1 & _).
    destruct (run_tasks w (now s) (hist s) tasks) as [h rs]. simpl in Hd1.
    destruct (gather_outcome (now s) rs) as [t r].
    destruct (IH r {| hist := h; now := t; out := out s |}) as (d2 & Hd2).
    exists (d1 ++ d2). rewrite Hd2. simpl. rewrite Hd1, app_assoc. reflexivity.
Qed.

Lemma Forall2_nth_error {A B : Type} (P : A -> B -> Prop) (l1 : list A) (l2 : list B) :
  Forall2 P l1 l2 ->
  List.length l1 = List.length l2 /\
  forall i b, nth_error l2 i = Some b -> exists a, nth_error l1 i = Some a /\ P a b.
Proof.
  induction 1 as [| a b l1 l2 Hab H IH]; simpl.
  - split; [reflexivity |]. intros [| i] b' Hi; discriminate.
  - destruct IH as [Hlen Hnth]. split; [rewrite Hlen; reflexivity |].
    intros [| i] b' Hi; simpl in *.
    + injection Hi as <-. exists a. split; [reflexivity | exact Hab].
    + apply Hnth. exact Hi.
Qed.

(** The loop over the batches, with an invariant [InvB j] that holds before
    batch [j] and an invariant [Inv j i] that holds when [i] proposals of batch
    [j] have been handed to the body: gathering batch [j] takes [InvB j] to
    [Inv j 0], the body takes [Inv j i] to [Inv j (i + 1)], and when the batch
    is exhausted [InvB (j + 1)] holds. *)
Lemma proposals_loop_batches {Y : Type} (w : World) (lib : Library)
    (content_brief : string) (brand_hero : BrandHero.t) (n : Z)
    (body : PostResponse.t -> Prog Y unit)
    (InvB : nat -> state Y -> Prop) (Inv : nat -> nat -> state Y -> Prop)
    (Qe : state Y -> exn -> Prop) :
  (forall j s,
      (j < batch_count n)%nat -> InvB j s ->
      Inv j 0%nat (after_batch w lib content_brief brand_hero n (Z.of_nat j * 3) s)) ->
  (forall j i post s,
      (j < batch_count n)%nat ->
      (i < List.length (batch_numbers n (Z.of_nat j * 3)))%nat ->
      produced w lib content_brief brand_hero (hist s)
               (Z.of_nat j * 3 + Z.of_nat i + 1) post ->
      Inv j i s ->
      post_run (run w s (body post)) (fun s' _ => Inv j (S i) s') Qe) ->
  (forall j s,
      (j < batch_count n)%nat ->
      Inv j (List.length (batch_numbers n (Z.of_nat j * 3))) s -> InvB (S j) s) ->
  forall s, InvB 0%nat s ->
            post_run (run w s (proposals_loop lib content_brief brand_hero n body))
                     (fun s' _ => InvB (batch_count n) s') Qe.
Proof.
  intros Hbatch Hbody Hclose s Hs.
  unfold proposals_loop.
  replace (batch_count n) with (List.length (py_range 0 n 3))
    by (rewrite py_range_step_3, length_map, length_seq; reflexivity).
  apply (for_in_invariant w _ Qe (py_range 0 n 3) InvB); [| exact Hs].
  intros j batch_start s0 Hj Hinv.
  rewrite py_range_step_3, nth_error_map, nth_error_seq in Hj.
  destruct (Nat.ltb_spec j (batch_count n)) as [Hlt |]; [| discriminate].
  simpl in Hj. injection Hj as Hstart. subst batch_start.
  rewrite run_pbind.
  destruct (run_gather_batch w lib content_brief brand_hero n (Z.of_nat j * 3) s0)
    as (values & Hrun & Hprod).
  rewrite Hrun.
  set (s1 := after_batch w lib content_brief brand_hero n (Z.of_nat j * 3) s0) in *.
  apply Forall2_nth_error in Hprod. destruct Hprod as [Hlen Hnth].
  assert (Hinner :
    post_run (run w s1 (for_in values body))
             (fun s' _ => Inv j (List.length values) s' /\
                          exists d, hist s' = hist s1 ++ d) Qe).
  { apply (for_in_invariant w body Qe values
             (fun i s' => Inv j i s' /\ exists d, hist s' = hist s1 ++ d)).
    - intros i post s2 Hi [Hinv2 (d & Hd)].
      destruct (Hnth i post Hi) as (num & Hnum & Hproduced).
      pose proof (batch_numbers_nth n j i num Hnum) as Hnumber.
      assert (Hi' : (i < List.length values)%nat)
        by (apply nth_error_Some; rewrite Hi; discriminate).
      rewrite <- Hlen in Hi'.
      assert (Hstep : post_run (run w s2 (body post)) (fun s' _ => Inv j (S i) s') Qe).
      { apply Hbody; [exact Hlt | exact Hi' | | exact Hinv2].
        rewrite <- Hnumber, Hd. apply produced_extends. exact Hproduced. }
      destruct (run_extends w (body post) s2) as (d' & Hd').
      destruct (run w s2 (body post)) as [s3 [u | e]]; simpl in *; [| exact Hstep].
      split; [exact Hstep |].
      exists (d ++ d'). rewrite Hd', Hd, app_assoc. reflexivity.
    - split.
      + apply Hbatch; [exact Hlt | exact Hinv].
      + exists []. rewrite app_nil_r. reflexivity. }
  destruct (run w s1 (for_in values body)) as [s' [u | e]]; simpl in *;
    [| exact Hinner].
  apply Hclose; [exact Hlt |]. rewrite Hlen. exact (proj1 Hinner).
Qed.

(** The same with one invariant, indexed by the number of proposals handed
    to the body so far: a batch being gathered keeps it and the body, given the
    proposal number [k + 1], takes it from [k] to [k + 1]. When the loop is
    over, [num_proposals] proposals have been handed over. *)
Lemma proposals_loop_invariant {Y : Type} (w : World) (lib : Library)
    (content_brief : string) (brand_hero : BrandHero.t) (n : Z)
    (body : PostResponse.t -> Prog Y unit)
    (Inv : nat -> state Y -> Prop) (Qe : state Y -> exn -> Prop) :
  (forall k s batch_start,
      In batch_start (py_range 0 n 3) -> Z.of_nat k = batch_start -> Inv k s ->
      Inv k (after_batch w lib content_brief brand_hero n batch_start s)) ->
  (forall k post s,
      produced w lib content_brief brand_hero (hist s) (Z.of_nat k + 1) post ->
      Z.of_nat k < n -> Inv k s ->
      post_run (run w s (body post)) (fun s' _ => Inv (S k) s') Qe) ->
  forall s, Inv 0%nat s ->
            post_run (run w s (proposals_loop lib content_brief brand_hero n body))
                     (fun s' _ => Inv (Z.to_nat n) s') Qe.
Proof.
  intros Hbatch Hbody s Hs.
  set (items := fun j : nat => Z.to_nat (Z.min (Z.of_nat j * 3) n)).
  assert (Hitems : forall j, (j < batch_count n)%nat -> items j = (j * 3)%nat).
  { intros j Hlt. pose proof (batch_count_bounds n j Hlt). subst items. simpl. lia. }
  assert (Hfinal : items (batch_count n) = Z.to_nat n).
  { subst items. simpl. destruct (Z.le_gt_cases 0 n) as [Hn | Hn].
    - pose proof (batch_count_covers n Hn). lia.
    - lia. }
  rewrite <- Hfinal.
  apply (proposals_loop_batches w lib content_brief brand_hero n body
           (fun j => Inv (items j)) (fun j i => Inv (items j + i)%nat) Qe).
  - intros j s0 Hlt Hinv. rewrite Nat.add_0_r.
    apply Hbatch; [| rewrite Hitems by exact Hlt; lia | exact Hinv].
    rewrite py_range_step_3. apply in_map_iff. exists j. split; [reflexivity |].
    apply in_seq. lia.
  - intros j i post s0 Hlt Hi Hproduced Hinv.
    rewrite length_batch_numbers in Hi by exact Hlt.
    pose proof (batch_count_bounds n j Hlt) as Hbound.
    replace (items j + S i)%nat with (S (items j + i)) by lia.
    apply Hbody; [| rewrite Hitems by exact Hlt; lia | exact Hinv].
    replace (Z.of_nat (items j + i) + 1) with (Z.of_nat j * 3 + Z.of_nat i + 1)
      by (rewrite Hitems by exact Hlt; lia).
    exact Hproduced.
  - intros j s0 Hlt Hinv.
    replace (items (S j)) with (items j + List.length (batch_numbers n (Z.of_nat j * 3)))%nat
      by (rewrite length_batch_numbers by exact Hlt;
          pose proof (batch_count_bounds n j Hlt); subst items; simpl; lia).
    exact Hinv.
  - replace (items 0%nat) with 0%nat in * by (subst items; simpl; lia). exact Hs.
Qed.

(** ** The proposal generator *)

Lemma run_create_content_brief (w : World) (h : log) (t : time)
    (context_report : json) (brand_hero : BrandHero.t) :
  let c := brief_call context_report brand_hero in
  let t1 := (t + latency w c h)%nat in
  run_coro w h t (_create_content_brief context_report brand_hero) =
  (h ++ [EvCall c t t1 (is_raised (answer w c h))], t1, answer w c h).
Proof.
  cbv zeta. unfold _create_content_brief, BaseAgent_generate_response, brief_call.
  simpl.
  set (c := generate_response "ContentAgent" (BriefPrompt context_report brand_hero) (7 # 10)).
  change (failed c (answer w c h)) with (is_raised (answer w c h)).
  destruct (answer w c h); reflexivity.
Qed.

Lemma out_after_batch {Y : Type} (w : World) (lib : Library) (content_brief : string)
    (brand_hero : BrandHero.t) (n batch_start : Z) (s : state Y) :
  out (after_batch w lib content_brief brand_hero n batch_start s) = out s.
Proof.
  unfold after_batch.
  destruct (run_tasks w (now s) (hist s) _) as [h rs]. reflexivity.
Qed.

Lemma hist_after_batch {Y : Type} (w : World) (lib : Library) (content_brief : string)
    (brand_hero : BrandHero.t) (n batch_start : Z) (s : state Y) :
  exists d, hist (after_batch w lib content_brief brand_hero n batch_start s) =
            hist s ++ d.
Proof.
  unfold after_batch.
  destruct (run_tasks_log w (now s)
              (batch_tasks lib content_brief brand_hero n 3 batch_start) (hist s))
    as (d & Hd & _).
  destruct (run_tasks w (now s) (hist s) _) as [h rs]. exists d. exact Hd.
Qed.

(** Once the brief is there, the loop of the generator yields the proposals
    1 to [n] in that order and returns. *)
Lemma run_proposals_loop_yield (w : World) (lib : Library) (content_brief : string)
    (brand_hero : BrandHero.t) (n : Z) (s : state PostResponse.t) :
  post_run (run w s (proposals_loop lib content_brief brand_hero n yield))
           (fun s' _ =>
              exists emitted,
                out s' = out s ++ emitted /\
                List.length emitted = Z.to_nat n /\
                forall k tau post,
                  nth_error emitted k = Some (tau, post) ->
                  produced w lib content_brief brand_hero (hist s')
                           (Z.of_nat k + 1) post)
           (fun _ _ => False).
Proof.
  apply (proposals_loop_invariant w lib content_brief brand_hero n yield
           (fun k s' =>
              exists emitted,
                out s' = out s ++ emitted /\
                List.length emitted = k /\
                forall i tau post,
                  nth_error emitted i = Some (tau, post) ->
                  produced w lib content_brief brand_hero (hist s')
                           (Z.of_nat i + 1) post)).
  - intros k s0 batch_start _ _ (emitted & Hout & Hlen & Hnth).
    exists emitted. rewrite out_after_batch. split; [exact Hout |].
    split; [exact Hlen |]. intros i tau post Hi.
    destruct (hist_after_batch w lib content_brief brand_hero n batch_start s0)
      as (d & Hd).
    rewrite Hd. apply produced_extends. eapply Hnth. exact Hi.
  - intros k post s0 Hpost _ (emitted & Hout & Hlen & Hnth).
    rewrite run_yield. simpl.
    exists (emitted ++ [(now s0, post)]). split; [| split].
    + rewrite Hout, app_assoc. reflexivity.
    + rewrite length_app, Hlen. simpl. lia.
    + intros i tau post' Hi.
      destruct (Nat.lt_ge_cases i (List.length emitted)) as [Hlt | Hge].
      * rewrite nth_error_app1 in Hi by exact Hlt. eapply Hnth; exact Hi.
      * rewrite nth_error_app2 in Hi by exact Hge.
        destruct (i - List.length emitted)%nat as [| m] eqn:Em; simpl in Hi.
        -- injection Hi as _ <-. replace i with k by lia. exact Hpost.
        -- destruct m; discriminate.
  - exists []. rewrite app_nil_r. repeat split; auto.
    intros [| k] tau post Hk; discriminate.
Qed.

(** C1. For every count of at least 1, once the content brief is there,
    [generate_post_proposals] yields exactly [count] proposals and returns,
    whatever the world does to the generation calls of the proposals. The
    proposal yielded in position [k] is the one of task [k]: its generation
    call is in the log, right after the dispatch of the task, and when that
    call answered a response on which [json.loads] raises [JSONDecodeError],
    the text of the
    proposal is "Post proposal #k" and its hashtags are [#fallback]; when the
    call raised, or [json.loads] raised something else than [JSONDecodeError],
    or the parsed response was not an object or was rejected by the model, its
    hashtags are [#error] and its inspiration records the text of the
    exception under [error]; otherwise its content is the one parsed from the
    response. *)
Theorem generate_post_proposals_yields_every_proposal (lib : Library) (w : World)
    (s : state PostResponse.t) (context_report : json) (brand_hero : BrandHero.t)
    (count : Z) (content_brief : string) :
  1 <= count ->
  answer w (brief_call context_report brand_hero) (hist s) = Returned content_brief ->
  exists s' emitted,
    run w s (generate_post_proposals lib context_report brand_hero count) =
      (s', Returned tt) /\
    out s' = out s ++ emitted /\
    Z.of_nat (List.length emitted) = count /\
    forall k tau post,
      nth_error emitted k = Some (tau, post) ->
      let proposal_num := Z.of_nat k + 1 in
      let c := post_call content_brief brand_hero proposal_num in
      exists before after t0 t1,
        let a := answer w c (before ++ [EvSpawn proposal_num t0]) in
        hist s' = before ++ EvSpawn proposal_num t0
                         :: EvCall c t0 t1 (is_raised a) :: after /\
        (forall response e,
            a = Returned response -> json_loads lib response = Raised e ->
            is_JSONDecodeError e = true ->
            PostResponse.content post =
              {| PostContent.text := ("Post proposal #" ++ str_int proposal_num)%string;
                 PostContent.hashtags := ["#fallback"];
                 PostContent.call_to_action := None |}) /\
        (forall e,
            a = Raised e \/
            (exists response,
                a = Returned response /\ json_loads lib response = Raised e /\
                is_JSONDecodeError e = false) \/
            (exists response content_json,
                a = Returned response /\ json_loads lib response = Returned content_json /\
                content_of_json lib content_json = Raised e) ->
            PostContent.hashtags (PostResponse.content post) = ["#error"] /\
            PostResponse.inspiration post =
              Some [("source", ("Error in proposal " ++ str_int proposal_num)%string);
                    ("error", exn_str e)]) /\
        (forall response content_json post_content,
            a = Returned response -> json_loads lib response = Returned content_json ->
            content_of_json lib content_json = Returned post_content ->
            PostResponse.content post = post_content).
Proof.
  intros Hcount Hbrief.
  rewrite generate_post_proposals_unfold, run_pbind, run_await,
    run_create_content_brief.
  cbv zeta. rewrite Hbrief.
  match goal with
  | |- context [run w ?s1 (proposals_loop _ _ _ _ _)] =>
      pose proof (run_proposals_loop_yield w lib content_brief brand_hero count s1)
        as Hloop;
      destruct (run w s1 (proposals_loop lib content_brief brand_hero count yield))
        as [s' [[] | e]]
  end; simpl in Hloop; [| contradiction].
  destruct Hloop as (emitted & Hout & Hlen & Hnth).
  exists s', emitted. split; [reflexivity |]. split; [exact Hout |].
  split; [rewrite Hlen; lia |].
  intros k tau post Hk.
  destruct (Hnth k tau post Hk)
    as (before & after & t0 & t1 & id & created_at & Hlog & Hpost).
  cbv zeta in Hlog, Hpost.
  exists before, after, t0, t1. split; [exact Hlog |].
  subst post. unfold proposal_of, proposal_content.
  split; [| split].
  - intros response e Ha Hloads Hclass. rewrite Ha, Hloads, Hclass. reflexivity.
  - intros e [Ha | [(response & Ha & Hloads & Hclass)
                   | (response & content_json & Ha & Hloads & Hcontent)]].
    + rewrite Ha. split; reflexivity.
    + rewrite Ha, Hloads, Hclass. split; reflexivity.
    + rewrite Ha, Hloads, Hcontent. split; reflexivity.
  - intros response content_json post_content Ha Hloads Hcontent.
    rewrite Ha, Hloads, Hcontent. reflexivity.
Qed.

(** ** Batches run one after the other *)

Lemma in_spawns (d : log) (num : Z) (tau : time) :
  In (num, tau) (spawns d) <-> In (EvSpawn num tau) d.
Proof.
  unfold spawns. rewrite in_flat_map. split.
  - intros (ev & Hev & Hin). destruct ev; simpl in Hin; try contradiction.
    destruct Hin as [Heq | []]. injection Heq as -> ->. exact Hev.
  - intros H. exists (EvSpawn num tau). split; [exact H | left; reflexivity].
Qed.

Lemma in_settles (d : log) (num : Z) (tau : time) :
  In (num, tau) (settles d) <-> In (EvSettle num tau) d.
Proof.
  unfold settles. rewrite in_flat_map. split.
  - intros (ev & Hev & Hin). destruct ev; simpl in Hin; try contradiction.
    destruct Hin as [Heq | []]. injection Heq as -> ->. exact Hev.
  - intros H. exists (EvSettle num tau). split; [exact H | left; reflexivity].
Qed.

Lemma spawn_within (lo hi : time) (d : log) (num : Z) (tau : time) :
  Forall (event_within lo hi) d -> In (num, tau) (spawns d) -> (lo <= tau <= hi)%nat.
Proof.
  intros Hd Hin. apply in_spawns in Hin.
  rewrite Forall_forall in Hd. exact (Hd _ Hin).
Qed.

Lemma settle_within (lo hi : time) (d : log) (num : Z) (tau : time) :
  Forall (event_within lo hi) d -> In (num, tau) (settles d) -> (lo <= tau <= hi)%nat.
Proof.
  intros Hd Hin. apply in_settles in Hin.
  rewrite Forall_forall in Hd. exact (Hd _ Hin).
Qed.

Lemma batch_numbers_range (n : Z) (j : nat) (num : Z) :
  In num (batch_numbers n (Z.of_nat j * 3)) ->
  Z.of_nat j * 3 + 1 <= num <= Z.min (Z.of_nat j * 3 + 3) n.
Proof.
  unfold batch_numbers. rewrite py_range_step_1, map_map, in_map_iff.
  intros (k & <- & Hk). apply in_seq in Hk. lia.
Qed.

Lemma batch_of_batch_numbers (n : Z) (j : nat) (num : Z) :
  In num (batch_numbers n (Z.of_nat j * 3)) -> batch_of num = Z.of_nat j.
Proof.
  intros H. apply batch_numbers_range in H. unfold batch_of.
  symmetry. apply Z.div_unique with (r := num - 1 - Z.of_nat j * 3); lia.
Qed.

Lemma map_fst_combine {A B : Type} (l : list A) (l' : list B) :
  List.length l = List.length l' -> map fst (combine l l') = l.
Proof.
  revert l'. induction l as [| a l IH]; intros [| b l'] H; simpl in *;
    try discriminate; try reflexivity.
  rewrite IH by lia. reflexivity.
Qed.

Lemma length_batch_numbers_le (n : Z) (j : nat) :
  (List.length (batch_numbers n (Z.of_nat j * 3)) <= 3)%nat.
Proof.
  unfold batch_numbers. rewrite length_map, length_py_range_1. lia.
Qed.

(** Gathering batch [j] after the first [j] batches gives the log of the
    first [j + 1] batches. *)
Lemma batch_facts_step {Y : Type} (w : World) (lib : Library) (content_brief : string)
    (brand_hero : BrandHero.t) (n : Z) (j : nat) (t_lo : time) (h0 : log)
    (s : state Y) (d : log) :
  (j < batch_count n)%nat ->
  hist s = h0 ++ d ->
  batch_facts n j t_lo (now s) d ->
  let s' := after_batch w lib content_brief brand_hero n (Z.of_nat j * 3) s in
  exists d', hist s' = h0 ++ d' /\ batch_facts n (S j) t_lo (now s') d'.
Proof.
  intros Hlt Hhist (Hlo & Hwithin & Hout & Hsp & Hse & Hlabels & Htog & Hbef & Hseq).
  unfold after_batch.
  destruct (run_tasks_log w (now s)
              (batch_tasks lib content_brief brand_hero n 3 (Z.of_nat j * 3)) (hist s))
    as (db & Hdb & Hlen & Hwithin_b & Hout_b & Hsp_b & Hse_b).
  destruct (run_tasks w (now s) (hist s) _) as [h rs].
  cbn [fst snd hist now] in *.
  pose proof (latest_ge_start (now s) rs) as Hlatest.
  assert (Hnums : map fst (batch_tasks lib content_brief brand_hero n 3 (Z.of_nat j * 3))
                  = batch_numbers n (Z.of_nat j * 3)).
  { rewrite batch_tasks_numbers, map_map. cbn [fst]. apply map_id. }
  assert (Hsize : (List.length (batch_tasks lib content_brief brand_hero n 3
                                  (Z.of_nat j * 3)) <= 3)%nat).
  { rewrite <- (length_map fst), Hnums. apply length_batch_numbers_le. }
  assert (Hsp_labels : map fst (spawns db) = batch_numbers n (Z.of_nat j * 3)).
  { rewrite Hsp_b, map_map. cbn [fst]. exact Hnums. }
  assert (Hse_labels : map fst (settles db) = batch_numbers n (Z.of_nat j * 3)).
  { rewrite Hse_b, Hnums. apply map_fst_combine.
    rewrite length_map, Hlen, <- Hnums, length_map. reflexivity. }
  assert (Hsp_new : forall num tau, In (num, tau) (spawns db) ->
                                    batch_of num = Z.of_nat j /\ tau = now s).
  { intros num tau Hin. split.
    - apply (batch_of_batch_numbers n j). rewrite <- Hsp_labels.
      apply in_map_iff. exists (num, tau). split; [reflexivity | exact Hin].
    - rewrite Hsp_b in Hin. apply in_map_iff in Hin.
      destruct Hin as (task & Heq & _). injection Heq as _ <-. reflexivity. }
  assert (Hse_new : forall num tau, In (num, tau) (settles db) ->
                                    batch_of num = Z.of_nat j /\ (now s <= tau)%nat).
  { intros num tau Hin. split.
    - apply (batch_of_batch_numbers n j). rewrite <- Hse_labels.
      apply in_map_iff. exists (num, tau). split; [reflexivity | exact Hin].
    - apply (settle_within _ _ _ _ _ Hwithin_b Hin). }
  assert (Hold_sp : forall num tau, In (num, tau) (spawns d) ->
                                    batch_of num < Z.of_nat j /\ (tau <= now s)%nat).
  { intros num tau Hin. split.
    - apply (Hlabels num tau). left. exact Hin.
    - apply (spawn_within _ _ _ _ _ Hwithin Hin). }
  assert (Hold_se : forall num tau, In (num, tau) (settles d) ->
                                    batch_of num < Z.of_nat j /\ (tau <= now s)%nat).
  { intros num tau Hin. split.
    - apply (Hlabels num tau). right. exact Hin.
    - apply (settle_within _ _ _ _ _ Hwithin Hin). }
  exists (d ++ db). split; [rewrite Hdb, Hhist, app_assoc; reflexivity |].
  unfold batch_facts, dispatched_together, dispatched_before_awaited,
    batches_sequential.
  rewrite spawns_app, settles_app, !map_app.
  split; [| split; [| split; [| split; [| split; [| split; [| split; [| split]]]]]]].
  - lia.
  - apply Forall_app. split.
    + eapply Forall_event_within_weaken; [| | exact Hwithin]; lia.
    + eapply Forall_event_within_weaken; [| | exact Hwithin_b]; lia.
  - intros tau. rewrite outstanding_app.
    destruct (Nat.lt_ge_cases tau (now s)) as [Hbefore | Hafter].
    + rewrite (outstanding_outside _ _ db tau Hwithin_b) by lia.
      specialize (Hout tau). lia.
    + rewrite (outstanding_outside _ _ d tau Hwithin) by lia.
      specialize (Hout_b tau). lia.
  - rewrite seq_S, map_app, concat_app. cbn [map List.concat Nat.add].
    rewrite app_nil_r, Hsp, Hsp_labels. reflexivity.
  - rewrite Hse, Hse_labels, Hsp_labels. reflexivity.
  - intros num tau [Hin | Hin]; apply in_app_or in Hin; destruct Hin as [Hin | Hin].
    + destruct (Hold_sp num tau Hin). lia.
    + destruct (Hsp_new num tau Hin). lia.
    + destruct (Hold_se num tau Hin). lia.
    + destruct (Hse_new num tau Hin). lia.
  - intros num tau num' tau' Hin Hin' Hsame.
    apply in_app_or in Hin. apply in_app_or in Hin'.
    destruct Hin as [Hin | Hin]; destruct Hin' as [Hin' | Hin'].
    + eapply Htog; eassumption.
    + destruct (Hold_sp num tau Hin). destruct (Hsp_new num' tau' Hin'). lia.
    + destruct (Hsp_new num tau Hin). destruct (Hold_sp num' tau' Hin'). lia.
    + destruct (Hsp_new num tau Hin). destruct (Hsp_new num' tau' Hin'). lia.
  - intros num tau num' tau' Hin Hin' Hsame.
    apply in_app_or in Hin. apply in_app_or in Hin'.
    destruct Hin as [Hin | Hin]; destruct Hin' as [Hin' | Hin'].
    + eapply Hbef; eassumption.
    + destruct (Hold_sp num tau Hin). destruct (Hse_new num' tau' Hin'). lia.
    + destruct (Hsp_new num tau Hin). destruct (Hold_se num' tau' Hin'). lia.
    + destruct (Hsp_new num tau Hin). destruct (Hse_new num' tau' Hin'). lia.
  - intros num tau num' tau' Hin Hin' Hless.
    apply in_app_or in Hin. apply in_app_or in Hin'.
    destruct Hin as [Hin | Hin]; destruct Hin' as [Hin' | Hin'].
    + eapply Hseq; eassumption.
    + destruct (Hold_se num tau Hin). destruct (Hsp_new num' tau' Hin'). lia.
    + destruct (Hse_new num tau Hin). destruct (Hold_sp num' tau' Hin'). lia.
    + destruct (Hse_new num tau Hin). destruct (Hsp_new num' tau' Hin'). lia.
Qed.

Lemma batches_step_3 (n : Z) :
  batches n = map (fun k => batch_numbers n (Z.of_nat k * 3)) (seq 0 (batch_count n)).
Proof. unfold batches. rewrite py_range_step_3, map_map. reflexivity. Qed.

(** The batches partition the proposals 1 to [n] into consecutive runs of
    three, the last one possibly shorter. *)
Lemma batches_partition (n : Z) :
  List.concat (batches n) = map (fun i => i + 1) (py_range 0 n 1) /\
  Forall (fun b => (1 <= List.length b <= 3)%nat) (batches n) /\
  (forall j b, nth_error (batches n) j = Some b ->
               (S j < List.length (batches n))%nat -> List.length b = 3%nat) /\
  (forall j b num, nth_error (batches n) j = Some b -> In num b ->
                   batch_of num = Z.of_nat j).
Proof.
  rewrite batches_step_3. split; [| split; [| split]].
  - rewrite concat_first_batches by lia. f_equal. f_equal.
    destruct (Z.le_gt_cases 0 n) as [Hn | Hn].
    + pose proof (batch_count_covers n Hn). lia.
    + unfold batch_count.
      pose proof (Z.div_mod (n + 3 - 1) 3 ltac:(lia)) as Hdm.
      pose proof (Z.mod_pos_bound (n + 3 - 1) 3 ltac:(lia)) as Hmod.
      lia.
  - apply Forall_forall. intros b Hb. apply in_map_iff in Hb.
    destruct Hb as (j & <- & Hj). apply in_seq in Hj.
    pose proof (batch_count_bounds n j ltac:(lia)).
    rewrite length_batch_numbers by lia. lia.
  - intros j b Hj Hlast. rewrite length_map, length_seq in Hlast.
    rewrite nth_error_map, nth_error_seq in Hj.
    destruct (Nat.ltb_spec j (batch_count n)); [| discriminate].
    simpl in Hj. injection Hj as <-.
    pose proof (batch_count_bounds n (S j) Hlast).
    rewrite length_batch_numbers by lia. lia.
  - intros j b num Hj Hnum.
    rewrite nth_error_map, nth_error_seq in Hj.
    destruct (Nat.ltb_spec j (batch_count n)); [| discriminate].
    simpl in Hj. injection Hj as <-.
    apply (batch_of_batch_numbers n j num Hnum).
Qed.

Lemma run_proposals_loop_log (w : World) (lib : Library) (content_brief : string)
    (brand_hero : BrandHero.t) (n : Z) (s : state PostResponse.t) :
  post_run (run w s (proposals_loop lib content_brief brand_hero n yield))
           (fun s' _ => exists d, hist s' = hist s ++ d /\
                                  batch_facts n (batch_count n) (now s) (now s') d)
           (fun _ _ => False).
Proof.
  apply (proposals_loop_batches w lib content_brief brand_hero n yield
           (fun j s' => exists d, hist s' = hist s ++ d /\
                                  batch_facts n j (now s) (now s') d)
           (fun j _ s' => exists d, hist s' = hist s ++ d /\
                                    batch_facts n (S j) (now s) (now s') d)).
  - intros j s0 Hlt (d & Hd & Hfacts).
    exact (batch_facts_step w lib content_brief brand_hero n j (now s) (hist s)
             s0 d Hlt Hd Hfacts).
  - intros j i post s0 _ _ _ Hinv. rewrite run_yield. exact Hinv.
  - intros j s0 _ Hinv. exact Hinv.
  - exists []. rewrite app_nil_r. split; [reflexivity |].
    unfold batch_facts, dispatched_together, dispatched_before_awaited,
      batches_sequential.
    simpl. repeat split; auto; try (intros; contradiction).
    intros num tau [[] | []].
Qed.

(** C6. Once the content brief is there, the proposals 1 to [count] are
    generated in consecutive batches of three, the last one possibly shorter.
    The tasks are dispatched in the order of their numbers and each of them
    settles. The tasks of a batch are dispatched at the same instant, none of
    them settles before they all are dispatched, no task of a later batch is
    dispatched before every task of an earlier batch has settled, and at no
    instant are more than three generation calls outstanding. *)
Theorem proposals_are_generated_in_sequential_batches (lib : Library) (w : World)
    (s : state PostResponse.t) (context_report : json) (brand_hero : BrandHero.t)
    (count : Z) (content_brief : string) :
  answer w (brief_call context_report brand_hero) (hist s) = Returned content_brief ->
  (List.concat (batches count) = map (fun i => i + 1) (py_range 0 count 1) /\
   Forall (fun b => (1 <= List.length b <= 3)%nat) (batches count) /\
   (forall j b, nth_error (batches count) j = Some b ->
                (S j < List.length (batches count))%nat -> List.length b = 3%nat) /\
   (forall j b num, nth_error (batches count) j = Some b -> In num b ->
                    batch_of num = Z.of_nat j)) /\
  exists d,
    hist (fst (run w s (generate_post_proposals lib context_report brand_hero count))) =
      hist s ++ d /\
    map fst (spawns d) = List.concat (batches count) /\
    map fst (settles d) = List.concat (batches count) /\
    dispatched_together d /\
    dispatched_before_awaited d /\
    batches_sequential d /\
    forall tau, (outstanding d tau <= 3)%nat.
Proof.
  intros Hbrief. split; [apply batches_partition |].
  rewrite generate_post_proposals_unfold, run_pbind, run_await,
    run_create_content_brief.
  cbv zeta. rewrite Hbrief.
  set (c := brief_call context_report brand_hero).
  set (t1 := (now s + latency w c (hist s))%nat).
  set (s1 := {| hist := hist s ++ [EvCall c (now s) t1 (is_raised (Returned content_brief))];
                now := t1; out := out s |}).
  pose proof (run_proposals_loop_log w lib content_brief brand_hero count s1) as Hloop.
  destruct (run w s1 (proposals_loop lib content_brief brand_hero count yield))
    as [s' [[] | e]]; simpl in Hloop; [| contradiction].
  destruct Hloop
    as (d & Hd & Hlo & Hwithin & Hout & Hsp & Hse & Hlabels & Htog & Hbef & Hseq).
  exists (EvCall c (now s) t1 false :: d). simpl fst.
  split; [rewrite Hd; subst s1; simpl; rewrite <- app_assoc; reflexivity |].
  rewrite batches_step_3.
  unfold dispatched_together, dispatched_before_awaited, batches_sequential in *.
  change (spawns (EvCall c (now s) t1 false :: d)) with (spawns d).
  change (settles (EvCall c (now s) t1 false :: d)) with (settles d).
  split; [exact Hsp |]. split; [rewrite Hse; exact Hsp |].
  split; [exact Htog |]. split; [exact Hbef |]. split; [exact Hseq |].
  intros tau.
  change (EvCall c (now s) t1 false :: d) with ([EvCall c (now s) t1 false] ++ d).
  rewrite outstanding_app.
  assert (Hone : (outstanding [EvCall c (now s) t1 false] tau <= 1)%nat).
  { unfold outstanding. simpl.
    match goal with |- context [if ?b then _ else _] => destruct b end; simpl; lia. }
  destruct (Nat.lt_ge_cases tau t1) as [Hbefore | Hafter].
  - rewrite (outstanding_outside _ _ d tau Hwithin) by (subst s1; simpl; lia). lia.
  - replace (outstanding [EvCall c (now s) t1 false] tau) with 0%nat;
      [apply Hout |].
    unfold outstanding. simpl.
    destruct (Nat.leb_spec (now s) tau); simpl; [| reflexivity].
    destruct (Nat.ltb_spec tau t1); [lia | reflexivity].
Qed.

Lemma proposals_are_generated_in_sequential_batches_witness :
  exists d,
    hist (fst (run (Sample.world "not json" (fun _ => 1%nat)) start
                 (generate_post_proposals Sample.lib JNull Sample.hero 4))) = d /\
    map fst (spawns d) = [1; 2; 3; 4] /\
    batches_sequential d /\
    forall tau, (outstanding d tau <= 3)%nat.
Proof.
  destruct (proposals_are_generated_in_sequential_batches Sample.lib
              (Sample.world "not json" (fun _ => 1%nat)) start JNull Sample.hero 4
              "not json" eq_refl)
    as (_ & d & Hd & Hsp & _ & _ & _ & Hseq & Hout).
  exists d. split; [exact Hd |]. split; [exact Hsp |]. split; [exact Hseq | exact Hout].
Defined.

Lemma generate_post_proposals_yields_every_proposal_witness :
  exists s' emitted,
    run (Sample.world "not json" (fun _ => 1%nat)) start
        (generate_post_proposals Sample.lib JNull Sample.hero 4) = (s', Returned tt) /\
    out s' = emitted /\ Z.of_nat (List.length emitted) = 4.
Proof.
  destruct (generate_post_proposals_yields_every_proposal Sample.lib
              (Sample.world "not json" (fun _ => 1%nat)) start JNull Sample.hero 4
              "not json" ltac:(lia) eq_refl)
    as (s' & emitted & Hrun & Hout & Hlen & _).
  exists s', emitted. split; [exact Hrun |]. split; [exact Hout | exact Hlen].
Defined.

(** ** The pipeline of a request *)

Lemma for_each_proposals_loop {Y Y' : Type} (lib : Library) (content_brief : string)
    (brand_hero : BrandHero.t) (n : Z) (body : PostResponse.t -> Prog Y unit)
    (body' : Y -> Prog Y' unit) :
  for_each (proposals_loop lib content_brief brand_hero n body) body' =
  proposals_loop lib content_brief brand_hero n (fun post => for_each (body post) body').
Proof.
  unfold proposals_loop. rewrite for_each_for_in. apply for_in_ext.
  intros batch_start. rewrite for_each_pbind, for_each_gather.
  f_equal. apply functional_extensionality. intros batch_results.
  apply for_each_for_in.
Qed.

Lemma process_request_unfold (lib : Library) (settings : Settings.t)
    (request : PostGenerationRequest.t) :
  process_request lib settings request =
  pipeline lib settings request
    (process_proposal
       (PostGenerationRequest.brand_hero (_apply_request_guardrails settings request))).
Proof.
  unfold process_request, pipeline. rewrite ptry_reraise. cbv zeta.
  f_equal. apply functional_extensionality. intros context_report.
  rewrite for_each_generate_post_proposals, pbind_assoc. reflexivity.
Qed.

Lemma for_each_pipeline {Y Y' : Type} (lib : Library) (settings : Settings.t)
    (request : PostGenerationRequest.t) (body : PostResponse.t -> Prog Y unit)
    (body' : Y -> Prog Y' unit) :
  for_each (pipeline lib settings request body) body' =
  pipeline lib settings request (fun post => for_each (body post) body').
Proof.
  unfold pipeline. cbv zeta. rewrite for_each_pbind, for_each_await.
  f_equal. apply functional_extensionality. intros context_report.
  rewrite for_each_pbind, for_each_await.
  f_equal. apply functional_extensionality. intros content_brief.
  rewrite for_each_pbind, for_each_proposals_loop. reflexivity.
Qed.

Lemma for_each_process_proposal {Y : Type} (brand_hero : BrandHero.t)
    (post_proposal : PostResponse.t) (body : PostResponse.t -> Prog Y unit) :
  for_each (process_proposal brand_hero post_proposal) body =
  (post_image <- await (generate_image brand_hero (PostResponse.content post_proposal)) ;;
   body (_apply_post_guardrails
           (PostResponse.set_image post_proposal (Some post_image))))%prog.
Proof.
  unfold process_proposal. rewrite for_each_pbind, for_each_await.
  f_equal. apply functional_extensionality. intros post_image.
  apply for_each_yield.
Qed.

(** ** Image synthesis and emission alternate *)

Lemma image_calls_app (d1 d2 : log) :
  image_calls (d1 ++ d2) = image_calls d1 ++ image_calls d2.
Proof. unfold image_calls. apply flat_map_app. Qed.

Lemma in_order_weaken (lo lo' : time) (calls : list (time * time)) (hi : time) :
  (lo' <= lo)%nat -> in_order lo calls hi -> calls <> [] -> in_order lo' calls hi.
Proof.
  intros Hlo H Hne. destruct calls as [| [s e] rest]; [congruence |].
  destruct H as (H1 & H2 & H3). split; [lia |]. split; [exact H2 | exact H3].
Qed.

Lemma run_tasks_batch_image_calls (w : World) (lib : Library) (content_brief : string)
    (brand_hero : BrandHero.t) (t0 : time) (nums : list Z) :
  forall h,
    image_calls (fst (run_tasks w t0 h
                        (map (fun num => (num, _generate_post_proposal lib content_brief
                                                 brand_hero num)) nums))) =
    image_calls h.
Proof.
  induction nums as [| num nums IH]; intros h; cbn [map run_tasks].
  - reflexivity.
  - rewrite run_generate_post_proposal. cbv zeta.
    match goal with
    | |- context [run_tasks w t0 ?h' ?l] =>
        specialize (IH h'); destruct (run_tasks w t0 h' l) as [h2 rs]
    end.
    cbn [fst] in *. rewrite IH. rewrite !image_calls_app. simpl.
    rewrite !app_nil_r. reflexivity.
Qed.

Lemma after_batch_image_calls {Y : Type} (w : World) (lib : Library)
    (content_brief : string) (brand_hero : BrandHero.t) (n batch_start : Z)
    (s : state Y) :
  image_calls (hist (after_batch w lib content_brief brand_hero n batch_start s)) =
    image_calls (hist s) /\
  (now s <= now (after_batch w lib content_brief brand_hero n batch_start s))%nat.
Proof.
  unfold after_batch.
  pose proof (run_tasks_batch_image_calls w lib content_brief brand_hero (now s)
                (batch_numbers n batch_start) (hist s)) as H.
  rewrite <- batch_tasks_numbers in H.
  destruct (run_tasks w (now s) (hist s) _) as [h rs]. simpl in *.
  split; [exact H | apply latest_ge_start].
Qed.

(** Processing one proposal: its image is synthesised from the instant the
    proposal is handed over, and the proposal is yielded when the synthesis
    has returned. *)
Lemma run_process_proposal (w : World) (brand_hero : BrandHero.t)
    (post_proposal : PostResponse.t) (s : state PostResponse.t) :
  exists d synthesis post t',
    run w s (process_proposal brand_hero post_proposal) =
      ({| hist := hist s ++ d; now := t'; out := out s ++ [(t', post)] |},
       Returned tt) /\
    image_calls d = synthesis /\ synthesis <> [] /\
    in_order (now s) synthesis t'.
Proof.
  unfold process_proposal. rewrite run_pbind, run_await, run_generate_image.
  cbv zeta.
  set (c1 := generate_response "ImageAgent"
               (ImagePrompt brand_hero (PostResponse.content post_proposal)) (7 # 10)).
  destruct (answer w c1 (hist s)) as [response | e].
  - rewrite run_yield. cbn [fst snd hist now out].
    eexists [_; _; _], _, _, _. rewrite <- !app_assoc. cbn [app].
    split; [reflexivity |]. split; [reflexivity |].
    split; [discriminate |]. simpl. lia.
  - rewrite run_yield. cbn [fst snd hist now out].
    eexists [_], _, _, _.
    split; [reflexivity |]. split; [reflexivity |].
    split; [discriminate |]. simpl. lia.
Qed.

Lemma run_proposals_loop_processed (w : World) (lib : Library) (content_brief : string)
    (brand_hero : BrandHero.t) (n : Z) (s : state PostResponse.t) :
  (exists last, processed 0%nat (image_calls (hist s)) (map fst (out s)) last /\
                (last <= now s)%nat) ->
  post_run (run w s (proposals_loop lib content_brief brand_hero n
                       (process_proposal brand_hero)))
           (fun s' _ =>
              exists last, processed 0%nat (image_calls (hist s')) (map fst (out s')) last /\
                           (last <= now s')%nat)
           (fun _ _ => False).
Proof.
  intros Hs.
  apply (proposals_loop_invariant w lib content_brief brand_hero n
           (process_proposal brand_hero)
           (fun _ s' =>
              exists last, processed 0%nat (image_calls (hist s')) (map fst (out s')) last /\
                           (last <= now s')%nat)); [| | exact Hs].
  - intros k s0 batch_start _ _ (last & Hproc & Hlast).
    destruct (after_batch_image_calls w lib content_brief brand_hero n batch_start s0)
      as [Hcalls Hnow].
    exists last. rewrite Hcalls, out_after_batch. split; [exact Hproc | lia].
  - intros k post s0 _ _ (last & Hproc & Hlast).
    destruct (run_process_proposal w brand_hero post s0)
      as (d & synthesis & post' & t' & Hrun & Hcalls & Hne & Horder).
    rewrite Hrun. cbn [post_run hist now out].
    exists t'. split; [| lia].
    rewrite image_calls_app, map_app, Hcalls. cbn [map fst].
    apply (processed_next 0%nat _ _ last); [exact Hproc | exact Hne |].
    apply (in_order_weaken (now s0)); assumption.
Qed.

(** C9, as amended. The proposals of a request are processed one at a time:
    the image synthesis calls of the log split into one non-empty run per
    emitted proposal, in the order of emission; the first call of a run is not
    issued before the previous proposal was emitted, the calls of a run follow
    one another, and the proposal is emitted only when the last call of its
    run has answered. So a proposal waits for the image synthesis of every
    proposal emitted before it. *)
Theorem proposals_are_processed_one_at_a_time (lib : Library) (settings : Settings.t)
    (w : World) (request : PostGenerationRequest.t) :
  exists last,
    processed 0%nat
      (image_calls (hist (fst (run w start (process_request lib settings request)))))
      (map fst (out (fst (run w start (process_request lib settings request)))))
      last.
Proof.
  rewrite process_request_unfold. unfold pipeline. cbv zeta.
  rewrite run_pbind, run_await, run_generate_context_report. cbv zeta.
  destruct (json_dumps _) as [context_json | e];
    [| exists 0%nat; cbn; apply processed_none].
  destruct (report_of lib _) as [context_report | e];
    [| exists 0%nat; cbn; apply processed_none].
  rewrite run_pbind, run_await, run_create_content_brief. cbv zeta.
  cbn [hist now out].
  match goal with
  | |- context [answer w ?c ?h] => destruct (answer w c h) as [content_brief | e]
  end; [| exists 0%nat; cbn; apply processed_none].
  rewrite run_pbind.
  match goal with
  | |- context [run w ?s1 (proposals_loop _ _ ?bh ?n _)] =>
      pose proof (run_proposals_loop_processed w lib content_brief bh n s1) as Hloop;
      destruct (run w s1 (proposals_loop lib content_brief bh n (process_proposal bh)))
        as [s' [[] | e]]
  end.
  - cbn [run fst]. cbn [post_run] in Hloop.
    destruct Hloop as (last & Hproc & _).
    + exists 0%nat. cbn. split; [apply processed_none | lia].
    + exists last. exact Hproc.
  - cbn [post_run] in Hloop. exfalso. apply Hloop.
    exists 0%nat. cbn. split; [apply processed_none | lia].
Qed.

Lemma proposals_are_processed_one_at_a_time_example :
  map fst (out (fst (run (Sample.world "not json" (fun _ => 1%nat)) start
                       (process_request Sample.lib default_settings (Sample.request 10)))))
  = [8; 11; 14; 20; 23; 26; 32; 35; 38; 44]%nat.
Proof. vm_compute. reflexivity. Qed.

(** C9, as the specification states it, fails: when the image agent takes
    100 ticks for the first proposal, the second proposal, generated in the
    same batch and whose own image takes no time, is emitted at the instant
    100 and not at the instant 0. *)
Lemma slow_image_delays_the_next_proposal : ~ image_synthesis_delays_no_other_proposal.
Proof.
  intros H.
  assert (Hfast : exists post,
             nth_error (emissions Sample.lib default_settings world_instant
                          (Sample.request 10)) 1 = Some (0%nat, post) /\
             PostContent.text (PostResponse.content post) = "Post proposal #2").
  { vm_compute. eexists. split; reflexivity. }
  assert (Hslow : exists post,
             nth_error (emissions Sample.lib default_settings world_slow_first_image
                          (Sample.request 10)) 1 = Some (100%nat, post)).
  { vm_compute. eexists. reflexivity. }
  destruct Hfast as (post & Hpost & Htext). destruct Hslow as (post' & Hpost').
  assert (Habsurd : 100%nat = 0%nat).
  { apply (H Sample.lib default_settings (Sample.request 10)
             world_instant world_slow_first_image "Post proposal #1" 1%nat
             0%nat 100%nat post post').
    - intros c h. destruct c; reflexivity.
    - intros c h Hc. unfold world_slow_first_image, world_instant. simpl.
      rewrite Hc. reflexivity.
    - exact Hpost.
    - exact Hpost'.
    - rewrite Htext. vm_compute. discriminate. }
  discriminate Habsurd.
Qed.

(** ** Every proposal is emitted with an image *)

Lemma synthesised_extends (w : World) (h d : log) (brand_hero : BrandHero.t)
    (post_content : PostContent.t) (image : PostImage.t) :
  synthesised w h brand_hero post_content image ->
  synthesised w (h ++ d) brand_hero post_content image.
Proof.
  intros (before & after & t0 & t1 & scene_description & url & Hh & Ha & Himage).
  exists before, (after ++ d), t0, t1, scene_description, url. cbv zeta in *.
  split; [| split; assumption]. rewrite Hh, <- app_assoc. reflexivity.
Qed.

(** Processing one proposal: the proposal is yielded with an image, which is
    the placeholder or what the image call of that proposal answered. *)
Lemma run_process_proposal_image (w : World) (brand_hero : BrandHero.t)
    (post_proposal : PostResponse.t) (s : state PostResponse.t) :
  exists s' image,
    run w s (process_proposal brand_hero post_proposal) = (s', Returned tt) /\
    out s' = out s ++ [(now s', _apply_post_guardrails
                                  (PostResponse.set_image post_proposal (Some image)))] /\
    (exists d, hist s' = hist s ++ d) /\
    (image = placeholder_image \/
     synthesised w (hist s') brand_hero (PostResponse.content post_proposal) image).
Proof.
  unfold process_proposal. rewrite run_pbind, run_await, run_generate_image.
  cbv zeta.
  set (c1 := generate_response "ImageAgent"
               (ImagePrompt brand_hero (PostResponse.content post_proposal)) (7 # 10)).
  destruct (answer w c1 (hist s)) as [response | e].
  - rewrite run_yield. cbn [hist now out].
    match goal with
    | |- context [post_image_of _ _ ?scene (answer w ?c3 ?h)] =>
        set (scene_description := scene); set (h2 := h);
        destruct (answer w _ h2) as [[url |] | e] eqn:Ha3
    end; cbn [post_image_of is_raised].
    + eexists _, _. split; [reflexivity |]. cbn [out now hist].
      split; [reflexivity |]. split.
      * subst h2. rewrite <- !app_assoc. eexists. reflexivity.
      * right. eexists h2, [], _, _, scene_description, url. cbv zeta.
        split; [reflexivity |]. split; [exact Ha3 | reflexivity].
    + eexists _, _. split; [reflexivity |]. cbn [out now hist].
      split; [reflexivity |]. split; [| left; reflexivity].
      subst h2. rewrite <- !app_assoc. eexists. reflexivity.
    + eexists _, _. split; [reflexivity |]. cbn [out now hist].
      split; [reflexivity |]. split; [| left; reflexivity].
      subst h2. rewrite <- !app_assoc. eexists. reflexivity.
  - rewrite run_yield. cbn [hist now out].
    eexists _, _. split; [reflexivity |]. cbn [out now hist].
    split; [reflexivity |]. split; [| left; reflexivity].
    eexists. reflexivity.
Qed.

(** The loop of the orchestrator: the proposal emitted in position [i] is
    the one task [i + 1] returned, with its image. *)
Lemma run_proposals_loop_images (w : World) (lib : Library) (content_brief : string)
    (brand_hero : BrandHero.t) (n : Z) (s : state PostResponse.t) :
  post_run (run w s (proposals_loop lib content_brief brand_hero n
                       (process_proposal brand_hero)))
           (fun s' _ =>
              exists emitted,
                out s' = out s ++ emitted /\
                forall i tau post,
                  nth_error emitted i = Some (tau, post) ->
                  exists proposal image,
                    produced w lib content_brief brand_hero (hist s')
                             (Z.of_nat i + 1) proposal /\
                    post = _apply_post_guardrails
                             (PostResponse.set_image proposal (Some image)) /\
                    (image = placeholder_image \/
                     synthesised w (hist s') brand_hero
                                 (PostResponse.content proposal) image))
           (fun _ _ => False).
Proof.
  set (Q := fun (h : log) (i : nat) (post : PostResponse.t) =>
              exists proposal image,
                produced w lib content_brief brand_hero h (Z.of_nat i + 1) proposal /\
                post = _apply_post_guardrails
                         (PostResponse.set_image proposal (Some image)) /\
                (image = placeholder_image \/
                 synthesised w h brand_hero (PostResponse.content proposal) image)).
  assert (HQ : forall h d i post, Q h i post -> Q (h ++ d) i post).
  { intros h d i post (proposal & image & Hprod & Hpost & Himage).
    exists proposal, image. split; [apply produced_extends; exact Hprod |].
    split; [exact Hpost |].
    destruct Himage as [Himage | Himage]; [left; exact Himage |].
    right. apply synthesised_extends. exact Himage. }
  assert (Hloop :
    post_run (run w s (proposals_loop lib content_brief brand_hero n
                         (process_proposal brand_hero)))
             (fun s' _ =>
                exists emitted,
                  out s' = out s ++ emitted /\
                  List.length emitted = Z.to_nat n /\
                  forall i tau post,
                    nth_error emitted i = Some (tau, post) -> Q (hist s') i post)
             (fun _ _ => False)).
  { apply (proposals_loop_invariant w lib content_brief brand_hero n
             (process_proposal brand_hero)
             (fun k s' =>
                exists emitted,
                  out s' = out s ++ emitted /\
                  List.length emitted = k /\
                  forall i tau post,
                    nth_error emitted i = Some (tau, post) -> Q (hist s') i post)).
    - intros k s0 batch_start _ _ (emitted & Hout & Hlen & Hnth).
      exists emitted. rewrite out_after_batch. split; [exact Hout |].
      split; [exact Hlen |]. intros i tau post Hi.
      destruct (hist_after_batch w lib content_brief brand_hero n batch_start s0)
        as (d & Hd).
      rewrite Hd. apply HQ. eapply Hnth. exact Hi.
    - intros k proposal s0 Hprod _ (emitted & Hout & Hlen & Hnth).
      destruct (run_process_proposal_image w brand_hero proposal s0)
        as (s1 & image & Hrun & Hout1 & (d & Hd) & Himage).
      rewrite Hrun. cbn [post_run].
      eexists (emitted ++ [_]). split; [| split].
      + rewrite Hout1, Hout, app_assoc. reflexivity.
      + rewrite length_app, Hlen. simpl. lia.
      + intros i tau post Hi.
        destruct (Nat.lt_ge_cases i (List.length emitted)) as [Hlt | Hge].
        * rewrite nth_error_app1 in Hi by exact Hlt.
          rewrite Hd. apply HQ. eapply Hnth. exact Hi.
        * rewrite nth_error_app2 in Hi by exact Hge.
          destruct (i - List.length emitted)%nat as [| m] eqn:Em; simpl in Hi.
          -- injection Hi as _ <-. replace i with k by lia.
             exists proposal, image. split; [| split; [reflexivity | exact Himage]].
             rewrite Hd. apply produced_extends. exact Hprod.
          -- destruct m; discriminate.
    - exists []. rewrite app_nil_r. split; [reflexivity |]. split; [reflexivity |].
      intros [| i] tau post Hi; discriminate. }
  destruct (run w s (proposals_loop lib content_brief brand_hero n
                       (process_proposal brand_hero))) as [s' [[] | e]];
    cbn [post_run] in *; [| exact Hloop].
  destruct Hloop as (emitted & Hout & _ & Hnth).
  exists emitted. split; [exact Hout | exact Hnth].
Qed.

(** C10. Every proposal that [process_request] yields, in any world and for
    any request, carries an image, and the image is the one made for it. The
    proposal yielded in position [k] is the proposal task [k + 1] returned,
    with the image put in and the post guardrail applied; its [image] field is
    therefore not [None], and the image in it is the fixed placeholder, or it
    is what the image call made for the content of that proposal answered: the
    locator of that answer, with the scene description and the prompt of that
    call. *)
Theorem every_emitted_proposal_has_an_image (lib : Library) (settings : Settings.t)
    (w : World) (request : PostGenerationRequest.t) :
  let validated := _apply_request_guardrails settings request in
  let brand_hero := PostGenerationRequest.brand_hero validated in
  let s' := fst (run w start (process_request lib settings request)) in
  forall k tau post,
    nth_error (out s') k = Some (tau, post) ->
    exists content_brief proposal image,
      produced w lib content_brief brand_hero (hist s') (Z.of_nat k + 1) proposal /\
      post = _apply_post_guardrails (PostResponse.set_image proposal (Some image)) /\
      PostResponse.image post = Some image /\
      compliant post /\
      (image = placeholder_image \/
       synthesised w (hist s') brand_hero (PostResponse.content proposal) image).
Proof.
  cbv zeta. rewrite process_request_unfold. unfold pipeline. cbv zeta.
  set (validated := _apply_request_guardrails settings request).
  rewrite run_pbind, run_await, run_generate_context_report. cbv zeta.
  destruct (json_dumps _) as [context_json | e];
    [| intros [| k] tau post Hk; discriminate].
  destruct (report_of lib _) as [context_report | e];
    [| intros [| k] tau post Hk; discriminate].
  rewrite run_pbind, run_await, run_create_content_brief. cbv zeta.
  cbn [hist now out].
  match goal with
  | |- context [answer w ?c ?h] => destruct (answer w c h) as [content_brief | e]
  end; [| intros [| k] tau post Hk; discriminate].
  rewrite run_pbind.
  match goal with
  | |- context [run w ?s1 (proposals_loop _ _ ?bh ?n _)] =>
      pose proof (run_proposals_loop_images w lib content_brief bh n s1) as Hloop;
      destruct (run w s1 (proposals_loop lib content_brief bh n (process_proposal bh)))
        as [s' [[] | e]]
  end; cbn [post_run] in Hloop; [| contradiction].
  cbn [run fst]. destruct Hloop as (emitted & Hout & Hnth).
  cbn [out app] in Hout. rewrite Hout.
  intros k tau post Hk.
  destruct (Hnth k tau post Hk) as (proposal & image & Hprod & Hpost & Himage).
  exists content_brief, proposal, image.
  split; [exact Hprod |]. split; [exact Hpost |].
  split; [| split; [| exact Himage]].
  - rewrite Hpost, apply_post_guardrails_image. reflexivity.
  - rewrite Hpost. apply apply_post_guardrails_compliant.
Qed.

Lemma every_emitted_proposal_has_an_image_witness :
  exists tau post image,
    nth_error (out (fst (run (Sample.world "{}" (fun _ => 1%nat)) start
                           (process_request Sample.lib default_settings
                              (Sample.request 10))))) 0 = Some (tau, post) /\
    PostResponse.image post = Some image /\
    PostImage.image_url image = "https://images.example/1.png".
Proof.
  assert (H : exists tau post,
             nth_error (out (fst (run (Sample.world "{}" (fun _ => 1%nat)) start
                                    (process_request Sample.lib default_settings
                                       (Sample.request 10))))) 0 = Some (tau, post) /\
             option_map PostImage.image_url (PostResponse.image post) =
               Some "https://images.example/1.png").
  { vm_compute. eexists _, _. split; reflexivity. }
  destruct H as (tau & post & H & Hurl).
  destruct (every_emitted_proposal_has_an_image Sample.lib default_settings
              (Sample.world "{}" (fun _ => 1%nat)) (Sample.request 10)
              0%nat tau post H)
    as (content_brief & proposal & image & _ & _ & Himage & _).
  exists tau, post, image. split; [exact H |]. split; [exact Himage |].
  rewrite Himage in Hurl. simpl in Hurl. injection Hurl as ->. reflexivity.
Defined.

(** An image generator that fails gives every proposal the placeholder. *)
Lemma every_emitted_proposal_has_an_image_example :
  map (fun x => PostResponse.image (snd x))
      (out (fst (run Sample.world_no_locator start
                   (process_request Sample.lib default_settings (Sample.request 10))))) =
  repeat (Some placeholder_image) 10.
Proof. vm_compute. reflexivity. Qed.

(** ** The stream of a request *)

Lemma for_each_process_request_stream (lib : Library) (settings : Settings.t)
    (request : PostGenerationRequest.t) :
  for_each (process_request lib settings request)
           (fun post => (line <- dumps (in_progress_response post) ;;
                         yield line)%prog) =
  pipeline lib settings request
    (stream_proposal
       (PostGenerationRequest.brand_hero (_apply_request_guardrails settings request))).
Proof.
  rewrite process_request_unfold, for_each_pipeline.
  f_equal. apply functional_extensionality. intros post.
  apply for_each_process_proposal.
Qed.

(** A proposal never makes it into the stream: its image is synthesised,
    and then [json.dumps] raises on the proposal. *)
Lemma run_stream_proposal (w : World) (brand_hero : BrandHero.t)
    (post_proposal : PostResponse.t) (s : state json_line) :
  exists s',
    run w s (stream_proposal brand_hero post_proposal) = (s', Raised datetime_error) /\
    out s' = out s.
Proof.
  unfold stream_proposal. rewrite run_pbind, run_await.
  destruct (generate_image_returns w (hist s) (now s) brand_hero
              (PostResponse.content post_proposal))
    as (h' & t' & image & Hrun).
  rewrite Hrun, run_pbind. unfold dumps. rewrite json_dumps_in_progress.
  cbn [run]. eexists. split; reflexivity.
Qed.

(** The requests of the route: nothing is sent while the pipeline runs. It
    returns only when there is no proposal to generate; when it raises after a
    proposal task was dispatched, it raises the exception of [json.dumps]. *)
Lemma run_stream_pipeline (lib : Library) (settings : Settings.t) (w : World)
    (request : PostGenerationRequest.t) (s : state json_line) :
  let validated_request := _apply_request_guardrails settings request in
  let n := PostGenerationRequest.num_proposals validated_request in
  post_run (run w s (pipeline lib settings request
                       (stream_proposal
                          (PostGenerationRequest.brand_hero validated_request))))
           (fun s' r =>
              r = validated_request /\ n <= 0 /\ out s' = out s /\
              spawns (hist s') = spawns (hist s))
           (fun s' e =>
              out s' = out s /\
              (e = datetime_error \/ spawns (hist s') = spawns (hist s))).
Proof.
  intros validated_request n. unfold pipeline. cbv zeta.
  fold validated_request. fold n.
  rewrite run_pbind, run_await, run_generate_context_report. cbv zeta.
  destruct (json_dumps _) as [context_json | e].
  2: { cbn [post_run out hist]. split; [reflexivity | right; reflexivity]. }
  destruct (report_of lib _) as [context_report | e].
  2: { cbn [post_run out hist]. split; [reflexivity | right].
       rewrite spawns_app. cbn. rewrite app_nil_r. reflexivity. }
  rewrite run_pbind, run_await, run_create_content_brief. cbv zeta.
  cbn [hist now out].
  set (cb := brief_call context_report
               (PostGenerationRequest.brand_hero validated_request)).
  destruct (answer w cb _) as [content_brief | e].
  2: { cbn [post_run out hist]. split; [reflexivity | right].
       rewrite !spawns_app. cbn. rewrite !app_nil_r. reflexivity. }
  rewrite run_pbind.
  destruct (Z.le_gt_cases n 0) as [Hn | Hn].
  - unfold proposals_loop. rewrite (py_range_empty n Hn).
    cbn [for_in run post_run hist out].
    split; [reflexivity |]. split; [exact Hn |]. split; [reflexivity |].
    rewrite !spawns_app. cbn. rewrite !app_nil_r. reflexivity.
  - match goal with
    | |- context [run w ?s1 (proposals_loop _ _ ?bh _ ?body)] =>
        pose proof (proposals_loop_invariant w lib content_brief bh n body
                      (fun k s' => k = 0%nat /\ out s' = out s)
                      (fun s' e => out s' = out s /\ e = datetime_error)) as Hloop;
        specialize (fun Hb Hy => Hloop Hb Hy s1 (conj eq_refl eq_refl));
        destruct (run w s1 (proposals_loop lib content_brief bh n body))
          as [s' [[] | e]]
    end; cbn [post_run] in Hloop.
    + exfalso.
      assert (H0 : Z.to_nat n = 0%nat /\ out s' = out s).
      { apply Hloop.
        - intros k s0 batch_start _ _ [Hk Hout].
          split; [exact Hk | rewrite out_after_batch; exact Hout].
        - intros k post s0 _ _ [Hk Hout].
          destruct (run_stream_proposal w
                      (PostGenerationRequest.brand_hero validated_request) post s0)
            as (s2 & Hrun & Hout2).
          rewrite Hrun. cbn [post_run]. split; [congruence | reflexivity]. }
      lia.
    + cbn [post_run].
      assert (H0 : out s' = out s /\ e = datetime_error).
      { apply Hloop.
        - intros k s0 batch_start _ _ [Hk Hout].
          split; [exact Hk | rewrite out_after_batch; exact Hout].
        - intros k post s0 _ _ [Hk Hout].
          destruct (run_stream_proposal w
                      (PostGenerationRequest.brand_hero validated_request) post s0)
            as (s2 & Hrun & Hout2).
          rewrite Hrun. cbn [post_run]. split; [congruence | reflexivity]. }
      destruct H0 as [Hout ->]. split; [exact Hout | left; reflexivity].
Qed.

(** C4. The stream of [generate_posts_stream] never carries a proposal.
    Whatever the request and the world, the generator returns after one of
    three streams: the [error] event alone, when [OrchestratorAgent()] raised
    (there is no [started] event then); the [started] event followed by an
    [error] event; or, only when the request asks for no proposal once the
    request guardrail has been applied, the [started] event followed by the
    [completed] event. As soon as a proposal task was dispatched, the stream
    is [started] followed by the [error] event of [json.dumps]: the first
    proposal that reaches the route has a [created_at], which is a [datetime]
    and has no JSON form. *)
Theorem stream_never_carries_a_proposal (lib : Library) (settings : Settings.t)
    (w : World) (request : PostGenerationRequest.t) :
  let n := PostGenerationRequest.num_proposals
             (_apply_request_guardrails settings request) in
  exists s',
    run w start (generate_posts_stream lib settings request) = (s', Returned tt) /\
    ((exists e, answer w OrchestratorAgent_init [] = Raised e /\
                events (out s') = [error_response e]) \/
     (exists e, events (out s') = [started_response; error_response e]) \/
     (n <= 0 /\ events (out s') = [started_response; completed_response n])) /\
    (spawns (hist s') <> [] ->
     events (out s') = [started_response; error_response datetime_error]).
Proof.
  cbv zeta. unfold generate_posts_stream.
  rewrite run_ptry, run_pbind, run_await. unfold OrchestratorAgent_new.
  cbn [run_coro start hist now out].
  change (failed OrchestratorAgent_init (answer w OrchestratorAgent_init []))
    with (is_raised (answer w OrchestratorAgent_init [])).
  destruct (answer w OrchestratorAgent_init []) as [[] | e0]; cbn [of_result run_coro].
  - rewrite run_pbind. unfold dumps at 1.
    rewrite json_dumps_without_post by reflexivity. cbn [run].
    rewrite run_pbind, run_yield, run_pbind, for_each_process_request_stream.
    match goal with
    | |- context [run w ?s1 (pipeline _ _ _ _)] =>
        pose proof (run_stream_pipeline lib settings w request s1) as Hpipe;
        cbv zeta in Hpipe;
        destruct (run w s1 (pipeline lib settings request
                              (stream_proposal
                                 (PostGenerationRequest.brand_hero
                                    (_apply_request_guardrails settings request)))))
          as [s2 [r | e]]
    end; cbn [post_run out hist] in Hpipe.
    + destruct Hpipe as (-> & Hn & Hout & Hspawns).
      rewrite run_pbind. unfold dumps.
      rewrite json_dumps_without_post by reflexivity. cbn [run]. rewrite run_yield.
      eexists. split; [reflexivity |]. unfold events. cbn [out hist]. split.
      * right. right. split; [exact Hn |]. rewrite map_app, Hout. reflexivity.
      * intros Hne. exfalso. apply Hne. rewrite Hspawns. reflexivity.
    + destruct Hpipe as (Hout & Hcause).
      rewrite run_pbind. unfold dumps.
      rewrite json_dumps_without_post by reflexivity. cbn [run]. rewrite run_yield.
      eexists. split; [reflexivity |]. unfold events. cbn [out hist]. split.
      * right. left. exists e. rewrite map_app, Hout. reflexivity.
      * intros Hne. destruct Hcause as [-> | Hspawns].
        -- rewrite map_app, Hout. reflexivity.
        -- exfalso. apply Hne. rewrite Hspawns. reflexivity.
  - rewrite run_pbind. unfold dumps.
    rewrite json_dumps_without_post by reflexivity. cbn [run]. rewrite run_yield.
    eexists. split; [reflexivity |]. unfold events. cbn [out hist]. split.
    + left. exists e0. split; reflexivity.
    + intros Hne. exfalso. apply Hne. reflexivity.
Qed.

(** When every service answers and the answers parse, proposal tasks are
    dispatched, and the stream of a request for 12 proposals is [started],
    [error]. *)
Lemma stream_never_carries_a_proposal_witness :
  events (out (fst (run (Sample.world "{}" (fun _ => 1%nat)) start
                      (generate_posts_stream Sample.lib default_settings
                         (Sample.request 12))))) =
  [started_response; error_response datetime_error].
Proof.
  destruct (stream_never_carries_a_proposal Sample.lib default_settings
              (Sample.world "{}" (fun _ => 1%nat)) (Sample.request 12))
    as (s' & Hrun & _ & Hdispatched).
  assert (Hs : s' = fst (run (Sample.world "{}" (fun _ => 1%nat)) start
                           (generate_posts_stream Sample.lib default_settings
                              (Sample.request 12))))
    by (rewrite Hrun; reflexivity).
  rewrite <- Hs. apply Hdispatched. rewrite Hs. vm_compute. discriminate.
Defined.

Lemma stream_of_a_successful_request_example :
  events (out (fst (run (Sample.world "{}" (fun _ => 1%nat)) start
                      (generate_posts_stream Sample.lib default_settings
                         (Sample.request 12))))) =
  [started_response; error_response datetime_error].
Proof. vm_compute. reflexivity. Qed.

Lemma stream_without_agents_example :
  events (out (fst (run Sample.world_without_agents start
                      (generate_posts_stream Sample.lib default_settings
                         (Sample.request 12))))) =
  [error_response Sample.service_down].
Proof. vm_compute. reflexivity. Qed.

(** * The helpers, the validators, the search service and the tools *)

(** ** Helpers *)

Lemma len_app (s1 s2 : string) : len (s1 ++ s2)%string = len s1 + len s2.
Proof. unfold len. rewrite length_string_app. lia. Qed.

Lemma len_str_slice_to (s : string) (stop : Z) :
  len (str_slice_to s stop) =
  if stop <? 0 then Z.max 0 (len s + stop) else Z.min stop (len s).
Proof.
  unfold str_slice_to, len.
  destruct (stop <? 0) eqn:E; rewrite length_str_prefix;
    [apply Z.ltb_lt in E | apply Z.ltb_ge in E]; lia.
Qed.

(** X1. The text [truncate_text] returns fits into [max_length] exactly when
    [max_length] is at least 3 or the text was short enough to begin with:
    for a smaller [max_length] the three dots alone are too long, and the
    slice [text[:max_length - 3]] counts from the end. *)
Theorem helpers_truncate_text_fits (text : string) (max_length : Z) :
  len (helpers.truncate_text text max_length) <= max_length <->
  (3 <= max_length \/ len text <= max_length).
Proof.
  unfold helpers.truncate_text.
  destruct (len text <=? max_length) eqn:E.
  - apply Z.leb_le in E. split; intros; [right |]; exact E.
  - apply Z.leb_gt in E. rewrite len_app, len_str_slice_to.
    change (len "...") with 3.
    destruct (max_length - 3 <? 0) eqn:E3;
      [apply Z.ltb_lt in E3 | apply Z.ltb_ge in E3]; lia.
Qed.

(** X2. With a [max_length] of 0, 1 or 2, a text of three characters or more
    comes back longer than it was, by [max_length] characters. *)
Theorem helpers_truncate_text_grows (text : string) (max_length : Z) :
  0 <= max_length < 3 -> 3 <= len text ->
  len (helpers.truncate_text text max_length) = len text + max_length.
Proof.
  intros Hm Hlen. unfold helpers.truncate_text.
  destruct (len text <=? max_length) eqn:E.
  - apply Z.leb_le in E. lia.
  - rewrite len_app, len_str_slice_to. change (len "...") with 3.
    destruct (max_length - 3 <? 0) eqn:E3;
      [apply Z.ltb_lt in E3 | apply Z.ltb_ge in E3]; lia.
Qed.

Lemma helpers_truncate_text_grows_witness :
  len (helpers.truncate_text "abcdefghij" 2) = len "abcdefghij" + 2.
Proof.
  apply (helpers_truncate_text_grows "abcdefghij" 2); [lia | vm_compute; discriminate].
Defined.

Lemma post_guardrail_text (post : PostResponse.t) :
  PostContent.text (PostResponse.content (_apply_post_guardrails post)) =
  helpers.truncate_text (PostContent.text (PostResponse.content post)) 280.
Proof.
  unfold _apply_post_guardrails.
  rewrite limit_hashtags_text, default_hashtag_text.
  unfold truncate_text, helpers.truncate_text, str_slice_to.
  rewrite Z.gtb_ltb, Z.leb_antisym.
  destruct (280 <? len (PostContent.text (PostResponse.content post))); reflexivity.
Qed.

(** X3. The text rule of the post guardrail is [truncate_text] at its
    default length: the orchestrator and the helper cut at the same place,
    and the guardrail leaves the text [truncate_text] would leave. *)
Theorem post_guardrail_text_is_helpers_truncate_text (post : PostResponse.t) :
  PostContent.text (PostResponse.content (_apply_post_guardrails post)) =
  helpers.truncate_text (PostContent.text (PostResponse.content post)) 280.
Proof.
  unfold _apply_post_guardrails.
  rewrite limit_hashtags_text, default_hashtag_text.
  unfold truncate_text, helpers.truncate_text, str_slice_to.
  rewrite Z.gtb_ltb, Z.leb_antisym.
  destruct (280 <? len (PostContent.text (PostResponse.content post))) eqn:E;
    [apply Z.ltb_lt in E | apply Z.ltb_ge in E]; reflexivity.
Qed.

(** *** Patterns *)

Lemma re_delete_not_in (class : ascii -> bool) (a : ascii) (s : string) :
  re_delete (re_not_in class) 0 (String a s) =
  if class a then String a (re_delete (re_not_in class) 0 s)
  else re_delete (re_not_in class) 0 s.
Proof. simpl. destruct (class a); reflexivity. Qed.

Lemma re_search_not_in (class : ascii -> bool) (a : ascii) (s : string) :
  re_search (re_not_in class) (String a s) =
  if class a then re_search (re_not_in class) s else true.
Proof. simpl. destruct (class a); reflexivity. Qed.

Lemma re_search_sub_not_in (class : ascii -> bool) (s : string) :
  re_search (re_not_in class) (re_sub_empty (re_not_in class) s) = false.
Proof.
  unfold re_sub_empty. induction s as [| a s IH]; [reflexivity |].
  rewrite re_delete_not_in. destruct (class a) eqn:E; [| exact IH].
  rewrite re_search_not_in, E. exact IH.
Qed.

Lemma re_sub_not_in_clean (class : ascii -> bool) (s : string) :
  re_search (re_not_in class) s = false ->
  re_sub_empty (re_not_in class) s = s.
Proof.
  unfold re_sub_empty. induction s as [| a s IH]; [reflexivity |].
  rewrite re_search_not_in, re_delete_not_in.
  destruct (class a); [| discriminate].
  intros H. rewrite (IH H). reflexivity.
Qed.

Lemma prefix_cons (a b : ascii) (s1 s2 : string) :
  String.prefix (String a s1) (String b s2) = Ascii.eqb a b && String.prefix s1 s2.
Proof.
  cbn [String.prefix]. destruct (ascii_dec a b) as [E | E].
  - subst. rewrite Ascii.eqb_refl. reflexivity.
  - apply Ascii.eqb_neq in E. rewrite E. reflexivity.
Qed.

Lemma prefix_nil_r (a : ascii) (s1 : string) :
  String.prefix (String a s1) EmptyString = false.
Proof. reflexivity. Qed.

Lemma prefix_nil_l (s : string) : String.prefix EmptyString s = true.
Proof. destruct s; reflexivity. Qed.

Lemma startswith_hash (s : string) :
  startswith s "#" = true <-> exists rest, s = String "#" rest.
Proof.
  unfold startswith. destruct s as [| a s].
  - split; [discriminate | intros [rest H]; discriminate].
  - rewrite prefix_cons, prefix_nil_l, andb_true_r. split.
    + intros H. apply Ascii.eqb_eq in H. subst. exists s. reflexivity.
    + intros [rest H]. injection H as <- _. apply Ascii.eqb_refl.
Qed.

Lemma format_hashtag_startswith (hashtag : string) :
  startswith (helpers.format_hashtag hashtag) "#" = true.
Proof.
  unfold helpers.format_hashtag.
  destruct (startswith hashtag "#") eqn:E; cbn [negb].
  - apply startswith_hash in E. destruct E as [rest ->].
    unfold re_sub_empty. rewrite re_delete_not_in.
    change (helpers.hashtag_char "#") with true. cbv iota.
    apply startswith_hash. eexists. reflexivity.
  - unfold re_sub_empty.
    change ("#" ++ hashtag)%string with (String "#" hashtag).
    rewrite re_delete_not_in.
    change (helpers.hashtag_char "#") with true. cbv iota.
    apply startswith_hash. eexists. reflexivity.
Qed.

Lemma append_if_nil (cond : bool) (msg : string) (l : list string) :
  validators.append_if cond msg l = [] <-> cond = false /\ l = [].
Proof.
  unfold validators.append_if. destruct cond.
  - split; [intros H; destruct l; discriminate | intros [H _]; discriminate].
  - split; [intros ->; auto | intros [_ H]; exact H].
Qed.

Lemma hashtag_warnings_nil (hashtag : string) :
  validators.hashtag_warnings hashtag = [] <->
  startswith hashtag "#" = true /\
  re_search (re_not_in helpers.hashtag_char) hashtag = false.
Proof.
  unfold validators.hashtag_warnings. cbv zeta.
  rewrite append_if_nil, append_if_nil.
  destruct (startswith hashtag "#"); simpl; intuition congruence.
Qed.

Lemma format_hashtag_warnings (hashtag : string) :
  validators.hashtag_warnings (helpers.format_hashtag hashtag) = [].
Proof.
  apply hashtag_warnings_nil. split.
  - apply format_hashtag_startswith.
  - unfold helpers.format_hashtag. apply re_search_sub_not_in.
Qed.

Lemma format_hashtag_clean (hashtag : string) :
  validators.hashtag_warnings hashtag = [] ->
  helpers.format_hashtag hashtag = hashtag.
Proof.
  intros H. apply hashtag_warnings_nil in H. destruct H as [H1 H2].
  unfold helpers.format_hashtag. rewrite H1. cbn [negb].
  apply re_sub_not_in_clean. exact H2.
Qed.

Lemma flat_map_nil_iff {A B : Type} (f : A -> list B) (l : list A) :
  flat_map f l = [] <-> Forall (fun x => f x = []) l.
Proof.
  induction l as [| x l IH]; simpl.
  - split; [constructor | reflexivity].
  - split.
    + intros H. apply app_eq_nil in H. destruct H as [H1 H2].
      constructor; [exact H1 | apply IH; exact H2].
    + intros H. inversion H as [| ? ? H1 H2]; subst.
      rewrite H1. apply IH. exact H2.
Qed.

Lemma format_hashtags_warnings (hashtags : list string) :
  flat_map validators.hashtag_warnings (helpers.format_hashtags hashtags) = [].
Proof.
  apply flat_map_nil_iff. unfold helpers.format_hashtags.
  apply Forall_map. apply Forall_forall. intros h _. apply format_hashtag_warnings.
Qed.

(** Removing every character outside a class keeps the characters of the
    class, in their order. *)
Lemma re_sub_not_in_filter (class : ascii -> bool) (s : string) :
  re_sub_empty (re_not_in class) s = str_filter class s.
Proof.
  unfold re_sub_empty. induction s as [| a s IH]; [reflexivity |].
  rewrite re_delete_not_in. cbn [str_filter].
  destruct (class a); rewrite IH; reflexivity.
Qed.

(** X4. [format_hashtags] returns one hashtag for each hashtag it is given,
    in the same order, and each one is the hashtag it was given with [#] put
    in front when it did not start with one and with every character outside
    [[a-zA-Z0-9#_]] taken out, the others staying in their order. What it
    returns is what [validate_post_content] accepts without a warning about
    the form of a hashtag: each one starts with [#] and has no character
    outside the class. An empty hashtag becomes [#]. *)
Theorem format_hashtags_are_well_formed (hashtags : list string) :
  Forall2 (fun hashtag formatted =>
             formatted =
               str_filter helpers.hashtag_char
                 (if startswith hashtag "#" then hashtag
                  else String "#" hashtag) /\
             startswith formatted "#" = true /\
             re_search (re_not_in helpers.hashtag_char) formatted = false /\
             validators.hashtag_warnings formatted = [])
          hashtags (helpers.format_hashtags hashtags) /\
  helpers.format_hashtags [""] = ["#"].
Proof.
  split; [| reflexivity].
  unfold helpers.format_hashtags.
  induction hashtags as [| h hashtags IH]; cbn [map]; constructor; [| exact IH].
  pose proof (format_hashtag_warnings h) as H.
  pose proof (proj1 (hashtag_warnings_nil _) H) as [H1 H2].
  split; [| auto].
  unfold helpers.format_hashtag. rewrite re_sub_not_in_filter.
  destruct (startswith h "#"); reflexivity.
Qed.

(** Two hashtags, in their order. *)
Lemma format_hashtags_example :
  helpers.format_hashtags ["eco tech!"; "#green-energy"] = ["#ecotech"; "#greenenergy"].
Proof. reflexivity. Qed.

(** X5. The hashtags [format_hashtags] leaves as they are, are exactly those
    that are well formed already; so formatting twice is formatting once. *)
Theorem format_hashtags_fixed_points (hashtags : list string) :
  (helpers.format_hashtags hashtags = hashtags <->
   flat_map validators.hashtag_warnings hashtags = []) /\
  helpers.format_hashtags (helpers.format_hashtags hashtags) =
  helpers.format_hashtags hashtags.
Proof.
  assert (Hfix : forall l, flat_map validators.hashtag_warnings l = [] ->
                           helpers.format_hashtags l = l).
  { intros l H. apply flat_map_nil_iff in H. unfold helpers.format_hashtags.
    induction H as [| h l Hh Hl IH]; [reflexivity |].
    simpl. rewrite (format_hashtag_clean h Hh), IH. reflexivity. }
  split; [split |].
  - intros H. rewrite <- H. apply format_hashtags_warnings.
  - apply Hfix.
  - apply Hfix. apply format_hashtags_warnings.
Qed.

(** *** [sanitize_input] *)

Lemma str_mem_re_delete (p : regex) (c : ascii) (s : string) (skip : nat) :
  str_mem c (re_delete p skip s) = true -> str_mem c s = true.
Proof.
  revert skip. induction s as [| a s IH]; intros skip; [simpl; auto |].
  cbn [re_delete str_mem].
  destruct skip as [| k].
  - destruct (p (String a s)) as [[| k] |]; cbn [str_mem]; intros H.
    + apply orb_true_iff in H. destruct H as [H | H]; [rewrite H; reflexivity |].
      rewrite (IH _ H). apply orb_true_r.
    + rewrite (IH _ H). apply orb_true_r.
    + apply orb_true_iff in H. destruct H as [H | H]; [rewrite H; reflexivity |].
      rewrite (IH _ H). apply orb_true_r.
  - intros H. rewrite (IH _ H). apply orb_true_r.
Qed.

Lemma str_mem_re_delete_false (p : regex) (c : ascii) (s : string) (skip : nat) :
  str_mem c s = false -> str_mem c (re_delete p skip s) = false.
Proof.
  intros H. destruct (str_mem c (re_delete p skip s)) eqn:E; [| reflexivity].
  apply str_mem_re_delete in E. congruence.
Qed.

Lemma no_tag_cons (a : ascii) (s : string) :
  no_tag (String a s) = true <->
  (Ascii.eqb a "<" = false \/ str_mem ">" s = false) /\ no_tag s = true.
Proof.
  cbn [no_tag]. rewrite andb_true_iff, orb_true_iff, !negb_true_iff. reflexivity.
Qed.

Lemma no_tag_re_delete (p : regex) (s : string) (skip : nat) :
  no_tag s = true -> no_tag (re_delete p skip s) = true.
Proof.
  revert skip. induction s as [| a s IH]; intros skip H; [reflexivity |].
  apply no_tag_cons in H. destruct H as [Ha Hs].
  assert (Hkeep : no_tag (String a (re_delete p 0 s)) = true).
  { apply no_tag_cons. split; [| apply IH; exact Hs].
    destruct Ha as [Ha | Ha]; [left; exact Ha | right].
    apply str_mem_re_delete_false. exact Ha. }
  cbn [re_delete]. destruct skip as [| k]; [| apply IH; exact Hs].
  destruct (p (String a s)) as [[| k] |]; auto.
Qed.

Lemma find_char_none (c : ascii) (s : string) :
  find_char c s = None <-> str_mem c s = false.
Proof.
  induction s as [| a s IH]; cbn [find_char str_mem]; [tauto |].
  destruct (Ascii.eqb a c); cbn [orb].
  - split; discriminate.
  - rewrite <- IH. destruct (find_char c s); simpl; split; congruence.
Qed.

Lemma re_tag_none (s : string) :
  helpers.re_tag s = None <->
  match s with
  | EmptyString => True
  | String a rest => Ascii.eqb a "<" = false \/ str_mem ">" rest = false
  end.
Proof.
  destruct s as [| a s]; cbn [helpers.re_tag]; [tauto |].
  destruct (Ascii.eqb a "<").
  - rewrite <- find_char_none. destruct (find_char ">" s); simpl.
    + split; [discriminate | intros [H | H]; discriminate].
    + split; auto.
  - split; auto.
Qed.

Lemma no_tag_re_delete_tag (s : string) (skip : nat) :
  no_tag (re_delete helpers.re_tag skip s) = true.
Proof.
  revert skip. induction s as [| a s IH]; intros skip; [reflexivity |].
  cbn [re_delete]. destruct skip as [| k]; [| apply IH].
  destruct (helpers.re_tag (String a s)) as [[| k] |] eqn:E; try apply IH.
  - cbn [helpers.re_tag] in E. destruct (Ascii.eqb a "<"); [| discriminate].
    destruct (find_char ">" s); discriminate.
  - apply no_tag_cons. split; [| apply IH].
    apply re_tag_none in E. destruct E as [E | E]; [left; exact E | right].
    apply str_mem_re_delete_false. exact E.
Qed.

Lemma re_search_false (p : regex) (a : ascii) (s : string) :
  re_search p (String a s) = false <-> p (String a s) = None /\ re_search p s = false.
Proof.
  cbn [re_search]. destruct (p (String a s)); split; intros H;
    try discriminate; try (destruct H; discriminate); auto.
  destruct H as [_ H]. exact H.
Qed.

Lemma re_sub_empty_no_match (p : regex) (s : string) :
  re_search p s = false -> re_sub_empty p s = s.
Proof.
  unfold re_sub_empty. induction s as [| a s IH]; [reflexivity |].
  intros H. apply re_search_false in H. destruct H as [H1 H2].
  cbn [re_delete]. rewrite H1, (IH H2). reflexivity.
Qed.

Lemma str_mem_drop (c : ascii) (n : nat) (s : string) :
  str_mem c (str_drop n s) = true -> str_mem c s = true.
Proof.
  revert s. induction n as [| n IH]; intros s; [simpl; auto |].
  destruct s as [| a s]; [simpl; auto |].
  cbn [str_drop str_mem]. intros H. rewrite (IH _ H). apply orb_true_r.
Qed.

Lemma prefix_mem (c : ascii) (pre s : string) :
  String.prefix pre s = true -> str_mem c pre = true -> str_mem c s = true.
Proof.
  revert s. induction pre as [| a pre IH]; intros s Hp Hm; [discriminate |].
  destruct s as [| b s]; [discriminate |].
  rewrite prefix_cons in Hp. apply andb_true_iff in Hp. destruct Hp as [Hab Hp].
  apply Ascii.eqb_eq in Hab. subst b.
  cbn [str_mem] in *. apply orb_true_iff in Hm. destruct Hm as [Hm | Hm].
  - rewrite Hm. reflexivity.
  - rewrite (IH _ Hp Hm). apply orb_true_r.
Qed.

(** A match of the script pattern begins with a [<] that has a [>] behind
    it. *)
Lemma re_script_some (s : string) (n : nat) :
  helpers.re_script s = Some n ->
  exists rest, s = String "<" rest /\ str_mem ">" rest = true.
Proof.
  unfold helpers.re_script.
  destruct (startswith s "<script") eqn:E; [| discriminate].
  destruct (find_char ">" (str_drop 7 s)) as [i |] eqn:F; [| discriminate].
  intros _. unfold startswith in E.
  destruct s as [| a s]; [discriminate |].
  rewrite prefix_cons in E. apply andb_true_iff in E. destruct E as [Ea _].
  apply Ascii.eqb_eq in Ea. subst a. exists s. split; [reflexivity |].
  apply (str_mem_drop ">" 6 s).
  change (str_drop 7 (String "<" s)) with (str_drop 6 s) in F.
  destruct (str_mem ">" (str_drop 6 s)) eqn:M; [reflexivity |].
  apply find_char_none in M. congruence.
Qed.

Lemma no_tag_no_tag_match (s : string) :
  no_tag s = true -> re_search helpers.re_tag s = false.
Proof.
  induction s as [| a s IH]; intros H; [reflexivity |].
  apply no_tag_cons in H. destruct H as [Ha Hs].
  apply re_search_false. split; [| apply IH; exact Hs].
  apply re_tag_none. exact Ha.
Qed.

Lemma no_tag_no_script_match (s : string) :
  no_tag s = true -> re_search helpers.re_script s = false.
Proof.
  induction s as [| a s IH]; intros H; [reflexivity |].
  apply no_tag_cons in H. destruct H as [Ha Hs].
  apply re_search_false. split; [| apply IH; exact Hs].
  destruct (helpers.re_script (String a s)) as [n |] eqn:E; [| reflexivity].
  apply re_script_some in E. destruct E as (rest & Heq & Hmem).
  injection Heq as -> ->. destruct Ha as [Ha | Ha]; [discriminate | congruence].
Qed.

Lemma no_tag_sanitize_input (text : string) :
  no_tag (helpers.sanitize_input text) = true.
Proof.
  unfold helpers.sanitize_input, re_sub_empty.
  do 3 apply no_tag_re_delete. apply no_tag_re_delete_tag.
Qed.

(** X6. Whatever the text, what [sanitize_input] returns has no tag left:
    no [<] of the result has a [>] behind it, so neither of the two tag
    patterns of the function matches anywhere in it. *)
Theorem sanitize_input_leaves_no_tag (text : string) :
  no_tag (helpers.sanitize_input text) = true /\
  re_search helpers.re_tag (helpers.sanitize_input text) = false /\
  re_search helpers.re_script (helpers.sanitize_input text) = false.
Proof.
  pose proof (no_tag_sanitize_input text) as H.
  split; [exact H |]. split.
  - apply no_tag_no_tag_match. exact H.
  - apply no_tag_no_script_match. exact H.
Qed.

(** X7. The second substitution of [sanitize_input] never removes anything:
    once the tags are gone there is no [<script ...>] for the script pattern
    to start from, so the text between a script tag and its closing tag is
    kept. *)
Theorem sanitize_input_script_step_is_idle (text : string) :
  re_sub_empty helpers.re_script (re_sub_empty helpers.re_tag text) =
  re_sub_empty helpers.re_tag text /\
  helpers.sanitize_input text =
  re_sub_empty helpers.re_handler
    (re_sub_empty helpers.re_javascript (re_sub_empty helpers.re_tag text)).
Proof.
  assert (H : re_sub_empty helpers.re_script (re_sub_empty helpers.re_tag text) =
              re_sub_empty helpers.re_tag text).
  { apply re_sub_empty_no_match. apply no_tag_no_script_match.
    unfold re_sub_empty. apply no_tag_re_delete_tag. }
  split; [exact H |]. unfold helpers.sanitize_input. rewrite H. reflexivity.
Qed.

Lemma re_search_absent (p : regex) (c : ascii) (s : string) :
  (forall s' n, p s' = Some n -> str_mem c s' = true) ->
  str_mem c s = false -> re_search p s = false.
Proof.
  intros Hp. induction s as [| a s IH]; intros H.
  - cbn [re_search]. destruct (p EmptyString) eqn:E; [| reflexivity].
    apply Hp in E. discriminate.
  - apply re_search_false. split.
    + destruct (p (String a s)) eqn:E; [| reflexivity].
      apply Hp in E. congruence.
    + apply IH. cbn [str_mem] in H. apply orb_false_iff in H. apply H.
Qed.

Lemma re_tag_some (s : string) (n : nat) :
  helpers.re_tag s = Some n -> str_mem "<" s = true.
Proof.
  destruct s as [| a s]; cbn [helpers.re_tag str_mem]; [discriminate |].
  destruct (Ascii.eqb a "<"); [reflexivity | discriminate].
Qed.

Lemma re_javascript_some (s : string) (n : nat) :
  helpers.re_javascript s = Some n -> str_mem ":" s = true.
Proof.
  unfold helpers.re_javascript.
  destruct (startswith s "javascript:") eqn:E; [| discriminate].
  intros _. apply (prefix_mem ":" _ _ E). reflexivity.
Qed.

Lemma re_handler_some (s : string) (n : nat) :
  helpers.re_handler s = Some n -> str_mem "=" s = true.
Proof.
  unfold helpers.re_handler.
  destruct (startswith s "on"); [| discriminate].
  destruct (span is_word (str_drop 2 s)) as [| w]; [discriminate |].
  set (blank := str_drop (S w) (str_drop 2 s)).
  destruct (str_drop (span is_space blank) blank) as [| a rest] eqn:E; [discriminate |].
  destruct (Ascii.eqb a "=") eqn:Ea; [| discriminate].
  intros _. apply (str_mem_drop "=" 2). apply (str_mem_drop "=" (S w)).
  fold blank. apply (str_mem_drop "=" (span is_space blank)).
  rewrite E. cbn [str_mem]. rewrite Ea. reflexivity.
Qed.

(** X8. A text without [<], [:] and [=] comes back from [sanitize_input] as
    it is. *)
Theorem sanitize_input_keeps_plain_text (text : string) :
  str_mem "<" text = false -> str_mem ":" text = false ->
  str_mem "=" text = false ->
  helpers.sanitize_input text = text.
Proof.
  intros Hlt Hcolon Heq. unfold helpers.sanitize_input.
  rewrite (re_sub_empty_no_match helpers.re_tag text)
    by (apply (re_search_absent _ "<"); [apply re_tag_some | exact Hlt]).
  rewrite (re_sub_empty_no_match helpers.re_script text).
  2:{ apply (re_search_absent _ "<"); [| exact Hlt].
      intros s' n H. apply re_script_some in H. destruct H as (rest & -> & _).
      reflexivity. }
  rewrite (re_sub_empty_no_match helpers.re_javascript text)
    by (apply (re_search_absent _ ":"); [apply re_javascript_some | exact Hcolon]).
  apply re_sub_empty_no_match.
  apply (re_search_absent _ "="); [apply re_handler_some | exact Heq].
Qed.

Lemma sanitize_input_keeps_plain_text_witness :
  helpers.sanitize_input "Fresh bread every day" = "Fresh bread every day".
Proof.
  apply sanitize_input_keeps_plain_text; reflexivity.
Defined.

(** *** [extract_keywords] *)

Lemma dict_get_count_word (word_counts : dict Z) (word key : string) :
  dict_get (helpers.count_word word_counts word) key =
  if String.eqb word key
  then Some (match dict_get word_counts word with Some n => n + 1 | None => 1 end)
  else dict_get word_counts key.
Proof.
  induction word_counts as [| [k n] rest IH]; cbn [helpers.count_word dict_get].
  - reflexivity.
  - destruct (String.eqb k word) eqn:Ekw; cbn [dict_get].
    + apply String.eqb_eq in Ekw. subst k.
      destruct (String.eqb word key); reflexivity.
    + rewrite IH. destruct (String.eqb word key) eqn:Ewk; [| reflexivity].
      apply String.eqb_eq in Ewk. subst key. rewrite Ekw. reflexivity.
Qed.

Lemma keys_count_word (word_counts : dict Z) (word : string) :
  map fst (helpers.count_word word_counts word) =
  match dict_get word_counts word with
  | Some _ => map fst word_counts
  | None => map fst word_counts ++ [word]
  end.
Proof.
  induction word_counts as [| [k n] rest IH]; cbn [helpers.count_word dict_get map app].
  - reflexivity.
  - destruct (String.eqb k word) eqn:Ekw; cbn [map fst].
    + reflexivity.
    + rewrite IH. destruct (dict_get rest word); reflexivity.
Qed.

Lemma dict_get_none {V : Type} (d : dict V) (key : string) :
  dict_get d key = None <-> ~ In key (map fst d).
Proof.
  induction d as [| [k v] rest IH]; cbn [dict_get map fst In].
  - tauto.
  - destruct (String.eqb k key) eqn:E.
    + apply String.eqb_eq in E. split; [discriminate | tauto].
    + apply String.eqb_neq in E. rewrite IH. tauto.
Qed.

Lemma dict_get_in {V : Type} (d : dict V) (key : string) (v : V) :
  NoDup (map fst d) -> (In (key, v) d <-> dict_get d key = Some v).
Proof.
  induction d as [| [k u] rest IH]; cbn [dict_get map fst In]; intros Hnd.
  - split; [tauto | discriminate].
  - inversion Hnd as [| ? ? Hk Hrest]; subst.
    destruct (String.eqb k key) eqn:E.
    + apply String.eqb_eq in E. subst k. split.
      * intros [H | H]; [congruence |].
        exfalso. apply Hk. apply (in_map fst) in H. exact H.
      * intros H. left. congruence.
    + apply String.eqb_neq in E. rewrite <- (IH Hrest). split.
      * intros [H | H]; [congruence | exact H].
      * auto.
Qed.

Lemma occurrences_app (l1 l2 : list string) (word : string) :
  occurrences (l1 ++ l2) word = occurrences l1 word + occurrences l2 word.
Proof. unfold occurrences. rewrite count_occ_app. lia. Qed.

Lemma occurrences_pos (l : list string) (word : string) :
  0 < occurrences l word <-> In word l.
Proof.
  unfold occurrences. rewrite (count_occ_In string_dec). lia.
Qed.

Lemma occurrences_one (word key : string) :
  occurrences [word] key = if String.eqb word key then 1 else 0.
Proof.
  unfold occurrences. cbn [count_occ].
  destruct (string_dec word key) as [E | E].
  - subst. rewrite String.eqb_refl. reflexivity.
  - apply String.eqb_neq in E. rewrite E. reflexivity.
Qed.

(** What the counting loop has built after the words [seen]. *)
Lemma word_counts_invariant (words seen : list string) (word_counts : dict Z) :
  NoDup (map fst word_counts) ->
  (forall key, dict_get word_counts key =
               if occurrences seen key =? 0 then None
               else Some (occurrences seen key)) ->
  NoDup (map fst (fold_left helpers.count_word words word_counts)) /\
  (forall key, dict_get (fold_left helpers.count_word words word_counts) key =
               if occurrences (seen ++ words) key =? 0 then None
               else Some (occurrences (seen ++ words) key)).
Proof.
  revert seen word_counts.
  induction words as [| word words IH]; intros seen word_counts Hnd Hget.
  - rewrite app_nil_r. auto.
  - cbn [fold_left].
    replace (seen ++ word :: words) with ((seen ++ [word]) ++ words)
      by (rewrite <- app_assoc; reflexivity).
    apply IH.
    + rewrite keys_count_word. destruct (dict_get word_counts word) eqn:E; [exact Hnd |].
      apply dict_get_none in E.
      apply NoDup_app; [exact Hnd | repeat constructor; simpl; tauto |].
      intros x Hx [<- | []]. exact (E Hx).
    + intros key. rewrite dict_get_count_word, occurrences_app, occurrences_one.
      pose proof (Hget key) as Hk. pose proof (Hget word) as Hw.
      assert (0 <= occurrences seen key) by (unfold occurrences; lia).
      destruct (String.eqb word key) eqn:E.
      * apply String.eqb_eq in E. subst key. rewrite Hw.
        destruct (occurrences seen word =? 0) eqn:E0.
        -- apply Z.eqb_eq in E0. rewrite E0. reflexivity.
        -- apply Z.eqb_neq in E0.
           destruct (occurrences seen word + 1 =? 0) eqn:E1;
             [apply Z.eqb_eq in E1; lia | reflexivity].
      * rewrite Z.add_0_r. exact Hk.
Qed.

Lemma word_counts_spec (words : list string) :
  let word_counts := fold_left helpers.count_word words [] in
  NoDup (map fst word_counts) /\
  (forall word n, In (word, n) word_counts <->
                  In word words /\ n = occurrences words word).
Proof.
  cbv zeta.
  destruct (word_counts_invariant words [] []) as [Hnd Hget].
  - constructor.
  - intros key. reflexivity.
  - split; [exact Hnd |]. intros word n. rewrite (dict_get_in _ _ _ Hnd).
    cbn [app] in Hget. rewrite Hget.
    pose proof (occurrences_pos words word) as Hpos.
    destruct (occurrences words word =? 0) eqn:E.
    + apply Z.eqb_eq in E. split; [discriminate |].
      intros [Hin _]. apply Hpos in Hin. lia.
    + apply Z.eqb_neq in E.
      assert (0 <= occurrences words word) by (unfold occurrences; lia).
      split.
      * intros H1. injection H1 as <-. split; [apply Hpos; lia | reflexivity].
      * intros [_ ->]. reflexivity.
Qed.

Lemma insert_by_count_perm (item : string * Z) (sorted : list (string * Z)) :
  Permutation (item :: sorted) (helpers.insert_by_count item sorted).
Proof.
  induction sorted as [| other rest IH]; cbn [helpers.insert_by_count]; [reflexivity |].
  destruct (snd other >? snd item); [| reflexivity].
  rewrite perm_swap. apply perm_skip. exact IH.
Qed.

Lemma sorted_by_count_perm (items : list (string * Z)) :
  Permutation items (helpers.sorted_by_count items).
Proof.
  unfold helpers.sorted_by_count.
  induction items as [| item items IH]; cbn [fold_right]; [reflexivity |].
  rewrite <- insert_by_count_perm. apply perm_skip. exact IH.
Qed.

Lemma insert_by_count_sorted (item : string * Z) (sorted : list (string * Z)) :
  StronglySorted (fun a b => snd b <= snd a) sorted ->
  StronglySorted (fun a b => snd b <= snd a) (helpers.insert_by_count item sorted).
Proof.
  induction sorted as [| other rest IH]; cbn [helpers.insert_by_count]; intros H.
  - repeat constructor.
  - inversion H as [| ? ? Hrest Hall]; subst.
    destruct (snd other >? snd item) eqn:E.
    + apply Z.gtb_lt in E. constructor; [apply IH; exact Hrest |].
      apply Forall_forall. intros x Hx.
      apply (Permutation_in _ (Permutation_sym (insert_by_count_perm item rest))) in Hx.
      destruct Hx as [<- | Hx]; [lia |].
      rewrite Forall_forall in Hall. apply Hall. exact Hx.
    + rewrite Z.gtb_ltb in E. apply Z.ltb_ge in E.
      constructor; [exact H |]. constructor; [exact E |].
      rewrite Forall_forall in Hall |- *. intros x Hx. specialize (Hall x Hx). lia.
Qed.

Lemma sorted_by_count_sorted (items : list (string * Z)) :
  StronglySorted (fun a b => snd b <= snd a) (helpers.sorted_by_count items).
Proof.
  unfold helpers.sorted_by_count.
  induction items as [| item items IH]; cbn [fold_right]; [constructor |].
  apply insert_by_count_sorted. exact IH.
Qed.

Lemma StronglySorted_app {A : Type} (R : A -> A -> Prop) (l1 l2 : list A) :
  StronglySorted R (l1 ++ l2) ->
  StronglySorted R l1 /\ (forall a b, In a l1 -> In b l2 -> R a b).
Proof.
  induction l1 as [| x l1 IH]; cbn [app]; intros H.
  - split; [constructor | intros a b []].
  - inversion H as [| ? ? Hrest Hall]; subst.
    destruct (IH Hrest) as [H1 H2]. rewrite Forall_forall in Hall. split.
    + constructor; [exact H1 |]. apply Forall_forall. intros y Hy.
      apply Hall. apply in_or_app. left. exact Hy.
    + intros a b [<- | Ha] Hb;
        [apply Hall; apply in_or_app; right; exact Hb | apply H2; assumption].
Qed.

Lemma StronglySorted_map_fst (words : list string) (l : list (string * Z)) :
  (forall word n, In (word, n) l -> n = occurrences words word) ->
  StronglySorted (fun a b => snd b <= snd a) l ->
  StronglySorted (at_least_as_frequent words) (map fst l).
Proof.
  induction l as [| [w n] l IH]; cbn [map fst]; intros Hocc H; [constructor |].
  inversion H as [| ? ? Hrest Hall]; subst.
  constructor.
  - apply IH; [| exact Hrest]. intros word m Hin. apply Hocc. right. exact Hin.
  - rewrite Forall_forall in Hall. apply Forall_forall. intros x Hx.
    apply in_map_iff in Hx. destruct Hx as ([w' n'] & <- & Hin).
    unfold at_least_as_frequent. cbn [fst].
    rewrite <- (Hocc w n (or_introl eq_refl)), <- (Hocc w' n' (or_intror Hin)).
    exact (Hall _ Hin).
Qed.

(** A slice [l[:stop]] is a prefix of [l], whatever the sign of [stop]. *)
Lemma list_slice_to_prefix {A : Type} (l : list A) (stop : Z) :
  exists rest, l = list_slice_to l stop ++ rest.
Proof.
  unfold list_slice_to, list_prefix.
  destruct (stop <? 0); eexists; symmetry; apply firstn_skipn.
Qed.

Lemma length_list_slice_to {A : Type} (l : list A) (stop : Z) :
  0 <= stop -> Z.of_nat (List.length (list_slice_to l stop)) <= stop.
Proof.
  intros H. unfold list_slice_to, list_prefix.
  destruct (stop <? 0) eqn:E; [apply Z.ltb_lt in E; lia |].
  rewrite length_firstn. lia.
Qed.

Lemma filtered_words_spec (text word : string) :
  In word (helpers.filtered_words text) ->
  3 < len word /\ helpers.str_in word helpers.stop_words = false.
Proof.
  unfold helpers.filtered_words. cbv zeta. intros H.
  apply filter_In in H. destruct H as [_ H].
  apply andb_true_iff in H. destruct H as [H1 H2].
  apply negb_true_iff in H1. apply Z.gtb_lt in H2. auto.
Qed.

(** What is known of the sorted counts of a text. *)
Lemma extract_keywords_unfold (text : string) (max_keywords : Z) :
  let words := helpers.filtered_words text in
  exists kept rest,
    helpers.extract_keywords text max_keywords = map fst kept /\
    kept = list_slice_to (kept ++ rest) max_keywords /\
    NoDup (map fst (kept ++ rest)) /\
    StronglySorted (fun a b => snd b <= snd a) (kept ++ rest) /\
    (forall word n, In (word, n) (kept ++ rest) <->
                    In word words /\ n = occurrences words word).
Proof.
  cbv zeta. unfold helpers.extract_keywords. cbv zeta.
  set (words := helpers.filtered_words text).
  set (word_counts := fold_left helpers.count_word words []).
  set (sorted := helpers.sorted_by_count word_counts).
  destruct (list_slice_to_prefix sorted max_keywords) as [rest Hrest].
  exists (list_slice_to sorted max_keywords), rest.
  rewrite <- Hrest.
  destruct (word_counts_spec words) as [Hnd Hin]. fold word_counts in Hnd, Hin.
  pose proof (sorted_by_count_perm word_counts) as Hperm. fold sorted in Hperm.
  split; [reflexivity |]. split; [reflexivity |]. split; [| split].
  - apply (Permutation_NoDup (Permutation_map fst Hperm)). exact Hnd.
  - apply sorted_by_count_sorted.
  - intros word n. rewrite <- Hin. split; intros H.
    + apply (Permutation_in _ (Permutation_sym Hperm)). exact H.
    + apply (Permutation_in _ Hperm). exact H.
Qed.

(** X9. The keywords [extract_keywords] returns are pairwise different
    words of the text, as the function reads it (lower case, punctuation
    removed); each has more than three characters and is not a stop word; and
    there are at most [max_keywords] of them when [max_keywords] is not
    negative. *)
Theorem extract_keywords_are_distinct_content_words (text : string) (max_keywords : Z) :
  let keywords := helpers.extract_keywords text max_keywords in
  NoDup keywords /\
  (forall word, In word keywords ->
     In word (helpers.filtered_words text) /\
     3 < len word /\ helpers.str_in word helpers.stop_words = false) /\
  (0 <= max_keywords -> Z.of_nat (List.length keywords) <= max_keywords).
Proof.
  cbv zeta.
  destruct (extract_keywords_unfold text max_keywords)
    as (kept & rest & -> & Hkept & Hnd & _ & Hin).
  split; [| split].
  - rewrite map_app in Hnd. apply NoDup_app_remove_r in Hnd. exact Hnd.
  - intros word H. apply in_map_iff in H. destruct H as ([w n] & <- & H).
    assert (Hw : In w (helpers.filtered_words text)).
    { apply (Hin w n). apply in_or_app. left. exact H. }
    split; [exact Hw | apply (filtered_words_spec text); exact Hw].
  - intros Hmax. rewrite length_map, Hkept. apply length_list_slice_to. exact Hmax.
Qed.

(** X10. The keywords come in the order of their frequency in the text, the
    most frequent first, and no word that was left out occurs more often than
    a keyword; this holds for a negative [max_keywords] too, which drops
    keywords from the rare end. *)
Theorem extract_keywords_are_the_most_frequent (text : string) (max_keywords : Z) :
  let words := helpers.filtered_words text in
  let keywords := helpers.extract_keywords text max_keywords in
  StronglySorted (at_least_as_frequent words) keywords /\
  (forall keyword word,
     In keyword keywords -> In word words -> ~ In word keywords ->
     occurrences words word <= occurrences words keyword).
Proof.
  cbv zeta.
  destruct (extract_keywords_unfold text max_keywords)
    as (kept & rest & -> & _ & _ & Hsorted & Hin).
  apply StronglySorted_app in Hsorted. destruct Hsorted as [Hkept Hcross].
  split.
  - apply StronglySorted_map_fst; [| exact Hkept].
    intros word n H. apply (Hin word n). apply in_or_app. left. exact H.
  - intros keyword word Hk Hw Hnot.
    apply in_map_iff in Hk. destruct Hk as ([k n] & <- & Hk). cbn [fst].
    assert (Hword : In (word, occurrences (helpers.filtered_words text) word)
                       (kept ++ rest)) by (apply Hin; auto).
    apply in_app_or in Hword. destruct Hword as [Hword | Hword].
    + exfalso. apply Hnot. apply in_map_iff. eexists. split; [| exact Hword].
      reflexivity.
    + pose proof (Hcross _ _ Hk Hword) as Hle. cbn [snd] in Hle.
      assert (Hn : n = occurrences (helpers.filtered_words text) k).
      { apply (Hin k n). apply in_or_app. left. exact Hk. }
      lia.
Qed.

(** ** Validators *)

Lemma is_valid_result_of (errors warnings : list string) :
  validators.is_valid (validators.result_of errors warnings) = true <-> errors = [].
Proof.
  unfold validators.result_of. cbn [validators.is_valid].
  rewrite Z.eqb_eq. destruct errors; simpl; split; intros H;
    try reflexivity; try discriminate; lia.
Qed.

Lemma empty_str_false (s : string) : validators.empty_str s = false <-> s <> "".
Proof. unfold validators.empty_str. apply String.eqb_neq. Qed.

Lemma empty_list_false {A : Type} (l : list A) :
  validators.empty_list l = false <-> l <> [].
Proof. destruct l; simpl; split; congruence. Qed.

(** X11. [validate_post_generation_request] accepts a request exactly when
    the name, description, values, target audience and industry of the company
    and the name, appearance, personality, backstory and values of the brand
    hero are all non-empty. Neither tone of voice is looked at, and a number
    of proposals out of range never makes a request invalid. *)
Theorem validate_post_generation_request_valid_iff (settings : Settings.t)
    (request : PostGenerationRequest.t) :
  let cc := PostGenerationRequest.company_context request in
  let bh := PostGenerationRequest.brand_hero request in
  validators.is_valid (validators.validate_post_generation_request settings request) = true
  <->
  (CompanyContext.name cc <> "" /\ CompanyContext.description cc <> "" /\
   CompanyContext.values cc <> [] /\ CompanyContext.target_audience cc <> [] /\
   CompanyContext.industry cc <> "" /\
   BrandHero.name bh <> "" /\ BrandHero.appearance bh <> "" /\
   BrandHero.personality bh <> "" /\ BrandHero.backstory bh <> "" /\
   BrandHero.values bh <> []).
Proof.
  cbv zeta. unfold validators.validate_post_generation_request. cbv zeta.
  rewrite is_valid_result_of.
  repeat rewrite append_if_nil.
  repeat rewrite empty_str_false. repeat rewrite empty_list_false.
  tauto.
Qed.

(** X12. When the minimum is not above the maximum,
    [validate_post_generation_request] warns about the number of proposals
    exactly when the request guardrail is going to change it. *)
Theorem request_warnings_iff_guardrail_changes (settings : Settings.t)
    (request : PostGenerationRequest.t) :
  Settings.min_proposals settings <= Settings.max_proposals settings ->
  (validators.warnings (validators.validate_post_generation_request settings request) = []
   <-> _apply_request_guardrails settings request = request).
Proof.
  intros Hle. unfold validators.validate_post_generation_request. cbv zeta.
  cbn [validators.warnings validators.result_of].
  rewrite !append_if_nil. unfold _apply_request_guardrails.
  destruct request as [cc bh n trends competitors]. simpl.
  destruct (n <? Settings.min_proposals settings) eqn:E1; simpl.
  - apply Z.ltb_lt in E1. split; [intros (_ & H & _); discriminate |].
    destruct (Settings.min_proposals settings >? Settings.max_proposals settings) eqn:E2;
      [apply Z.gtb_lt in E2; lia |].
    intros H. injection H as H. lia.
  - destruct (n >? Settings.max_proposals settings) eqn:E2; simpl.
    + apply Z.gtb_lt in E2. split; [intros (H & _); discriminate |].
      intros H. injection H as H. lia.
    + split; auto.
Qed.

Lemma request_warnings_iff_guardrail_changes_witness :
  validators.warnings
    (validators.validate_post_generation_request default_settings (Sample.request 12)) = []
  <-> _apply_request_guardrails default_settings (Sample.request 12) = Sample.request 12.
Proof.
  apply request_warnings_iff_guardrail_changes. vm_compute. discriminate.
Defined.

Lemma truncate_text_empty (text : string) :
  validators.empty_str (helpers.truncate_text text 280) = validators.empty_str text.
Proof.
  unfold helpers.truncate_text. destruct (len text <=? 280) eqn:E; [reflexivity |].
  apply Z.leb_gt in E. destruct text as [| a text]; [discriminate E |].
  unfold validators.empty_str.
  destruct (str_slice_to (String a text) (280 - 3)); reflexivity.
Qed.

(** X13. A proposal that went through the post guardrail and whose hashtags
    went through [format_hashtags] gets no warning at all from
    [validate_post_content], and it is valid exactly when the text it came
    with was not empty: the guardrail never repairs an empty text. *)
Theorem guarded_and_formatted_content_has_no_warnings (post : PostResponse.t) :
  let content := PostResponse.content (_apply_post_guardrails post) in
  let content := PostContent.set_hashtags content
                   (helpers.format_hashtags (PostContent.hashtags content)) in
  validators.warnings (validators.validate_post_content content) = [] /\
  validators.is_valid (validators.validate_post_content content) =
    negb (validators.empty_str (PostContent.text (PostResponse.content post))).
Proof.
  cbv zeta.
  pose proof (apply_post_guardrails_compliant post) as [Hlen Htags].
  pose proof (post_guardrail_text post) as Htext.
  set (guarded := PostResponse.content (_apply_post_guardrails post)) in *.
  unfold validators.validate_post_content. cbv zeta.
  cbn [PostContent.text PostContent.hashtags PostContent.set_hashtags
       validators.warnings validators.is_valid validators.result_of].
  split.
  - rewrite format_hashtags_warnings, app_nil_r.
    unfold helpers.format_hashtags. rewrite !append_if_nil, length_map.
    repeat split.
    + apply andb_false_iff. right. rewrite Z.gtb_ltb. apply Z.ltb_ge. lia.
    + destruct (PostContent.hashtags guarded); [simpl in Htags; lia | reflexivity].
    + rewrite Z.gtb_ltb. apply Z.ltb_ge. exact Hlen.
  - rewrite Htext, truncate_text_empty.
    unfold validators.append_if.
    destruct (validators.empty_str (PostContent.text (PostResponse.content post)));
      reflexivity.
Qed.

(** X14. [validate_post_content] has no warning for a proposal exactly when
    the post guardrail has nothing to do on it (at most 280 characters, between
    1 and 5 hashtags) and every hashtag starts with [#] and has no character
    outside [[a-zA-Z0-9#_]]. *)
Theorem validate_post_content_is_silent_iff (post : PostResponse.t) :
  validators.warnings (validators.validate_post_content (PostResponse.content post)) = []
  <->
  (compliant post /\
   Forall (fun hashtag =>
             startswith hashtag "#" = true /\
             re_search (re_not_in helpers.hashtag_char) hashtag = false)
          (PostContent.hashtags (PostResponse.content post))).
Proof.
  unfold validators.validate_post_content, compliant. cbv zeta.
  cbn [validators.warnings validators.result_of].
  set (text := PostContent.text (PostResponse.content post)).
  set (hashtags := PostContent.hashtags (PostResponse.content post)).
  assert (Hforall : flat_map validators.hashtag_warnings hashtags = [] <->
                    Forall (fun hashtag =>
                              startswith hashtag "#" = true /\
                              re_search (re_not_in helpers.hashtag_char) hashtag = false)
                           hashtags).
  { rewrite flat_map_nil_iff. split; intros H; eapply Forall_impl; try exact H;
      intros h Hh; apply hashtag_warnings_nil; exact Hh. }
  rewrite <- Hforall. split.
  - intros H. apply app_eq_nil in H. destruct H as [H1 H2].
    apply append_if_nil in H1. destruct H1 as [H5 H1].
    apply append_if_nil in H1. destruct H1 as [H0 H1].
    apply append_if_nil in H1. destruct H1 as [H280 _].
    rewrite Z.gtb_ltb in H280. apply Z.ltb_ge in H280.
    split; [| exact H2]. split; [exact H280 |].
    destruct hashtags as [| h hs]; [discriminate |].
    cbn [validators.empty_list negb andb] in H5.
    rewrite Z.gtb_ltb in H5. apply Z.ltb_ge in H5.
    cbn [List.length] in *. lia.
  - intros [[H280 [H1 H5]] H2]. rewrite H2, app_nil_r.
    apply append_if_nil. split.
    + apply andb_false_iff. right. rewrite Z.gtb_ltb. apply Z.ltb_ge. exact H5.
    + apply append_if_nil. split.
      * destruct hashtags; [simpl in H1; lia | reflexivity].
      * apply append_if_nil. split; [| reflexivity].
        rewrite Z.gtb_ltb. apply Z.ltb_ge. exact H280.
Qed.

(** ** Search *)

Lemma str_int_inj (n m : Z) : str_int n = str_int m -> n = m.
Proof.
  unfold str_int. intros H. apply to_int_inj.
  assert (Hnil : forall z, Z.to_int z <> Decimal.Pos Decimal.Nil /\
                           Z.to_int z <> Decimal.Neg Decimal.Nil).
  { intros [| p | p]; simpl; split; try discriminate;
      intros E; injection E as E; exact (Unsigned.to_uint_nonnil p E). }
  destruct (Hnil n) as [Hn1 Hn2]. destruct (Hnil m) as [Hm1 Hm2].
  pose proof (NilZero.isi _ Hn1 Hn2) as En. pose proof (NilZero.isi _ Hm1 Hm2) as Em.
  rewrite H in En. congruence.
Qed.

Lemma run_search (w : World) (h : log) (t : time) (query : string) (max_results : Z) :
  run_coro w h t (OpenAIService_search query max_results) =
  (h, t, Returned (map (fun k => search_result query (1 + Z.of_nat k))
                       (seq 0 (Z.to_nat max_results)))).
Proof.
  unfold OpenAIService_search. cbn [ctry run_coro].
  rewrite py_range_step_1, map_map.
  replace (max_results + 1 - 1) with max_results by lia. reflexivity.
Qed.

(** X15. [OpenAIService.search] calls nothing and never raises. It returns
    [max_results] results, none when [max_results] is zero or negative; they
    are numbered from 1 in their order, and no two of them have the same
    [url]. *)
Theorem search_returns_numbered_results (w : World) (h : log) (t : time)
    (query : string) (max_results : Z) :
  exists results,
    run_coro w h t (OpenAIService_search query max_results) = (h, t, Returned results) /\
    Z.of_nat (List.length results) = Z.max 0 max_results /\
    (forall i, 1 <= i <= max_results ->
               nth_error results (Z.to_nat (i - 1)) = Some (search_result query i)) /\
    NoDup (map (fun result => dict_get result "url") results).
Proof.
  eexists. split; [apply run_search |]. split; [| split].
  - rewrite length_map, length_seq. lia.
  - intros i Hi. rewrite nth_error_map, nth_error_seq.
    destruct (Z.to_nat (i - 1) <? Z.to_nat max_results)%nat eqn:E.
    + cbn [option_map Nat.add]. f_equal. f_equal. lia.
    + apply Nat.ltb_ge in E. lia.
  - rewrite map_map. apply Injective_map_NoDup; [| apply seq_NoDup].
    intros x y H. cbn [search_result dict_get] in H.
    change (String.eqb "title" "url") with false in H.
    change (String.eqb "url" "url") with true in H. cbv iota in H.
    assert (E : 1 + Z.of_nat x = 1 + Z.of_nat y); [| lia].
    remember (1 + Z.of_nat x) as i. remember (1 + Z.of_nat y) as j.
    injection H as H. apply str_int_inj. exact H.
Qed.

Lemma run_search_trends (w : World) (h : log) (t : time) (self : SearchService.t)
    (industry : string) (keywords : list string) :
  run_coro w h t (SearchService.search_trends self industry keywords) =
  run_coro w h t
    (OpenAIService_search
       (("current trends in " ++ industry ++ " ") ++ String.concat " " keywords)%string
       (SearchService.max_results self)).
Proof.
  unfold SearchService.search_trends. cbv zeta.
  rewrite run_coro_ctry, run_coro_cbind, !run_search. reflexivity.
Qed.

Lemma run_search_competitors (w : World) (h : log) (t : time) (self : SearchService.t)
    (company_name industry : string) (competitors : option (list string)) :
  exists query,
    run_coro w h t
      (SearchService.search_competitors self company_name industry competitors) =
    run_coro w h t (OpenAIService_search query (SearchService.max_results self)).
Proof.
  unfold SearchService.search_competitors. cbv zeta.
  eexists. rewrite run_coro_ctry, run_coro_cbind, !run_search. reflexivity.
Qed.

(** X16. The two search tools of the research agent call nothing, never
    raise and never answer with an [error] entry: each returns its [source]
    and [max_results] results (none when that is zero or negative). For the
    competitors tool an empty list of competitors is the same as none, and
    with known competitors the name of the company plays no part. *)
Theorem search_tools_always_return_results (w : World) (h : log) (t : time)
    (search_service : SearchService.t) (industry company_name : string)
    (keywords : list string) (competitors : option (list string)) :
  (exists results,
     run_coro w h t
       (ResearchAgent._search_trends_tool search_service industry keywords) =
       (h, t, Returned (JObject [("results", JArray results);
                                 ("source", JString "trend_research")])) /\
     Z.of_nat (List.length results) = Z.max 0 (SearchService.max_results search_service)) /\
  (exists results,
     run_coro w h t
       (ResearchAgent._search_competitors_tool search_service company_name industry
          competitors) =
       (h, t, Returned (JObject [("results", JArray results);
                                 ("source", JString "competitor_research")])) /\
     Z.of_nat (List.length results) = Z.max 0 (SearchService.max_results search_service)) /\
  ResearchAgent._search_competitors_tool search_service company_name industry (Some []) =
  ResearchAgent._search_competitors_tool search_service company_name industry None /\
  (forall other_name first others,
     ResearchAgent._search_competitors_tool search_service company_name industry
       (Some (first :: others)) =
     ResearchAgent._search_competitors_tool search_service other_name industry
       (Some (first :: others))).
Proof.
  split; [| split; [| split]].
  - unfold ResearchAgent._search_trends_tool.
    rewrite run_coro_ctry, run_coro_cbind, run_search_trends, run_search.
    eexists. split; [reflexivity |].
    rewrite !length_map, length_seq. lia.
  - unfold ResearchAgent._search_competitors_tool.
    destruct (run_search_competitors w h t search_service company_name industry
                competitors) as [query Hq].
    rewrite run_coro_ctry, run_coro_cbind, Hq, run_search.
    eexists. split; [reflexivity |].
    rewrite !length_map, length_seq. lia.
  - reflexivity.
  - reflexivity.
Qed.

(** ** The tool functions of the image agent and of the orchestrator *)

(** X17. [ImageAgent._generate_scene_description_tool] makes one text call
    and never raises; it never answers with an [error] entry either, because
    [generate_scene_description] has absorbed every failure before the tool
    could see it: the only entry is [scene_description], which is [None] when
    the service answered a choice without content. *)
Theorem scene_description_tool_never_reports_an_error (w : World) (h : log) (t : time)
    (brand_hero_name brand_hero_appearance brand_hero_personality post_text : string)
    (post_hashtags : option (list string)) :
  let brand_hero :=
    tool_brand_hero brand_hero_name brand_hero_appearance brand_hero_personality in
  let post_content :=
    tool_post_content post_text
      (match post_hashtags with Some hashtags => hashtags | None => [] end) in
  let c := generate_text (ScenePrompt brand_hero post_content) (7 # 10) 300 in
  let a := answer w c h in
  let t1 := (t + latency w c h)%nat in
  run_coro w h t
    (ImageAgent._generate_scene_description_tool brand_hero_name brand_hero_appearance
       brand_hero_personality post_text post_hashtags) =
  (h ++ [EvCall c t t1 (is_raised a)], t1,
   Returned (JObject [("scene_description",
                       json_of_optional
                         (scene_description_of brand_hero post_content a))])).
Proof.
  cbv zeta. unfold ImageAgent._generate_scene_description_tool. cbv zeta.
  rewrite run_coro_ctry, run_coro_cbind, run_generate_scene_description.
  cbv zeta. unfold tool_brand_hero, tool_post_content.
  destruct post_hashtags as [[| tag tags] |]; reflexivity.
Qed.

(** X18. [ImageAgent._generate_image_tool] makes one image call and never
    raises. When the call raises, the answer is the placeholder locator with
    the message of the exception under [error]; otherwise it has no [error]
    entry, its [image_url] is what the service answered, [None] included, and
    its [description] is the scene description it was given, if that is not
    empty. *)
Theorem image_tool_reports_failure_as_placeholder (w : World) (h : log) (t : time)
    (scene_description brand_hero_name brand_hero_appearance : string) :
  let brand_hero := tool_brand_hero brand_hero_name brand_hero_appearance "" in
  let post_content := tool_post_content scene_description [] in
  let c := openai_generate_image
             (final_prompt brand_hero post_content (Some scene_description))
             "1024x1024" in
  let a := answer w c h in
  let t1 := (t + latency w c h)%nat in
  exists answer_dict,
    run_coro w h t
      (ImageAgent._generate_image_tool scene_description brand_hero_name
         brand_hero_appearance) =
    (h ++ [EvCall c t t1 (is_raised a)], t1, Returned answer_dict) /\
    match a with
    | Raised e =>
        answer_dict =
        JObject [("error", JString (exn_str e));
                 ("image_url",
                  JString "https://via.placeholder.com/1024x1024?text=Image+Generation+Error");
                 ("description", JString "Error generating image")]
    | Returned url =>
        has_key answer_dict "error" = false /\
        entry answer_dict "image_url" = Some (json_of_optional url) /\
        (scene_description <> "" ->
         entry answer_dict "description" = Some (JString scene_description))
    end.
Proof.
  cbv zeta. unfold ImageAgent._generate_image_tool. cbv zeta.
  rewrite run_coro_ctry, run_coro_cbind, run_generate_brand_hero_image.
  cbv zeta. unfold tool_brand_hero, tool_post_content.
  match goal with
  | |- context [answer w ?c h] => destruct (answer w c h) as [url | e]
  end.
  - eexists. split; [reflexivity |]. split; [reflexivity |]. split; [reflexivity |].
    intros Hne. cbn [entry dict_get ir_description].
    change (String.eqb "image_url" "description") with false.
    change (String.eqb "description" "description") with true. cbv iota.
    destruct scene_description; [congruence | reflexivity].
  - eexists. split; reflexivity.
Qed.

(** X19. [OrchestratorAgent._research_context_tool] makes the one
    generation call of the context report and never raises (the company
    context it builds has no additional information, so [json.dumps] accepts
    it). When the call returns and the response parses, the tool returns the
    parsed report; when [json.loads] raises [JSONDecodeError], the wrapped
    response; when the call raises, or [json.loads] raises anything else, it
    returns a fixed report with the message of the exception under [error]
    and no trends and no competitors. *)
Theorem research_context_tool_never_raises (lib : Library) (w : World) (h : log)
    (t : time) (company_name company_description industry : string)
    (include_trends include_competitors : bool) :
  let company_context :=
    {| CompanyContext.name := company_name;
       CompanyContext.description := company_description;
       CompanyContext.values := ["value1"; "value2"];
       CompanyContext.target_audience := ["audience1"; "audience2"];
       CompanyContext.tone_of_voice := "professional";
       CompanyContext.industry := industry;
       CompanyContext.additional_info := None |} in
  let c := generate_response "ResearchAgent"
             (ResearchPrompt company_context include_trends include_competitors)
             (5 # 10) in
  let a := answer w c h in
  let t1 := (t + latency w c h)%nat in
  let reports_error (report : json) (e : exn) :=
    entry report "error" = Some (JString (exn_str e)) /\
    entry report "trends" = Some JNull /\
    entry report "competitors" = Some JNull /\
    has_key report "company_analysis" = true /\
    has_key report "insights" = true in
  exists report,
    run_coro w h t
      (OrchestratorAgent._research_context_tool lib company_name company_description
         industry include_trends include_competitors) =
    (h ++ [EvCall c t t1 (is_raised a)], t1, Returned report) /\
    match a with
    | Returned response =>
        match json_loads lib response with
        | Returned parsed => report = parsed
        | Raised e =>
            if is_JSONDecodeError e
            then report = JObject [("raw_response", JString response);
                                   ("error", JString "Failed to parse JSON response")]
            else reports_error report e
        end
    | Raised e => reports_error report e
    end.
Proof.
  cbv zeta. unfold OrchestratorAgent._research_context_tool. cbv zeta.
  rewrite run_coro_ctry, run_coro_cbind, run_generate_context_report.
  cbv zeta. unfold research_call, report_of.
  change (json_dumps (CompanyContext.dict _))
    with (Returned (A := pyobj)
            (CompanyContext.dict
               {| CompanyContext.name := company_name;
                  CompanyContext.description := company_description;
                  CompanyContext.values := ["value1"; "value2"];
                  CompanyContext.target_audience := ["audience1"; "audience2"];
                  CompanyContext.tone_of_voice := "professional";
                  CompanyContext.industry := industry;
                  CompanyContext.additional_info := None |})).
  cbv beta iota.
  match goal with
  | |- context [answer w ?c h] => destruct (answer w c h) as [response | e]
  end.
  - destruct (json_loads lib response) as [parsed | e].
    + eexists. split; reflexivity.
    + destruct (is_JSONDecodeError e).
      * eexists. split; reflexivity.
      * eexists. split; [reflexivity |]. repeat split.
  - eexists. split; [reflexivity |]. repeat split.
Qed.

(** ** The event stream of [stream_generator] *)

Lemma run_format_sse_event (w : World) (h : log) (t : time) (data : pyobj) :
  run_coro w h t (format_sse_event data) =
  (h, t, Returned match json_dumps data with
                  | Returned json_data => SseData json_data
                  | Raised e => SseError (exn_str e)
                  end).
Proof.
  unfold format_sse_event. destruct (json_dumps data); reflexivity.
Qed.

Lemma run_send_event {R : Type} (w : World) (s : state sse_event)
    (data : pyobj) (k : Prog sse_event R) :
  run w s (event <- await (format_sse_event data) ;; yield event ;; k)%prog =
  run w {| hist := hist s; now := now s;
           out := out s ++ [(now s,
                             match json_dumps data with
                             | Returned json_data => SseData json_data
                             | Raised e => SseError (exn_str e)
                             end)] |} k.
Proof.
  rewrite run_pbind, run_await, run_format_sse_event.
  rewrite run_pbind, run_yield. reflexivity.
Qed.

(** The loop of [stream_generator] follows the generator: it makes the
    calls the generator makes, and where the generator yields a post it sends
    one event, which carries the message of [json.dumps] and not the post, and
    counts one more. *)
Lemma run_stream_generator_loop (w : World) (delay : Q)
    (generator : Prog PostResponse.t unit) :
  forall (s : state sse_event) (s0 : state PostResponse.t) (count : Z),
    hist s0 = hist s -> now s0 = now s ->
    exists new,
      out (fst (run w s0 generator)) = out s0 ++ new /\
      run w s
        (for_each_with generator count (fun count post =>
           let count := count + 1 in
           await (asyncio_sleep delay) ;;
           event <- await (format_sse_event
                             (StreamResponse.dict (in_progress_response post))) ;;
           yield event ;;
           PRet count))%prog =
      ({| hist := hist (fst (run w s0 generator));
          now := now (fst (run w s0 generator));
          out := out s ++ map (fun x => (fst x, SseError (exn_str datetime_error))) new |},
       match snd (run w s0 generator) with
       | Returned r => Returned (count + Z.of_nat (List.length new), r)
       | Raised e => Raised e
       end).
Proof.
  induction generator as [a | e | y k IH | T c k IH | T tasks k IH];
    intros s s0 count Hhist Hnow; cbn [for_each_with].
  - exists []. cbn [run fst snd map List.length]. rewrite !app_nil_r, Z.add_0_r.
    split; [reflexivity |]. rewrite Hhist, Hnow. destruct s; reflexivity.
  - exists []. cbn [run fst snd map]. rewrite !app_nil_r.
    split; [reflexivity |]. rewrite Hhist, Hnow. destruct s; reflexivity.
  - cbv zeta. rewrite run_pbind, run_pbind, run_await. cbn [asyncio_sleep run_coro].
    rewrite run_send_event, json_dumps_in_progress. cbn [run hist now out].
    cbv zeta in IH.
    match goal with
    | |- context [run w ?s1 (for_each_with k ?c1 _)] =>
        destruct (IH s1 {| hist := hist s0; now := now s0;
                           out := out s0 ++ [(now s0, y)] |} c1 Hhist Hnow)
          as (new & Hout & Hrun)
    end.
    exists ((now s0, y) :: new). split.
    + rewrite Hout. cbn [out]. rewrite <- app_assoc. reflexivity.
    + rewrite Hrun. cbn [out map fst List.length]. rewrite <- app_assoc.
      cbn [app]. f_equal.
      * rewrite Hnow. reflexivity.
      * destruct (snd (run w _ k)); [| reflexivity].
        f_equal. f_equal. lia.
  - cbn [run]. rewrite Hhist, Hnow.
    destruct (run_coro w (hist s) (now s) c) as [[h t] r0].
    destruct (IH r0 {| hist := h; now := t; out := out s |}
                 {| hist := h; now := t; out := out s0 |} count eq_refl eq_refl)
      as (new & Hout & Hrun).
    exists new. split; [exact Hout | exact Hrun].
  - cbn [run]. rewrite Hhist, Hnow.
    destruct (run_tasks w (now s) (hist s) tasks) as [h rs].
    destruct (gather_outcome (now s) rs) as [t r0].
    destruct (IH r0 {| hist := h; now := t; out := out s |}
                 {| hist := h; now := t; out := out s0 |} count eq_refl eq_refl)
      as (new & Hout & Hrun).
    exists new. split; [exact Hout | exact Hrun].
Qed.

(** X20. Whatever the generator it is given does, [stream_generator] never
    raises, makes the calls the generator makes and no other, and sends: the
    [started] event; one event for each post the generator yields, in order;
    and one last event. The event of a post never carries the post:
    [json.dumps] raises on its [created_at], and [format_sse_event] sends the
    message of that exception in the place of the post. The last event is
    [completed], with the number of posts the generator yielded, when the
    generator returned, and [error], with the message of its exception, when
    it raised. *)
Theorem stream_generator_sends_started_posts_terminal (w : World)
    (generator : Prog PostResponse.t unit) (delay : Q) (s : state sse_event) :
  let generated := alone w (hist s) (now s) generator in
  let posts := map snd (out (fst generated)) in
  exists s',
    run w s (stream_generator generator delay) = (s', Returned tt) /\
    hist s' = hist (fst generated) /\
    map snd (out s') =
      map snd (out s) ++
      SseData (StreamResponse.dict started_response)
        :: map (fun _ => SseError "Object of type datetime is not JSON serializable") posts
        ++ [SseData (StreamResponse.dict
                       match snd generated with
                       | Returned _ => completed_response (Z.of_nat (List.length posts))
                       | Raised e => error_response e
                       end)].
Proof.
  cbv zeta. unfold stream_generator, alone. rewrite run_ptry. cbv zeta.
  rewrite run_send_event. rewrite json_dumps_without_post by reflexivity.
  rewrite run_pbind.
  match goal with
  | |- context [run w ?s1 (for_each_with generator ?c1 _)] =>
      destruct (run_stream_generator_loop w delay generator s1
                  {| hist := hist s; now := now s; out := [] |} c1 eq_refl eq_refl)
        as (new & Hout & Hrun);
      cbv zeta in Hrun; rewrite Hrun
  end.
  cbn [out app] in Hout. rewrite Hout.
  destruct (snd (run w _ generator)) as [[] | e].
  - cbv zeta. cbn [fst]. rewrite run_pbind, run_await, run_format_sse_event, run_yield.
    rewrite json_dumps_without_post by reflexivity.
    eexists. split; [reflexivity |]. cbn [hist out now]. split; [reflexivity |].
    rewrite !map_app, !map_map, length_map. cbn [map snd fst].
    rewrite <- !app_assoc. cbn [app]. rewrite Z.add_0_l. reflexivity.
  - rewrite run_pbind, run_await, run_format_sse_event, run_yield.
    rewrite json_dumps_without_post by reflexivity.
    eexists. split; [reflexivity |]. cbn [hist out now]. split; [reflexivity |].
    rewrite !map_app, !map_map. cbn [map snd fst].
    rewrite <- !app_assoc. reflexivity.
Qed.

(** The stream of two posts. *)
Lemma stream_generator_example :
  map snd (out (fst (run (Sample.world "{}" (fun _ => 1%nat)) start
                       (stream_generator
                          (yield (Sample.post "Hello" ["#a"]) ;;
                           yield (Sample.post "World" ["#b"]))%prog (1 # 10))))) =
  [SseData (StreamResponse.dict started_response);
   SseError "Object of type datetime is not JSON serializable";
   SseError "Object of type datetime is not JSON serializable";
   SseData (StreamResponse.dict (completed_response 2))].
Proof. reflexivity. Qed.

(** ** The request guardrail, whatever the settings *)

(** X21. Whatever the settings, the request guardrail never leaves a number
    of proposals above the maximum, changes nothing else in the request, and
    applying it twice is applying it once. When the settings have the minimum
    above the maximum, the maximum wins: every request comes out with exactly
    [max_proposals]. *)
Theorem request_guardrail_never_exceeds_maximum (settings : Settings.t)
    (request : PostGenerationRequest.t) :
  let validated := _apply_request_guardrails settings request in
  PostGenerationRequest.num_proposals validated <= Settings.max_proposals settings /\
  (Settings.max_proposals settings < Settings.min_proposals settings ->
   PostGenerationRequest.num_proposals validated = Settings.max_proposals settings) /\
  _apply_request_guardrails settings validated = validated /\
  PostGenerationRequest.set_num_proposals request
    (PostGenerationRequest.num_proposals validated) = validated.
Proof.
  cbv zeta. unfold _apply_request_guardrails.
  destruct request as [cc bh n trends competitors].
  unfold PostGenerationRequest.set_num_proposals. simpl.
  rewrite ?Z.gtb_ltb.
  repeat match goal with
         | |- context [?a <? ?b] =>
             destruct (Z.ltb_spec a b); simpl in *; rewrite ?Z.gtb_ltb
         end;
    repeat split; try reflexivity; try lia.
Qed.

(** X22. A request the constructor accepts has between 1 and 20 proposals;
    with settings whose maximum is 20 or more and not below the minimum, the
    request guardrail then computes [max(num_proposals, min_proposals)]: its
    upper clamp has nothing left to do. *)
Theorem constructed_request_is_raised_to_the_minimum (lib : Library)
    (settings : Settings.t)
    (cc : CompanyContext.t) (bh : BrandHero.t) (n : Z) (trends competitors : bool)
    (request : PostGenerationRequest.t) :
  PostGenerationRequest_new lib cc bh n trends competitors = Returned request ->
  Settings.min_proposals settings <= Settings.max_proposals settings ->
  20 <= Settings.max_proposals settings ->
  1 <= n <= 20 /\
  PostGenerationRequest.num_proposals request = n /\
  PostGenerationRequest.num_proposals (_apply_request_guardrails settings request) =
  Z.max n (Settings.min_proposals settings).
Proof.
  unfold PostGenerationRequest_new, PostGenerationRequest.validate_num_proposals.
  intros Hnew Hle Hmax.
  destruct (n <? 1) eqn:E1; [discriminate |].
  destruct (n >? 20) eqn:E2; [discriminate |].
  apply Z.ltb_ge in E1. rewrite Z.gtb_ltb in E2. apply Z.ltb_ge in E2.
  simpl in Hnew. injection Hnew as <-.
  split; [lia |]. split; [reflexivity |].
  unfold _apply_request_guardrails. simpl.
  destruct (n <? Settings.min_proposals settings) eqn:E3; simpl.
  - apply Z.ltb_lt in E3.
    destruct (Settings.min_proposals settings >? Settings.max_proposals settings)
      eqn:E4; [apply Z.gtb_lt in E4; lia |]. simpl. lia.
  - apply Z.ltb_ge in E3.
    destruct (n >? Settings.max_proposals settings) eqn:E4;
      [apply Z.gtb_lt in E4; lia |]. simpl. lia.
Qed.

Lemma constructed_request_is_raised_to_the_minimum_witness :
  1 <= 3 <= 20 /\
  PostGenerationRequest.num_proposals (Sample.request 3) = 3 /\
  PostGenerationRequest.num_proposals
    (_apply_request_guardrails default_settings (Sample.request 3)) =
  Z.max 3 (Settings.min_proposals default_settings).
Proof.
  apply (constructed_request_is_raised_to_the_minimum Sample.lib default_settings
           Sample.company Sample.hero 3 true true (Sample.request 3));
    [reflexivity | simpl; lia | simpl; lia].
Defined.

(** ** Nothing to generate *)

(** X23. When the number of proposals is zero or negative,
    [generate_post_proposals] still asks for the content brief, then yields
    nothing and returns; and when the call for the brief raises, whatever the
    number, it raises the same exception at once: nothing is yielded and no
    proposal task is started. In both cases the brief is the only call
    made. *)
Theorem generate_post_proposals_with_nothing_to_generate (lib : Library) (w : World)
    (s : state PostResponse.t) (context_report : json) (brand_hero : BrandHero.t)
    (num_proposals : Z) :
  let c := brief_call context_report brand_hero in
  let a := answer w c (hist s) in
  let t1 := (now s + latency w c (hist s))%nat in
  num_proposals <= 0 \/ is_raised a = true ->
  run w s (generate_post_proposals lib context_report brand_hero num_proposals) =
  ({| hist := hist s ++ [EvCall c (now s) t1 (is_raised a)]; now := t1; out := out s |},
   match a with
   | Returned _ => Returned tt
   | Raised e => Raised e
   end).
Proof.
  cbv zeta. intros H.
  rewrite generate_post_proposals_unfold, run_pbind, run_await,
    run_create_content_brief.
  cbv zeta.
  destruct (answer w (brief_call context_report brand_hero) (hist s))
    as [content_brief | e]; [| reflexivity].
  destruct H as [H | H]; [| discriminate].
  unfold proposals_loop. rewrite (py_range_empty _ H). reflexivity.
Qed.

Lemma generate_post_proposals_with_nothing_to_generate_witness :
  run (Sample.world "{}" (fun _ => 1%nat)) start
      (generate_post_proposals Sample.lib (JObject []) Sample.hero 0) =
  ({| hist := [EvCall (brief_call (JObject []) Sample.hero) 0%nat 1%nat false];
      now := 1%nat; out := [] |}, Returned tt).
Proof.
  apply (generate_post_proposals_with_nothing_to_generate Sample.lib
           (Sample.world "{}" (fun _ => 1%nat)) start (JObject []) Sample.hero 0).
  left. lia.
Defined.

(** ** All or nothing *)

(** Once the context report is there: the content brief is asked for, and
    then every proposal is emitted; only the call for the brief can raise. *)
Lemma run_brief_and_proposals {R : Type} (lib : Library) (w : World)
    (brand_hero : BrandHero.t) (n : Z) (context_report : json) (returned : R)
    (s : state PostResponse.t) :
  match run w s
          (content_brief <- await (_create_content_brief context_report brand_hero) ;;
           proposals_loop lib content_brief brand_hero n (process_proposal brand_hero) ;;
           PRet returned)%prog with
  | (s', Returned r) =>
      r = returned /\
      exists emitted,
        out s' = out s ++ emitted /\ List.length emitted = Z.to_nat n
  | (s', Raised e) =>
      out s' = out s /\
      hist s' = hist s ++ [EvCall (brief_call context_report brand_hero) (now s) (now s')
                             true] /\
      answer w (brief_call context_report brand_hero) (hist s) = Raised e
  end.
Proof.
  rewrite run_pbind, run_await, run_create_content_brief. cbv zeta.
  set (cb := brief_call context_report brand_hero).
  destruct (answer w cb (hist s)) as [content_brief | e] eqn:Hbrief.
  - rewrite run_pbind.
    match goal with
    | |- context [run w ?s1 (proposals_loop _ _ ?bh _ ?body)] =>
        pose proof (proposals_loop_invariant w lib content_brief bh n body
                      (fun k s' => exists emitted,
                                     out s' = out s ++ emitted /\
                                     List.length emitted = k)
                      (fun _ _ => False)) as Hloop;
        specialize (fun Hb Hy => Hloop Hb Hy s1);
        assert (Hall : post_run (run w s1 (proposals_loop lib content_brief bh n body))
                         (fun s' _ => exists emitted,
                                        out s' = out s ++ emitted /\
                                        List.length emitted = Z.to_nat n)
                         (fun _ _ => False));
        [| destruct (run w s1 (proposals_loop lib content_brief bh n body))
             as [s' [[] | e]]]
    end.
    + apply Hloop.
      * intros k s0 batch_start _ _ (emitted & Hout & Hlen).
        exists emitted. rewrite out_after_batch. split; assumption.
      * intros k post s0 _ _ (emitted & Hout & Hlen).
        destruct (run_process_proposal w brand_hero post s0)
          as (d & synthesis & post' & t' & Hstep & _).
        rewrite Hstep. cbn [post_run out].
        exists (emitted ++ [(t', post')]). split.
        -- rewrite Hout, app_assoc. reflexivity.
        -- rewrite length_app, Hlen. simpl. lia.
      * exists []. cbn [out]. rewrite app_nil_r. split; reflexivity.
    + cbn [run post_run] in *. split; [reflexivity | exact Hall].
    + cbn [post_run] in Hall. contradiction.
  - cbn [out hist now]. split; [reflexivity |]. split; reflexivity.
Qed.

(** X24. [process_request] emits all the proposals or none. Either it
    returns, having emitted as many proposals as the request asks for once
    the request guardrail has been applied; or it raises before the first
    proposal, without a proposal task having been dispatched, and then for one
    of four reasons: [json.dumps] raised on the company context, before any
    call; the call for the context report raised; [json.loads] raised
    something else than [JSONDecodeError] on the response of that call; or the
    call for the content brief raised. It raises the exception it met. Once
    the first proposal is out, nothing stops the others. *)
Theorem process_request_is_all_or_nothing (lib : Library) (settings : Settings.t)
    (w : World) (request : PostGenerationRequest.t) (s : state PostResponse.t) :
  let validated := _apply_request_guardrails settings request in
  let brand_hero := PostGenerationRequest.brand_hero validated in
  let research :=
    research_call (PostGenerationRequest.company_context validated)
      (PostGenerationRequest.include_trends validated)
      (PostGenerationRequest.include_competitors validated) in
  match run w s (process_request lib settings request) with
  | (s', Returned returned) =>
      returned = validated /\
      exists emitted,
        out s' = out s ++ emitted /\
        List.length emitted = Z.to_nat (PostGenerationRequest.num_proposals validated)
  | (s', Raised e) =>
      out s' = out s /\
      exists d,
        hist s' = hist s ++ d /\ spawns d = [] /\
        ((d = [] /\
          json_dumps (CompanyContext.dict
                        (PostGenerationRequest.company_context validated)) = Raised e) \/
         (failed_calls d = [research] /\ answer w research (hist s) = Raised e) \/
         (failed_calls d = [] /\
          exists response,
            answer w research (hist s) = Returned response /\
            json_loads lib response = Raised e /\ is_JSONDecodeError e = false) \/
         (exists context_report before,
            failed_calls d = [brief_call context_report brand_hero] /\
            answer w (brief_call context_report brand_hero) before = Raised e))
  end.
Proof.
  cbv zeta. rewrite process_request_unfold. unfold pipeline. cbv zeta.
  set (validated := _apply_request_guardrails settings request).
  rewrite run_pbind, run_await, run_generate_context_report. cbv zeta.
  destruct (json_dumps (CompanyContext.dict _)) as [context_json | e] eqn:Hdumps.
  2: { cbn [out hist]. split; [reflexivity |]. exists []. rewrite app_nil_r.
       split; [reflexivity |]. split; [reflexivity |]. left. split; reflexivity. }
  set (research := research_call _ _ _).
  assert (Hrest : forall context_report,
    match run w {| hist := hist s ++ [EvCall research (now s)
                                        (now s + latency w research (hist s))%nat false];
                   now := (now s + latency w research (hist s))%nat;
                   out := out s |}
            (content_brief <- await (_create_content_brief context_report
                                       (PostGenerationRequest.brand_hero validated)) ;;
             proposals_loop lib content_brief
               (PostGenerationRequest.brand_hero validated)
               (PostGenerationRequest.num_proposals validated)
               (process_proposal (PostGenerationRequest.brand_hero validated)) ;;
             PRet validated)%prog with
    | (s', Returned returned) =>
        returned = validated /\
        exists emitted,
          out s' = out s ++ emitted /\
          List.length emitted =
            Z.to_nat (PostGenerationRequest.num_proposals validated)
    | (s', Raised e) =>
        out s' = out s /\
        exists d,
          hist s' = hist s ++ d /\ spawns d = [] /\
          exists context_report before,
            failed_calls d = [brief_call context_report
                                (PostGenerationRequest.brand_hero validated)] /\
            answer w (brief_call context_report
                        (PostGenerationRequest.brand_hero validated)) before = Raised e
    end).
  { intros context_report.
    match goal with
    | |- match run w ?s1 ?p with _ => _ end =>
        pose proof (run_brief_and_proposals lib w
                      (PostGenerationRequest.brand_hero validated)
                      (PostGenerationRequest.num_proposals validated)
                      context_report validated s1) as H;
        destruct (run w s1 p) as [s' [r | e]]
    end.
    - exact H.
    - destruct H as (Hout & Hhist & Hbrief). split; [exact Hout |].
      eexists [_; _]. cbn [hist] in Hhist. rewrite Hhist, <- app_assoc.
      split; [reflexivity |]. split; [reflexivity |].
      eexists context_report, _. split; [reflexivity | exact Hbrief]. }
  unfold report_of.
  destruct (answer w research (hist s)) as [response | e] eqn:Ha; cbn [is_raised].
  - destruct (json_loads lib response) as [report | e] eqn:Hloads.
    + specialize (Hrest report).
      match goal with
      | |- match run w ?s1 ?p with _ => _ end => destruct (run w s1 p) as [s' [r | e]]
      end.
      * exact Hrest.
      * destruct Hrest as (Hout & d & Hd & Hsp & Hbrief). split; [exact Hout |].
        exists d. split; [exact Hd |]. split; [exact Hsp |]. right. right. right.
        exact Hbrief.
    + destruct (is_JSONDecodeError e) eqn:Hclass.
      * match goal with
        | |- context [run w _ (pbind (await (_create_content_brief ?cr _)) _)] =>
            specialize (Hrest cr)
        end.
        match goal with
        | |- match run w ?s1 ?p with _ => _ end => destruct (run w s1 p) as [s' [r | e']]
        end.
        -- exact Hrest.
        -- destruct Hrest as (Hout & d & Hd & Hsp & Hbrief). split; [exact Hout |].
           exists d. split; [exact Hd |]. split; [exact Hsp |]. right. right. right.
           exact Hbrief.
      * cbn [out hist]. split; [reflexivity |]. eexists [_].
        split; [reflexivity |]. split; [reflexivity |]. right. right. left.
        split; [reflexivity |]. exists response. repeat split; assumption.
  - cbn [out hist]. split; [reflexivity |]. eexists [_].
    split; [reflexivity |]. split; [reflexivity |]. right. left.
    split; reflexivity.
Qed.

(** X25. When the call for the context report raises, [process_request]
    raises the same exception; that call is the only one it has made, so the
    content agent and the image agent are never asked anything, and nothing
    is emitted. (When [json.dumps] raises on the company context, the call is
    not even made, and what is raised is the exception of [json.dumps].) *)
Theorem process_request_stops_when_research_fails (lib : Library)
    (settings : Settings.t) (w : World) (request : PostGenerationRequest.t)
    (s : state PostResponse.t) (e : exn) :
  let validated := _apply_request_guardrails settings request in
  let c := generate_response "ResearchAgent"
             (ResearchPrompt (PostGenerationRequest.company_context validated)
                (PostGenerationRequest.include_trends validated)
                (PostGenerationRequest.include_competitors validated))
             (5 # 10) in
  let t1 := (now s + latency w c (hist s))%nat in
  answer w c (hist s) = Raised e ->
  run w s (process_request lib settings request) =
  match json_dumps (CompanyContext.dict
                      (PostGenerationRequest.company_context validated)) with
  | Returned _ =>
      ({| hist := hist s ++ [EvCall c (now s) t1 true]; now := t1; out := out s |},
       Raised e)
  | Raised e' =>
      ({| hist := hist s; now := now s; out := out s |}, Raised e')
  end.
Proof.
  cbv zeta. intros Ha. rewrite process_request_unfold. unfold pipeline. cbv zeta.
  rewrite run_pbind, run_await, run_generate_context_report. cbv zeta.
  destruct (json_dumps (CompanyContext.dict _)) as [context_json | e'];
    [| reflexivity].
  unfold research_call. rewrite Ha. reflexivity.
Qed.

Lemma process_request_stops_when_research_fails_witness :
  run Sample.world_down start
      (process_request Sample.lib default_settings (Sample.request 12)) =
  ({| hist := [EvCall (generate_response "ResearchAgent"
                         (ResearchPrompt Sample.company true true) (5 # 10))
                 0%nat 1%nat true];
      now := 1%nat; out := [] |},
   Raised Sample.service_down).
Proof.
  apply (process_request_stops_when_research_fails Sample.lib default_settings
           Sample.world_down (Sample.request 12) start Sample.service_down).
  reflexivity.
Defined.

(** ** Images and the image validator *)

Lemma scene_prompt_not_empty (post_content : PostContent.t)
    (scene_description : option string) :
  scene_prompt post_content scene_description <> "".
Proof.
  unfold scene_prompt. destruct scene_description as [[| a rest] |]; discriminate.
Qed.

(** X26. Whatever the services answer, the image [generate_image] returns
    has a description that is not empty, so [validate_post_image] has no
    warning for it; and that validator accepts it unless the image service
    answered an empty locator. *)
Theorem generated_image_passes_the_image_validator (w : World) (h : log) (t : time)
    (brand_hero : BrandHero.t) (post_content : PostContent.t) :
  exists h' t' image,
    run_coro w h t (generate_image brand_hero post_content) = (h', t', Returned image) /\
    PostImage.description image <> "" /\
    validators.warnings (validators.validate_post_image image) = [] /\
    (validators.is_valid (validators.validate_post_image image) = true <->
     PostImage.image_url image <> "").
Proof.
  rewrite run_generate_image. cbv zeta.
  assert (Hvalid : forall image,
             PostImage.description image <> "" ->
             PostImage.description image <> "" /\
             validators.warnings (validators.validate_post_image image) = [] /\
             (validators.is_valid (validators.validate_post_image image) = true <->
              PostImage.image_url image <> "")).
  { intros image Hd. split; [exact Hd |].
    unfold validators.validate_post_image. cbv zeta.
    cbn [validators.warnings validators.result_of].
    rewrite is_valid_result_of, !append_if_nil, !empty_str_false. tauto. }
  destruct (answer w _ h) as [response | e].
  - eexists _, _, _. split; [reflexivity |]. apply Hvalid.
    unfold post_image_of.
    destruct (answer w _ _) as [[url |] | e]; cbn [PostImage.description];
      [apply scene_prompt_not_empty | discriminate | discriminate].
  - eexists _, _, _. split; [reflexivity |]. apply Hvalid. discriminate.
Qed.

(** ** What a proposal says about its brief *)

(** X27. A proposal task never raises and returns a proposal without image.
    When the content was obtained, the proposal carries an excerpt of the
    content brief of at most 103 characters, the brief itself when that has at
    most 100; otherwise it carries the message of the exception under [error]
    and no excerpt. *)
Theorem proposal_excerpt_is_bounded (lib : Library) (w : World) (h : log) (t : time)
    (content_brief : string) (brand_hero : BrandHero.t) (proposal_num : Z) :
  exists h' t' post inspiration,
    run_coro w h t
      (_generate_post_proposal lib content_brief brand_hero proposal_num) =
      (h', t', Returned post) /\
    PostResponse.image post = None /\
    PostResponse.inspiration post = Some inspiration /\
    match dict_get inspiration "brief_excerpt" with
    | Some excerpt =>
        len excerpt <= 103 /\
        (len content_brief <= 100 -> excerpt = content_brief) /\
        dict_get inspiration "error" = None
    | None => exists msg, dict_get inspiration "error" = Some msg
    end.
Proof.
  rewrite run_generate_post_proposal. cbv zeta. unfold proposal_of.
  destruct (proposal_content lib proposal_num _) as [post_content | e].
  - eexists _, _, _, _. split; [reflexivity |].
    cbn [PostResponse.image PostResponse.inspiration].
    split; [reflexivity |]. split; [reflexivity |].
    cbn [dict_get].
    change (String.eqb "source" "brief_excerpt") with false.
    change (String.eqb "brief_excerpt" "brief_excerpt") with true.
    change (String.eqb "source" "error") with false.
    change (String.eqb "brief_excerpt" "error") with false. cbv iota.
    destruct (len content_brief >? 100) eqn:E.
    + apply Z.gtb_lt in E. split; [| split; [lia | reflexivity]].
      rewrite len_app. unfold len at 1. rewrite length_str_prefix.
      change (len "...") with 3. lia.
    + rewrite Z.gtb_ltb in E. apply Z.ltb_ge in E.
      split; [lia | split; reflexivity].
  - eexists _, _, _, _. split; [reflexivity |].
    cbn [PostResponse.image PostResponse.inspiration].
    split; [reflexivity |]. split; [reflexivity |].
    cbn [dict_get].
    change (String.eqb "source" "brief_excerpt") with false.
    change (String.eqb "error" "brief_excerpt") with false.
    change (String.eqb "source" "error") with false.
    change (String.eqb "error" "error") with true. cbv iota.
    eexists. reflexivity.
Qed.
